(** * The collaboration hub of ai-kms: session manager and initial sync

    A shallow embedding of
    [internal/services/collaboration/session_manager.go] (the
    [SessionManager] with its register / unregister / broadcast handlers,
    the awareness store and the cleanup sweeper),
    [internal/services/collaboration/websocket_handler.go]
    ([HandleDocumentConnection], [sendInitialState]) and
    [internal/repository/yjs_repo.go] ([StoreUpdate], [GetAllUpdates]);
    further on, the other queries of the repository, [Shutdown] and
    [ReadPump].

    Go values are modelled as follows.
    - [map[K]V] is a [gmap]; a set [map[*Session]bool] is a [gset].  The
      order in which [range] visits a map is left to the runtime: it is a
      parameter ([GoRuntime]).
    - A [*Session] is the record of its immutable fields; the ksuid [ID]
      makes two sessions distinct.  The mutable parts reached through the
      pointer (the [Send] channel, [LastActiveAt]) live in the [World].
    - The inner awareness maps are heap objects: the store holds
      references to them, because [GetAwareness] hands such a reference
      to its caller.
    - A goroutine is a resumption: it runs until it has to wait for a
      lock or a channel and then hands its continuation to the scheduler.
*)

From stdpp Require Import gmap strings list fin_maps sorting.
From Stdlib Require Import ZArith.

Local Open Scope Z_scope.

(** ** Data model *)

(** [models.Session] together with the [ClientID] of the wrapping
    [collaboration.Session]. *)
Record Session := mkSession {
  ID : string;
  DocumentID : string;
  UserID : string;
  UserName : string;
  ClientID : Z
}.

#[global] Instance Session_eq_dec : EqDecision Session.
Proof. solve_decision. Defined.

#[global] Instance Session_countable : Countable Session.
Proof.
  refine (inj_countable'
    (fun s => (ID s, DocumentID s, UserID s, UserName s, ClientID s))
    (fun t => match t with (i, d, u, n, c) => mkSession i d u n c end) _).
  by intros [].
Defined.

#[global] Arguments Session_eq_dec : simpl never.
#[global] Arguments Session_countable : simpl never.

Record UserInfo := mkUserInfo {
  uiID : string;
  uiName : string;
  uiColor : string
}.

Record CursorPosition := mkCursor {
  Line : Z;
  Column : Z
}.

(** [models.AwarenessState]; the free-form [State] blob is kept as its
    list of key / value pairs. *)
Record AwarenessState := mkAwareness {
  aClientID : Z;
  aUser : option UserInfo;
  aCursor : option CursorPosition;
  aState : list (string * string)
}.

(** [models.MessageType], the two values the hub itself produces. *)
Definition MessageTypeJoin : Z := 10.
Definition MessageTypeLeave : Z := 11.

(** What travels through a [Send] channel ([[]byte] in the source): a
    frame received from a client or replayed from the update log, the
    JSON of a join / leave announcement, or the JSON of the awareness
    map.  The JSON encodings are kept structured. *)
Inductive Payload :=
| Raw (bytes : string)
| Announcement (type : Z) (user_id user_name : string)
| AwarenessData (aware : gmap Z AwarenessState).

(** [BroadcastMessage]: [Sender = None] is the nil sender. *)
Record BroadcastMessage := mkBroadcast {
  bDocumentID : string;
  Message : Payload;
  Sender : option Session
}.

(** [models.YjsUpdate], the columns the hub reads. *)
Record YjsUpdate := mkYjsUpdate {
  yDocumentID : string;
  Update : string;
  yClientID : Z;
  CreatedAt : Z
}.

(** The update log behind [sm.yjsRepo]: the rows of [yjs_updates] in
    insertion order, and whether the database answers. *)
Record YjsRepository := mkRepo {
  rows : list YjsUpdate;
  reachable : bool
}.

(** A buffered Go channel of payloads: its pending items and whether it
    has been closed. *)
Record Chan := mkChan {
  buf : list Payload;
  closed : bool
}.

(** [make(chan []byte, 256)] in [HandleDocumentConnection] and
    [make(chan *BroadcastMessage, 256)] in [NewSessionManager]. *)
Definition SendCapacity : nat := 256.
Definition BroadcastCapacity : nat := 256.

(** Lines written by [log.Printf]. *)
Inductive LogLine :=
| LogJoined (s : Session) (total : nat)
| LogLeft (s : Session) (remaining : nat)
| LogBufferFull (s : Session)
| LogCleaning (s : Session)
| LogGetUpdatesFailed
| LogInitialUpdateFailed (s : Session)
| LogInitialSent (n : nat) (s : Session)
| LogConnected (s : Session).

(** References to the inner maps of the awareness store. *)
Definition loc := nat.

(** The session manager and the heap objects reachable from it. *)
Record World := mkWorld {
  documents : gmap string (gset Session);  (* sm.documents *)
  broadcast : list BroadcastMessage;       (* items pending in sm.broadcast *)
  mu : bool;                               (* sm.mu is write-locked *)
  awareness : gmap string loc;             (* sm.awareness: references *)
  amaps : gmap loc (gmap Z AwarenessState);(* the inner awareness maps *)
  yjsRepo : option YjsRepository;          (* sm.yjsRepo, nil at first *)
  Send : gmap Session Chan;                (* session.Send *)
  LastActiveAt : gmap Session Z;           (* session.LastActiveAt *)
  logs : list LogLine
}.

Definition set_documents (f : gmap string (gset Session) -> gmap string (gset Session)) (w : World) : World :=
  mkWorld (f (documents w)) (broadcast w) (mu w) (awareness w) (amaps w)
          (yjsRepo w) (Send w) (LastActiveAt w) (logs w).
Definition set_broadcast (f : list BroadcastMessage -> list BroadcastMessage) (w : World) : World :=
  mkWorld (documents w) (f (broadcast w)) (mu w) (awareness w) (amaps w)
          (yjsRepo w) (Send w) (LastActiveAt w) (logs w).
Definition set_mu (b : bool) (w : World) : World :=
  mkWorld (documents w) (broadcast w) b (awareness w) (amaps w)
          (yjsRepo w) (Send w) (LastActiveAt w) (logs w).
Definition set_awareness (f : gmap string loc -> gmap string loc) (w : World) : World :=
  mkWorld (documents w) (broadcast w) (mu w) (f (awareness w)) (amaps w)
          (yjsRepo w) (Send w) (LastActiveAt w) (logs w).
Definition set_amaps (f : gmap loc (gmap Z AwarenessState) -> gmap loc (gmap Z AwarenessState)) (w : World) : World :=
  mkWorld (documents w) (broadcast w) (mu w) (awareness w) (f (amaps w))
          (yjsRepo w) (Send w) (LastActiveAt w) (logs w).
Definition set_yjsRepo (r : option YjsRepository) (w : World) : World :=
  mkWorld (documents w) (broadcast w) (mu w) (awareness w) (amaps w)
          r (Send w) (LastActiveAt w) (logs w).
Definition set_Send (f : gmap Session Chan -> gmap Session Chan) (w : World) : World :=
  mkWorld (documents w) (broadcast w) (mu w) (awareness w) (amaps w)
          (yjsRepo w) (f (Send w)) (LastActiveAt w) (logs w).
Definition set_LastActiveAt (f : gmap Session Z -> gmap Session Z) (w : World) : World :=
  mkWorld (documents w) (broadcast w) (mu w) (awareness w) (amaps w)
          (yjsRepo w) (Send w) (f (LastActiveAt w)) (logs w).
Definition set_logs (f : list LogLine -> list LogLine) (w : World) : World :=
  mkWorld (documents w) (broadcast w) (mu w) (awareness w) (amaps w)
          (yjsRepo w) (Send w) (LastActiveAt w) (f (logs w)).
Definition add_log (l : LogLine) (w : World) : World :=
  set_logs (fun ls => ls ++ [l]) w.

(** [NewSessionManager]: empty maps, empty channels, no repository. *)
Definition NewSessionManager : World :=
  mkWorld ∅ [] false ∅ ∅ None ∅ ∅ [].

(** [SetYjsRepository]. *)
Definition SetYjsRepository (repo : YjsRepository) (w : World) : World :=
  set_yjsRepo (Some repo) w.

(** ** Goroutines as resumptions *)

(** The operations on which a goroutine of the hub can be suspended. *)
Inductive Request :=
| AcquireMu                               (* sm.mu.Lock() *)
| AcquireRMu                              (* sm.mu.RLock() *)
| SendRegister (s : Session)              (* sm.register <- s *)
| SendUnregister (s : Session)            (* sm.unregister <- s *)
| SendBroadcast (m : BroadcastMessage)    (* sm.broadcast <- m *)
| SendSession (s : Session) (p : Payload).  (* s.Send <- p, blocking *)

(** A goroutine runs without interruption from one request to the next.
    [Block r w k]: it has brought the world to [w] and waits for [r];
    once [r] is granted it goes on as [k] from the world of that moment.
    [Crash] is a run-time panic. *)
Inductive Outcome (A : Type) :=
| Ret (a : A) (w : World)
| Block (r : Request) (w : World) (k : World -> Outcome A)
| Crash.
Arguments Ret {A} a w.
Arguments Block {A} r w k.
Arguments Crash {A}.

Definition Thread (A : Type) : Type := World -> Outcome A.

Fixpoint bindO {A B} (o : Outcome A) (f : A -> Thread B) : Outcome B :=
  match o with
  | Ret a w => f a w
  | Block r w k => Block r w (fun w' => bindO (k w') f)
  | Crash => Crash
  end.

Definition ret {A} (a : A) : Thread A := fun w => Ret a w.
Definition bind {A B} (m : Thread A) (f : A -> Thread B) : Thread B :=
  fun w => bindO (m w) f.
Definition get : Thread World := fun w => Ret w w.
Definition modify (f : World -> World) : Thread unit := fun w => Ret tt (f w).
Definition request (r : Request) : Thread unit :=
  fun w => Block r w (fun w' => Ret tt w').
Definition panic {A} : Thread A := fun _ => Crash.

Declare Scope thread_scope.
Delimit Scope thread_scope with thread.
Notation "x <- m ;; k" := (bind m (fun x => k))
  (at level 100, m at next level, right associativity) : thread_scope.
Notation "m ;;; k" := (bind m (fun _ => k))
  (at level 100, right associativity) : thread_scope.
Local Open Scope thread_scope.

(** [for _, x := range xs { body }] over the visiting order [xs]. *)
Fixpoint for_each {X} (xs : list X) (body : X -> Thread unit) : Thread unit :=
  match xs with
  | [] => ret tt
  | x :: rest => body x ;;; for_each rest body
  end.

Definition log (l : LogLine) : Thread unit := modify (add_log l).

(** [sm.mu.Lock()] and the deferred [sm.mu.Unlock()]; [sm.mu.RLock()],
    whose sections never wait inside, so that [RUnlock] has nothing left
    to release in the model. *)
Definition lock_mu : Thread unit := request AcquireMu.
Definition unlock_mu : Thread unit := modify (set_mu false).
Definition rlock_mu : Thread unit := request AcquireRMu.

Definition send_register (s : Session) : Thread unit := request (SendRegister s).
Definition send_unregister (s : Session) : Thread unit := request (SendUnregister s).
Definition send_broadcast (m : BroadcastMessage) : Thread unit := request (SendBroadcast m).
Definition send_session (s : Session) (p : Payload) : Thread unit := request (SendSession s p).

(** [select { case session.Send <- p: ... default: ... }]: true when the
    payload was queued, false when the default branch ran.  A nil
    channel is never ready; a send on a closed channel panics. *)
Definition try_send (s : Session) (p : Payload) : Thread bool :=
  fun w =>
    match Send w !! s with
    | None => Ret false w
    | Some c =>
        if closed c then Crash
        else if decide (length (buf c) < SendCapacity)%nat
             then Ret true (set_Send <[s := mkChan (buf c ++ [p]) false]> w)
             else Ret false w
    end.

(** [close(session.Send)]: closing a nil or a closed channel panics. *)
Definition close_send (s : Session) : Thread unit :=
  fun w =>
    match Send w !! s with
    | None => Crash
    | Some c =>
        if closed c then Crash
        else Ret tt (set_Send <[s := mkChan (buf c) true]> w)
    end.

(** What the scheduler does with a request when no other goroutine
    moves. *)
Inductive Granted :=
| Proceed (w : World)
| Wait
| Fault.

Definition grant (r : Request) (w : World) : Granted :=
  match r with
  | AcquireMu => if mu w then Wait else Proceed (set_mu true w)
  | AcquireRMu => if mu w then Wait else Proceed w
  | SendRegister _ => Wait     (* unbuffered: needs the hub at its select *)
  | SendUnregister _ => Wait   (* unbuffered: needs a receiver at its select *)
  | SendBroadcast m =>
      if decide (length (broadcast w) < BroadcastCapacity)%nat
      then Proceed (set_broadcast (fun q => q ++ [m]) w)
      else Wait
  | SendSession s p =>
      match Send w !! s with
      | None => Wait
      | Some c =>
          if closed c then Fault
          else if decide (length (buf c) < SendCapacity)%nat
               then Proceed (set_Send <[s := mkChan (buf c ++ [p]) false]> w)
               else Wait
      end
  end.

(** The result of letting one goroutine run while all others stand
    still: it returns, it is left waiting on a request, or it panics. *)
Inductive Result (A : Type) :=
| Finished (a : A) (w : World)
| Parked (r : Request) (w : World)
| Panicked.
Arguments Finished {A} a w.
Arguments Parked {A} r w.
Arguments Panicked {A}.

Fixpoint runO {A} (o : Outcome A) : Result A :=
  match o with
  | Ret a w => Finished a w
  | Crash => Panicked
  | Block r w k =>
      match grant r w with
      | Proceed w' => runO (k w')
      | Wait => Parked r w
      | Fault => Panicked
      end
  end.

Definition run {A} (t : Thread A) (w : World) : Result A := runO (t w).

(** Running a second goroutine body after the first has returned. *)
Definition and_then {A B} (r : Result A) (t : Thread B) : Result B :=
  match r with
  | Finished _ w => run t w
  | Parked q w => Parked q w
  | Panicked => Panicked
  end.

(** The world a result leaves behind, if the process is still alive. *)
Definition world_of {A} (r : Result A) : option World :=
  match r with
  | Finished _ w => Some w
  | Parked _ w => Some w
  | Panicked => None
  end.

(** ** The Go runtime: map iteration order *)

Class GoRuntime := {
  range_sessions : gset Session -> list Session;
  range_sessions_perm : forall X, range_sessions X ≡ₚ elements X;
  range_rooms : gmap string (gset Session) -> list (string * gset Session);
  range_rooms_perm : forall m, range_rooms m ≡ₚ map_to_list m
}.

(** One admissible runtime: the order of [elements] and [map_to_list]. *)
Definition fixed_order : GoRuntime :=
  {| range_sessions := elements;
     range_sessions_perm := fun X => reflexivity (elements X);
     range_rooms := map_to_list;
     range_rooms_perm := fun m => reflexivity (map_to_list m) |}.

(** ** The session manager *)

Definition joinMsg (s : Session) : Payload :=
  Announcement MessageTypeJoin (UserID s) (UserName s).
Definition leaveMsg (s : Session) : Payload :=
  Announcement MessageTypeLeave (UserID s) (UserName s).

(** [sm.documents[documentID]]: a missing key reads as the nil map,
    which has no members. *)
Definition room (w : World) (documentID : string) : gset Session :=
  default ∅ (documents w !! documentID).

(** [handleRegister] *)
Definition handleRegister (session : Session) : Thread unit :=
  lock_mu ;;;
  modify (set_documents (fun docs =>
    match docs !! DocumentID session with
    | None => <[DocumentID session := ∅]> docs
    | Some _ => docs
    end)) ;;;
  modify (set_documents (alter (fun sessions => {[session]} ∪ sessions)
                               (DocumentID session))) ;;;
  w <- get ;;
  log (LogJoined session (size (room w (DocumentID session)))) ;;;
  send_broadcast (mkBroadcast (DocumentID session) (joinMsg session) (Some session)) ;;;
  unlock_mu.

(** [handleUnregister] *)
Definition handleUnregister (session : Session) : Thread unit :=
  lock_mu ;;;
  w <- get ;;
  match documents w !! DocumentID session with
  | Some sessions =>
      if decide (session ∈ sessions) then
        let sessions' := sessions ∖ {[session]} in
        modify (set_documents <[DocumentID session := sessions']>) ;;;
        close_send session ;;;
        (if decide (size sessions' = 0%nat)
         then modify (set_documents (delete (DocumentID session)))
         else ret tt) ;;;
        log (LogLeft session (size sessions')) ;;;
        modify (fun w =>
          match awareness w !! DocumentID session with
          | Some aware => set_amaps (alter (delete (ClientID session)) aware) w
          | None => w
          end) ;;;
        send_broadcast (mkBroadcast (DocumentID session) (leaveMsg session) None)
      else ret tt
  | None => ret tt
  end ;;;
  unlock_mu.

Section Runtime.
Context {RT : GoRuntime}.

(** [handleBroadcast]; [deliver] is the body of its loop. *)
Definition deliver (msg : BroadcastMessage) (session : Session) : Thread unit :=
  if decide (Sender msg = Some session) then ret tt
  else
    queued <- try_send session (Message msg) ;;
    if queued : bool then ret tt
    else log (LogBufferFull session) ;;; send_unregister session.

Definition handleBroadcast (msg : BroadcastMessage) : Thread unit :=
  rlock_mu ;;;
  w <- get ;;
  let sessions := room w (bDocumentID msg) in
  for_each (range_sessions sessions) (deliver msg).

(** [GetSessions] *)
Definition GetSessions (documentID : string) (w : World) : list Session :=
  range_sessions (room w documentID).

(** [cleanup], run at time [now]; durations are in nanoseconds. *)
Definition Second : Z := 1000000000.
Definition Minute : Z := 60 * Second.
Definition timeout : Z := 5 * Minute.
Definition sweep_interval : Z := 30 * Second.

Definition last_active (w : World) (s : Session) : Z :=
  default 0 (LastActiveAt w !! s).

(** The two loops of [cleanup]: [sweep] is the body of the inner one,
    [sweep_room] that of the outer one. *)
Definition sweep (now : Z) (session : Session) : Thread unit :=
  w <- get ;;
  if decide (timeout < now - last_active w session)
  then log (LogCleaning session) ;;; send_unregister session
  else ret tt.

Definition sweep_room (now : Z) (entry : string * gset Session) : Thread unit :=
  let '(docID, sessions) := entry in
  for_each (range_sessions sessions) (sweep now) ;;;
  (if decide (size sessions = 0%nat)
   then modify (set_documents (delete docID))
   else ret tt).

Definition cleanup (now : Z) : Thread unit :=
  lock_mu ;;;
  w <- get ;;
  for_each (range_rooms (documents w)) (sweep_room now) ;;;
  unlock_mu.

End Runtime.

(** [Broadcast], called by the read pump of a session: a send on
    [sm.broadcast]. *)
Definition Broadcast (documentID : string) (message : Payload) (sender : option Session) : Thread unit :=
  send_broadcast (mkBroadcast documentID message sender).

(** ** The awareness store

    [UpdateAwareness] and [GetAwareness] hold [sm.awareMu] and never
    wait while holding it; they are atomic. *)

(** [make(map[int]*models.AwarenessState)]: a new heap object. *)
Definition new_loc (w : World) : loc := fresh (dom (amaps w)).

(** [UpdateAwareness] *)
Definition UpdateAwareness (documentID : string) (clientID : Z) (state : AwarenessState) (w : World) : World :=
  let w1 :=
    match awareness w !! documentID with
    | None =>
        let l := new_loc w in
        set_awareness <[documentID := l]> (set_amaps <[l := ∅]> w)
    | Some _ => w
    end in
  match awareness w1 !! documentID with
  | Some l => set_amaps (alter <[clientID := state]> l) w1
  | None => w1
  end.

(** [GetAwareness]: the reference stored under the document, nil
    ([None]) when there is none. *)
Definition GetAwareness (documentID : string) (w : World) : option loc :=
  awareness w !! documentID.

(** Reading a map through a reference, as a caller of [GetAwareness]
    does; the nil map reads as empty. *)
Definition deref (w : World) (r : option loc) : gmap Z AwarenessState :=
  match r with
  | Some l => default ∅ (amaps w !! l)
  | None => ∅
  end.

(** Writing through a reference: [aware[clientID] = state] in the
    caller's hands. *)
Definition write_through (r : loc) (clientID : Z) (state : AwarenessState) (w : World) : World :=
  set_amaps (alter <[clientID := state]> r) w.

(** ** The update log *)

Definition created_le (u v : YjsUpdate) : Prop := CreatedAt u <= CreatedAt v.

#[global] Instance created_le_dec : RelDecision created_le.
Proof. intros u v. unfold created_le. apply _. Defined.

(** [StoreUpdate] at time [now]: one more row, or an error. *)
Definition StoreUpdate (documentID : string) (update : string) (clientID : Z) (now : Z)
    (r : YjsRepository) : YjsRepository + unit :=
  if reachable r
  then inl (mkRepo (rows r ++ [mkYjsUpdate documentID update clientID now]) true)
  else inr tt.

(** [GetAllUpdates]: [WHERE document_id = ? ORDER BY created_at ASC]. *)
Definition GetAllUpdates (r : YjsRepository) (documentID : string) : list YjsUpdate + unit :=
  if reachable r
  then inl (merge_sort created_le
              (filter (fun u => yDocumentID u = documentID) (rows r)))
  else inr tt.

(** ** The connection handler *)

(** [sendInitialState]; [replay] is the body of its loop.  The
    awareness map travels as it is ([AwarenessData]): there is nothing
    in it that [json.Marshal] refuses, so the send of line 146 is
    always reached when the document has a map. *)
Definition replay (session : Session) (update : YjsUpdate) : Thread unit :=
  queued <- try_send session (Raw (Update update)) ;;
  if queued : bool then ret tt
  else log (LogInitialUpdateFailed session).

Definition sendInitialState (session : Session) : Thread unit :=
  w <- get ;;
  returned <-
    match yjsRepo w with
    | Some repo =>
        match GetAllUpdates repo (DocumentID session) with
        | inr _ => log LogGetUpdatesFailed ;;; ret true
        | inl updates =>
            for_each updates (replay session) ;;;
            log (LogInitialSent (length updates) session) ;;;
            ret false
        end
    | None => ret false
    end ;;
  if returned : bool then ret tt
  else
    w <- get ;;
    match GetAwareness (DocumentID session) w with
    | Some aware => send_session session (AwarenessData (deref w (Some aware)))
    | None => ret tt
    end.

(** The client id of [HandleDocumentConnection]: the parsed parameter
    ([strconv.Atoi] gives 0 for a missing or malformed one), or the
    clock modulo one million. *)
Definition resolveClientID (parsed : Z) (unixNano : Z) : Z :=
  if decide (parsed = 0) then unixNano `rem` 1000000 else parsed.

(** The [Session] literal of [HandleDocumentConnection]: a fresh open
    [Send] channel, and [LastActiveAt] set by [models.NewSession]. *)
Definition newSession (session : Session) (now : Z) (w : World) : World :=
  set_LastActiveAt <[session := now]> (set_Send <[session := mkChan [] false]> w).

(** [HandleDocumentConnection] from line 89 on, for a request whose
    connection has been upgraded; [now] is the clock [models.NewSession]
    reads.  The send on [sm.register] is a rendezvous with the hub's
    [select]; the two pumps of lines 107 and 108 are goroutines of
    their own. *)
Definition HandleDocumentConnection (session : Session) (now : Z) : Thread unit :=
  modify (newSession session now) ;;;          (* lines 90 to 97 *)
  send_register session ;;;                    (* line 100 *)
  sendInitialState session ;;;                 (* line 103 *)
  log (LogConnected session).                  (* line 110 *)

(** Where a goroutine stands when it can go no further. *)
Inductive Standing :=
| Returned
| WaitsFor (r : Request).

Definition stand {A} (r : Result A) : option (Standing * World) :=
  match r with
  | Finished _ w => Some (Returned, w)
  | Parked q w => Some (WaitsFor q, w)
  | Panicked => None
  end.

(** A new connection and the hub side by side, all other goroutines
    standing still.  The hub is in its [select] and takes the session
    the handler offers at line 100.  From there each goes its own way:
    the hub through [handleRegister], the handler through the rest of
    its body.  The hub works on the registry, the lock and
    [sm.broadcast], the handler on the queue of its session; they share
    the log and nothing else, and neither waits for anything the other
    provides.  So each is run as far as it goes, in the order
    [hub_first] says; that order shows in the order of the log lines
    and nowhere else (lemma [connect_either_way]).  The result: where
    the hub stands, where the handler stands, and the world they
    leave. *)
Definition connect (hub_first : bool) (session : Session) (now : Z) (w : World)
    : option (Standing * Standing * World) :=
  match HandleDocumentConnection session now w with
  | Block (SendRegister s) w0 k =>
      if hub_first then
        match stand (run (handleRegister s) w0) with
        | Some (h, w1) =>
            match stand (runO (k w1)) with
            | Some (c, w2) => Some (h, c, w2)
            | None => None
            end
        | None => None
        end
      else
        match stand (runO (k w0)) with
        | Some (c, w1) =>
            match stand (run (handleRegister s) w1) with
            | Some (h, w2) => Some (h, c, w2)
            | None => None
            end
        | None => None
        end
  | _ => None
  end.

(** ** The event loop of [Start] *)

(** What the hub's [select] can receive. *)
Inductive Command :=
| Register (s : Session)     (* case session := <-sm.register *)
| Unregister (s : Session)   (* case session := <-sm.unregister *)
| Deliver.                   (* case msg := <-sm.broadcast *)

Section Loop.
Context {RT : GoRuntime}.

(** One turn of the loop.  [Deliver] takes the oldest pending message
    out of [sm.broadcast]; with nothing pending that case is not ready. *)
Definition dispatch (c : Command) : Thread unit :=
  match c with
  | Register s => handleRegister s
  | Unregister s => handleUnregister s
  | Deliver =>
      w <- get ;;
      match broadcast w with
      | msg :: pending =>
          modify (set_broadcast (fun _ => pending)) ;;; handleBroadcast msg
      | [] => ret tt
      end
  end.

(** The loop fed with the commands [cs], in the order it receives them. *)
Definition Start (cs : list Command) : Thread unit := for_each cs dispatch.

(** ** The hub and the sweeper side by side *)

(** A goroutine of the manager: in its [select] (line 94 for the hub,
    line 264 for the sweeper), or suspended on a request with the rest
    of its handler. *)
Inductive Goroutine :=
| AtSelect
| Waiting (r : Request) (k : Thread unit).

Record System := mkSystem {
  world : World;
  hub : Goroutine;
  sweeper : Goroutine
}.

(** Where a goroutine stands after running as far as it can; a panic
    ends the process and leaves no state. *)
Definition park (o : Outcome unit) : option (World * Goroutine) :=
  match o with
  | Ret _ w => Some (w, AtSelect)
  | Block r w k => Some (w, Waiting r k)
  | Crash => None
  end.

Inductive Event :=
| HubReceivesRegister (s : Session)     (* line 100 meets line 99 *)
| HubReceivesUnregister (s : Session)   (* a read pump, line 323, meets line 102 *)
| HubReceivesFromSweeper (s : Session)  (* line 285 meets line 102 *)
| HubReceivesBroadcast                  (* line 105 *)
| HubResumes                            (* the hub's request is granted *)
| SweeperResumes                        (* the sweeper's request is granted *)
| Tick (now : Z)                        (* line 267 *)
| Environment (w' : World).             (* any other goroutine *)

(** The only receive on [sm.unregister] is the hub's [select]: a send on
    it completes when the hub is there, and never through [grant].
    The other goroutines (connection handlers, read and write pumps,
    callers of the awareness store) change queues, timestamps, the
    awareness store and the pending broadcasts, and never [sm.documents]
    or [sm.mu]. *)
Inductive step : System -> Event -> System -> Prop :=
| step_register s w sw w' h' :
    park (handleRegister s w) = Some (w', h') ->
    step (mkSystem w AtSelect sw) (HubReceivesRegister s) (mkSystem w' h' sw)
| step_unregister s w sw w' h' :
    park (handleUnregister s w) = Some (w', h') ->
    step (mkSystem w AtSelect sw) (HubReceivesUnregister s) (mkSystem w' h' sw)
| step_from_sweeper s k w w1 h' w2 sw' :
    park (handleUnregister s w) = Some (w1, h') ->
    park (k w1) = Some (w2, sw') ->
    step (mkSystem w AtSelect (Waiting (SendUnregister s) k))
         (HubReceivesFromSweeper s) (mkSystem w2 h' sw')
| step_broadcast msg pending w sw w' h' :
    broadcast w = msg :: pending ->
    park (handleBroadcast msg (set_broadcast (fun _ => pending) w)) = Some (w', h') ->
    step (mkSystem w AtSelect sw) HubReceivesBroadcast (mkSystem w' h' sw)
| step_hub_resumes r k w sw w1 w' h' :
    grant r w = Proceed w1 ->
    park (k w1) = Some (w', h') ->
    step (mkSystem w (Waiting r k) sw) HubResumes (mkSystem w' h' sw)
| step_sweeper_resumes r k w h w1 w' sw' :
    grant r w = Proceed w1 ->
    park (k w1) = Some (w', sw') ->
    step (mkSystem w h (Waiting r k)) SweeperResumes (mkSystem w' h sw')
| step_tick now w h w' sw' :
    park (cleanup now w) = Some (w', sw') ->
    step (mkSystem w h AtSelect) (Tick now) (mkSystem w' h sw')
| step_environment w h sw w' :
    documents w' = documents w ->
    mu w' = mu w ->
    step (mkSystem w h sw) (Environment w') (mkSystem w' h sw).

(** Runs, with the events in the order they happen. *)
Inductive steps : System -> list Event -> System -> Prop :=
| steps_nil sys : steps sys [] sys
| steps_cons sys ev sys' evs sys'' :
    step sys ev sys' -> steps sys' evs sys'' -> steps sys (ev :: evs) sys''.

End Loop.

(** ** Vocabulary of the statements *)

(** The pending items of a session's [Send] channel. *)
Definition queue (w : World) (s : Session) : list Payload :=
  match Send w !! s with
  | Some c => buf c
  | None => []
  end.

Definition is_open (w : World) (s : Session) : Prop :=
  exists c, Send w !! s = Some c /\ closed c = false.

Definition has_room (w : World) (s : Session) : Prop :=
  exists c, Send w !! s = Some c /\ closed c = false
            /\ (length (buf c) < SendCapacity)%nat.

Definition saturated (w : World) (s : Session) : Prop :=
  exists c, Send w !! s = Some c /\ closed c = false
            /\ ~ (length (buf c) < SendCapacity)%nat.

(** The room of a broadcast without its excluded sender. *)
Definition recipients (w : World) (msg : BroadcastMessage) : gset Session :=
  room w (bDocumentID msg)
  ∖ match Sender msg with Some s => {[s]} | None => ∅ end.

(** Between [w] and [w'] the payload [p] was appended to the queue of
    [x], once; or the channel of [x] was left as it was. *)
Definition enqueued (p : Payload) (w w' : World) (x : Session) : Prop :=
  exists c, Send w !! x = Some c
            /\ Send w' !! x = Some (mkChan (buf c ++ [p]) false).

Definition untouched (w w' : World) (x : Session) : Prop :=
  Send w' !! x = Send w !! x.

(** Only queues and the log differ between the two worlds. *)
Definition queues_only (w w' : World) : Prop :=
  documents w' = documents w /\ broadcast w' = broadcast w /\ mu w' = mu w
  /\ awareness w' = awareness w /\ amaps w' = amaps w
  /\ yjsRepo w' = yjsRepo w /\ LastActiveAt w' = LastActiveAt w.

(** The entry of the awareness store read the way a caller does:
    through the reference [GetAwareness] returns. *)
Definition awareness_entry (w : World) (documentID : string) (clientID : Z) : option AwarenessState :=
  deref w (GetAwareness documentID w) !! clientID.

(** The two worlds hold the same manager, and the same log lines in
    some order. *)
Definition same_but_log (w1 w2 : World) : Prop :=
  documents w1 = documents w2 /\ broadcast w1 = broadcast w2 /\ mu w1 = mu w2
  /\ awareness w1 = awareness w2 /\ amaps w1 = amaps w2
  /\ yjsRepo w1 = yjsRepo w2 /\ Send w1 = Send w2
  /\ LastActiveAt w1 = LastActiveAt w2
  /\ logs w1 ≡ₚ logs w2.

(** The worlds the handlers leave behind, in closed form. *)
Definition joined (s : Session) (w : World) : World :=
  add_log (LogJoined s (size ({[s]} ∪ room w (DocumentID s))))
    (set_documents <[DocumentID s := {[s]} ∪ room w (DocumentID s)]> (set_mu true w)).

Definition left (s : Session) (sessions : gset Session) (c : Chan) (w : World) : World :=
  set_amaps (fun m => match awareness w !! DocumentID s with
                      | Some aware => alter (delete (ClientID s)) aware m
                      | None => m
                      end)
    (add_log (LogLeft s (size (sessions ∖ {[s]})))
      (set_documents (fun docs =>
          if decide (size (sessions ∖ {[s]}) = 0%nat)
          then delete (DocumentID s) docs
          else <[DocumentID s := sessions ∖ {[s]}]> docs)
        (set_Send <[s := mkChan (buf c) true]> (set_mu true w)))).

Definition announce (m : BroadcastMessage) (w : World) : World :=
  set_mu false (set_broadcast (fun q => q ++ [m]) w).

(** The awareness store is well formed: every reference it holds points
    to a map, and no map is shared by two documents. *)
Definition store_wf (w : World) : Prop :=
  (forall d l, awareness w !! d = Some l -> is_Some (amaps w !! l))
  /\ (forall d1 d2 l, awareness w !! d1 = Some l -> awareness w !! d2 = Some l ->
                      d1 = d2).

(** The world of a run that returned, and of one that has stopped. *)
Definition finished {A} (r : Result A) : bool :=
  match r with Finished _ _ => true | _ => false end.

Definition final {A} (r : Result A) : World :=
  match r with Finished _ w => w | _ => NewSessionManager end.


(** What holds of the world a goroutine leaves behind, whether it
    returned or is waiting. *)
Definition leaves {A} (r : Result A) (P : World -> Prop) : Prop :=
  match r with
  | Finished _ w => P w
  | Parked _ w => P w
  | Panicked => True
  end.

(** The payloads of a list of updates, in order. *)
Definition payloads (updates : list YjsUpdate) : list Payload :=
  map (fun u => Raw (Update u)) updates.

(** The world after the replay loop of [sendInitialState] over
    [updates], for a session whose open channel is [c]: what fits is
    queued, each update that does not is logged. *)
Definition replayed (s : Session) (c : Chan) (updates : list YjsUpdate) (w : World) : World :=
  let free := (SendCapacity - length (buf c))%nat in
  set_logs (fun ls => ls ++ replicate (length updates - free) (LogInitialUpdateFailed s))
    (set_Send <[s := mkChan (buf c ++ take free (payloads updates)) false]> w).

(** Updates in strict order of creation. *)
Definition created_lt (u v : YjsUpdate) : Prop := CreatedAt u < CreatedAt v.

(** A session the sweeper evicts when it runs at time [now]. *)
Definition stale (now : Z) (w : World) (s : Session) : Prop :=
  timeout < now - last_active w s.

(** A goroutine body that, from any world satisfying [P], hands at
    least [n] sessions to [sm.unregister] before it returns, waits for
    nothing else, never panics, keeps [P] whenever it waits and has [Q]
    when it returns. *)
Inductive hands_over (P Q : World -> Prop) : nat -> Outcome unit -> Prop :=
| hands_over_ret w :
    Q w -> hands_over P Q 0 (Ret tt w)
| hands_over_more n s w k :
    P w -> (forall w', P w' -> hands_over P Q n (k w')) ->
    hands_over P Q n (Block (SendUnregister s) w k)
| hands_over_one n s w k :
    P w -> (forall w', P w' -> hands_over P Q n (k w')) ->
    hands_over P Q (S n) (Block (SendUnregister s) w k).

(** The sweeper holds [sm.mu], the registry is [D], and [a] and [b]
    are stale. *)
Definition sweeping (D : gmap string (gset Session)) (now : Z) (a b : Session) (w : World) : Prop :=
  mu w = true /\ documents w = D /\ stale now w a /\ stale now w b.

(** A hub that cannot move while [sm.mu] is held: in its [select],
    waiting for the lock, or waiting to send on [sm.unregister]. *)
Definition hub_needs_lock (g : Goroutine) : Prop :=
  match g with
  | AtSelect => True
  | Waiting AcquireMu _ => True
  | Waiting AcquireRMu _ => True
  | Waiting (SendUnregister _) _ => True
  | Waiting _ _ => False
  end.

(** The environment events of a run leave [a] and [b] without
    activity. *)
Definition no_activity (now : Z) (a b : Session) (evs : list Event) : Prop :=
  forall w', Environment w' ∈ evs -> stale now w' a /\ stale now w' b.

(** ** Statements about the hub *)

(** The statement that a broadcast reaches exactly the room without the
    sender, whatever the state of the queues. *)
Definition broadcast_reaches_exactly {RT : GoRuntime} (w : World) (msg : BroadcastMessage) : Prop :=
  forall w', world_of (run (handleBroadcast msg) w) = Some w' ->
  forall x, (x ∈ recipients w msg -> enqueued (Message msg) w w' x)
            /\ (x ∉ recipients w msg -> untouched w w' x).

(** Every room of the registry has a member, and its members are
    sessions of that document. *)
Definition registry_ok (w : World) : Prop :=
  forall d X, documents w !! d = Some X ->
              X <> ∅ /\ forall x, x ∈ X -> DocumentID x = d.

(** The statement that [GetAwareness] hands out a snapshot: what it
    returned is not changed by a later [UpdateAwareness], and writing
    into what it returned does not change the store. *)
Definition GetAwareness_is_snapshot (w : World) (d : string) : Prop :=
  forall c st,
    let returned := GetAwareness d w in
    deref (UpdateAwareness d c st w) returned = deref w returned
    /\ forall l, returned = Some l ->
         deref (write_through l c st w) (GetAwareness d (write_through l c st w))
         = deref w returned.

(** The entry of document [d] and client [c] is [st], and no member of
    the room of [d] carries the client id [c]. *)
Definition orphan_entry (d : string) (c : Z) (st : AwarenessState) (w : World) : Prop :=
  store_wf w
  /\ awareness_entry w d c = Some st
  /\ forall x, x ∈ room w d -> DocumentID x = d -> ClientID x <> c.

(** Registers of sessions that carry the document and client id. *)
Definition registers_none (d : string) (c : Z) (cs : list Command) : Prop :=
  forall s, Register s ∈ cs -> DocumentID s = d -> ClientID s <> c.

(** The statement that an entry stored for a document and client id
    which no member of the room carries is removed by no run of the
    hub. *)
Definition entry_is_permanent {RT : GoRuntime} (w : World) (d : string) (c : Z)
    (st : AwarenessState) : Prop :=
  (forall x, x ∈ room w d -> DocumentID x = d -> ClientID x <> c) ->
  forall cs, leaves (run (Start cs) (UpdateAwareness d c st w))
                    (fun w' => awareness_entry w' d c = Some st).




(** No room of the list is empty. *)
Definition rooms_ok (rs : list (string * gset Session)) : Prop :=
  forall d X, (d, X) ∈ rs -> X <> ∅.

(** While the sweeper holds the lock and still has a session to hand
    over, or has one to hand over and the hub is busy, nothing moves
    but the environment. *)
Definition sweeper_stuck (D : gmap string (gset Session)) (now : Z) (a b : Session)
    (sys : System) : Prop :=
  sweeping D now a b (world sys)
  /\ hub_needs_lock (hub sys)
  /\ exists s k,
       sweeper sys = Waiting (SendUnregister s) k
       /\ ((forall w', sweeping D now a b w' ->
              hands_over (sweeping D now a b) (fun _ => True) 1 (k w'))
           \/ hub sys <> AtSelect).

(** ** The other queries of [YjsRepositoryImpl] *)

Definition created_ge (u v : YjsUpdate) : Prop := CreatedAt v <= CreatedAt u.

#[global] Instance created_ge_dec : RelDecision created_ge.
Proof. intros u v. unfold created_ge. apply _. Defined.

(** [GetLatestUpdate]: [WHERE document_id = ? ORDER BY created_at DESC]
    and [First].  [gorm.ErrRecordNotFound] is answered with [nil, nil]
    ([inl None]); any other error is returned.  Among updates created
    at the same instant [First] takes the one with the smallest [id];
    the rows carry no [id] here, and the one stored first is taken. *)
Definition GetLatestUpdate (r : YjsRepository) (documentID : string) : option YjsUpdate + unit :=
  if reachable r
  then inl (head (merge_sort created_ge
                    (filter (fun u => yDocumentID u = documentID) (rows r))))
  else inr tt.

(** [DeleteOldUpdates]: the count of the document's rows; nothing to do
    when it is at most [keepCount]; otherwise the row at offset
    [count - keepCount] in the order of creation is the cutoff (no row
    at that offset is [gorm.ErrRecordNotFound], which is returned), and
    the rows of the document created before the cutoff are deleted.
    [count - int64(keepCount)] is computed in 64 bits; the difference is
    exact as long as it does not overflow.  Past that bound the code's
    offset is negative and gorm leaves it out of the query, which the
    definition does not follow. *)
Definition DeleteOldUpdates (r : YjsRepository) (documentID : string) (keepCount : Z) : YjsRepository + unit :=
  if reachable r then
    let mine := filter (fun u => yDocumentID u = documentID) (rows r) in
    let count := Z.of_nat (length mine) in
    if decide (count <= keepCount) then inl r
    else
      let offset := count - keepCount in
      match merge_sort created_le mine !! Z.to_nat offset with
      | Some cutoffUpdate =>
          inl (mkRepo
                 (filter (fun u => ~ (yDocumentID u = documentID
                                      /\ CreatedAt u < CreatedAt cutoffUpdate))
                         (rows r))
                 true)
      | None => inr tt
      end
  else inr tt.

(** The table [yjs_updates] with its primary key: each row beside its
    [id], in insertion order. *)
Record YjsTable := mkTable {
  entries : list (string * YjsUpdate);
  answers : bool
}.

(** The columns of the table that the other queries read. *)
Definition repository (t : YjsTable) : YjsRepository :=
  mkRepo (snd <$> entries t) (answers t).

(** [First(&afterUpdate, "id = ?", afterID)] *)
Definition find_update (t : YjsTable) (id : string) : option YjsUpdate :=
  (fun e => snd (snd e)) <$> list_find (fun e => fst e = id) (entries t).

(** [GetUpdatesAfter]: the reference update is looked up by its id (an
    error when there is none); the answer is the rows of the document
    created after it, in the order of creation. *)
Definition GetUpdatesAfter (t : YjsTable) (documentID : string) (afterID : string) : list YjsUpdate + unit :=
  if answers t then
    match find_update t afterID with
    | Some afterUpdate =>
        inl (merge_sort created_le
               (filter (fun u => yDocumentID u = documentID
                                 /\ CreatedAt afterUpdate < CreatedAt u)
                       (snd <$> entries t)))
    | None => inr tt
    end
  else inr tt.

(** ** [Shutdown] and [ReadPump] *)

Section Stopping.
Context {RT : GoRuntime}.

(** The inner loop of [Shutdown]: [close(session.Send)] for every
    session of a room ([session.Conn.Close()] is the business of the
    network). *)
Definition close_room (entry : string * gset Session) : Thread unit :=
  for_each (range_sessions (snd entry)) close_send.

(** [Shutdown]; [done_closed] tells whether [sm.done] was closed
    before, in which case [close(sm.done)] panics. *)
Definition Shutdown (done_closed : bool) : Thread unit :=
  if done_closed then panic
  else
    lock_mu ;;;
    w <- get ;;
    for_each (range_rooms (documents w)) close_room ;;;
    modify (set_documents (fun _ => ∅)) ;;;
    unlock_mu.

End Stopping.

(** What [ReadPump] gets from its connection: a pong, which runs the
    pong handler, or a message.  [receivedAt] is the [time.Now()] of
    line 331 or 344, [storedAt] the time of creation the database gives
    the row. *)
Inductive Incoming :=
| Pong (receivedAt : Z)
| Frame (message : string) (receivedAt storedAt : Z).

(** The lines [ReadPump] writes with [log.Printf]; they are its result. *)
Inductive PumpLine :=
| LogWebSocketError
| LogStoreFailed.

(** One turn of the loop of [ReadPump]. *)
Definition onIncoming (s : Session) (m : Incoming) : Thread (list PumpLine) :=
  match m with
  | Pong receivedAt =>
      modify (set_LastActiveAt <[s := receivedAt]>) ;;; ret []
  | Frame message receivedAt storedAt =>
      modify (set_LastActiveAt <[s := receivedAt]>) ;;;
      w <- get ;;
      lines <-
        match yjsRepo w with
        | Some repo =>
            match StoreUpdate (DocumentID s) message (ClientID s) storedAt repo with
            | inl repo' => modify (set_yjsRepo (Some repo')) ;;; ret []
            | inr _ => ret [LogStoreFailed]
            end
        | None => ret []
        end ;;
      Broadcast (DocumentID s) (Raw message) (Some s) ;;;
      ret lines
  end.



(** ** More vocabulary *)

(** The environment events of a run never find room in [sm.broadcast]:
    nothing but the hub takes messages out of it. *)
Definition never_drained (evs : list Event) : Prop :=
  forall w', Environment w' ∈ evs
             -> ~ (length (broadcast w') < BroadcastCapacity)%nat.

(** The sessions a list of commands registers, in order. *)
Definition registered (cs : list Command) : list Session :=
  omap (fun c => match c with Register s => Some s | _ => None end) cs.




(** The hub waits to send on [sm.broadcast] with [sm.mu] held and the
    buffer full; the registry is [D]; the sweeper is in its [select] or
    waits for the lock. *)
Definition inbox_full (D : gmap string (gset Session)) (sys : System) : Prop :=
  mu (world sys) = true
  /\ documents (world sys) = D
  /\ ~ (length (broadcast (world sys)) < BroadcastCapacity)%nat
  /\ (exists m k, hub sys = Waiting (SendBroadcast m) k)
  /\ (sweeper sys = AtSelect \/ exists k, sweeper sys = Waiting AcquireMu k).

(** The channels are as the connection handler and the hub leave them:
    the registry is well formed, every member of a room has an open
    channel, and the sessions still to be registered are distinct, have
    an open channel and are in no room. *)
Definition channels_ok (cs : list Command) (w : World) : Prop :=
  registry_ok w
  /\ (forall d x, x ∈ room w d -> is_open w x)
  /\ NoDup (registered cs)
  /\ forall s, s ∈ registered cs -> is_open w s /\ forall d, s ∉ room w d.

(** Between [w] and [w'] the channels of the sessions [xs] were closed,
    their pending items kept, and nothing else was touched but the
    registry and the lock. *)
Definition closed_by (xs : list Session) (w w' : World) : Prop :=
  broadcast w' = broadcast w /\ awareness w' = awareness w
  /\ amaps w' = amaps w /\ yjsRepo w' = yjsRepo w
  /\ LastActiveAt w' = LastActiveAt w /\ logs w' = logs w
  /\ (forall x, x ∈ xs ->
        exists c, Send w !! x = Some c /\ closed c = false
                  /\ Send w' !! x = Some (mkChan (buf c) true))
  /\ (forall x, x ∉ xs -> Send w' !! x = Send w !! x).

(** What [ReadPump] leaves alone: the registry, the lock, the channels
    of the sessions, the awareness store and the log of the manager. *)
Definition pump_frame (w w' : World) : Prop :=
  documents w' = documents w /\ Send w' = Send w /\ mu w' = mu w
  /\ awareness w' = awareness w /\ amaps w' = amaps w /\ logs w' = logs w.


(** ** Scenarios *)

Module Scenario.

Definition alice : Session := mkSession "A" "doc1" "alice" "Alice" 1.
Definition bob : Session := mkSession "B" "doc1" "bob" "Bob" 2.
Definition carol : Session := mkSession "C" "doc1" "carol" "Carol" 3.

Definition presence : AwarenessState :=
  mkAwareness 1 (Some (mkUserInfo "alice" "Alice" "#ff6b6b"))
              (Some (mkCursor 42 15)) [].

(** A new manager, the channels of Alice and Bob made at time 0, and
    Alice's presence stored. *)
Definition before_joining : World :=
  UpdateAwareness "doc1" 1 presence
    (newSession bob 0 (newSession alice 0 NewSessionManager)).

Definition joining : list Command :=
  [Register alice; Register bob; Deliver; Deliver].

(** Alice and Bob have joined "doc1" and the two join announcements
    have been delivered. *)
Definition two_joined : World :=
  final (run (Start (RT := fixed_order) joining) before_joining).

(** Alice has left again. *)
Definition alice_left : World :=
  final (run (handleUnregister alice) two_joined).

(** The same room, with 256 frames pending in Bob's queue. *)
Definition bob_saturated : World :=
  set_Send <[bob := mkChan (replicate 256 (Raw "x")) false]> two_joined.

Definition P1_from_alice : BroadcastMessage :=
  mkBroadcast "doc1" (Raw "P1") (Some alice).

(** The frame of Alice is the next pending broadcast. *)
Definition P1_pending : World :=
  set_broadcast (fun _ => [P1_from_alice]) bob_saturated.

(** An update log that holds P1 and then P2 for "doc1". *)
Definition P1_update : YjsUpdate := mkYjsUpdate "doc1" "P1" 1 100.
Definition P2_update : YjsUpdate := mkYjsUpdate "doc1" "P2" 2 200.
Definition other_update : YjsUpdate := mkYjsUpdate "doc9" "Q" 5 150.
Definition update_log : YjsRepository :=
  mkRepo [P1_update; other_update; P2_update] true.




(** Alice alone in "doc1", her join announcement delivered. *)
Definition alice_joins : list Command := [Register alice; Deliver].

Definition alice_alone : World :=
  final (run (Start (RT := fixed_order) alice_joins) before_joining).

(** Two sessions of "doc2" that carry the same client id. *)
Definition dave : Session := mkSession "D" "doc2" "dave" "Dave" 7.
Definition erin : Session := mkSession "E" "doc2" "erin" "Erin" 7.

Definition presence7 : AwarenessState :=
  mkAwareness 7 (Some (mkUserInfo "erin" "Erin" "#4ecdc4"))
              (Some (mkCursor 1 1)) [].

Definition sharing : World :=
  final (run (Start (RT := fixed_order)
                [Register dave; Register erin; Deliver; Deliver])
             (newSession erin 0 (newSession dave 0 NewSessionManager))).

Definition dave_left : World :=
  final (run (handleUnregister dave)
             (UpdateAwareness "doc2" 7 presence7 sharing)).

(** A log of 300 updates for "big", and Frank who has just registered
    for it. *)
Definition long_log : YjsRepository :=
  mkRepo ((fun i => mkYjsUpdate "big" "u" 9 (Z.of_nat i)) <$> seq 0 300) true.

Definition frank : Session := mkSession "F" "big" "frank" "Frank" 9.



(** Heidi, for whose client id 99 an awareness entry of "doc3" is
    stored before she is registered: a new manager with her channel
    made, and what the hub receives when she connects and leaves. *)
Definition heidi : Session := mkSession "H" "doc3" "heidi" "Heidi" 99.

Definition presence99 : AwarenessState :=
  mkAwareness 99 (Some (mkUserInfo "heidi" "Heidi" "#ffd93d")) None [].

Definition heidi_connecting : World := newSession heidi 0 NewSessionManager.

Definition heidi_comes_and_goes : list Command :=
  [Register heidi; Deliver; Unregister heidi].

(** Six minutes after time 0. *)
Definition six_minutes : Z := 6 * Minute.

End Scenario.

(** ** More scenarios *)

Module Cases.
Import Scenario.

(** The update log of the scenarios with the ids of its rows. *)
Definition update_table : YjsTable :=
  mkTable [("k1", P1_update); ("k2", other_update); ("k3", P2_update)]%string true.

(** Alice and Bob joined at time 0; Bob's connection answered a ping
    five minutes later, Alice's never did. *)
Definition bob_active : World :=
  set_LastActiveAt <[bob := 5 * Minute]> two_joined.

(** Carol's channel has been made, and 256 messages are pending in
    [sm.broadcast]. *)
Definition broadcast_full : World :=
  set_broadcast (fun _ => replicate 256 P1_from_alice)
    (newSession carol 300 two_joined).

(** The room of Alice and Bob with a database that does not answer. *)
Definition database_down : World :=
  SetYjsRepository (mkRepo [P1_update; P2_update] false) two_joined.

(** A manager that knows the log of 300 updates for "big" and holds
    awareness state for that document. *)
Definition big_with_awareness : World :=
  UpdateAwareness "big" 9 presence (SetYjsRepository long_log NewSessionManager).

(** Alice and Bob join, Alice leaves and is unregistered a second time,
    as when the sweeper and her read pump both give her up. *)
Definition coming_and_going : list Command :=
  joining ++ [Unregister alice; Unregister alice; Deliver; Unregister carol].


(** A broadcast for a document nobody has joined. *)
Definition to_nowhere : BroadcastMessage :=
  mkBroadcast "nowhere" (Raw "x") None.

(** One minute after time 0. *)
Definition one_minute : Z := 1 * Minute.

End Cases.

(** * Properties *)

(** ** Running a goroutine alone *)

Lemma runO_bindO {A B} (o : Outcome A) (f : A -> Thread B) :
  runO (bindO o f) =
  match runO o with
  | Finished a w => run (f a) w
  | Parked r w => Parked r w
  | Panicked => Panicked
  end.
Proof.
  induction o as [a w | r w k IH |]; simpl; try reflexivity.
  destruct (grant r w); auto.
Qed.

Lemma run_bind {A B} (m : Thread A) (f : A -> Thread B) w :
  run (bind m f) w =
  match run m w with
  | Finished a w' => run (f a) w'
  | Parked r w' => Parked r w'
  | Panicked => Panicked
  end.
Proof. apply runO_bindO. Qed.

Lemma runO_bind {A B} (m : Thread A) (f : A -> Thread B) w :
  runO (bind m f w) =
  match runO (m w) with
  | Finished a w' => runO (f a w')
  | Parked r w' => Parked r w'
  | Panicked => Panicked
  end.
Proof. apply runO_bindO. Qed.

Lemma run_for_each_cons {X} (x : X) (xs : list X) (body : X -> Thread unit) w :
  run (for_each (x :: xs) body) w =
  match run (body x) w with
  | Finished _ w' => run (for_each xs body) w'
  | Parked r w' => Parked r w'
  | Panicked => Panicked
  end.
Proof. simpl for_each. apply run_bind. Qed.

Lemma run_for_each_nil {X} (body : X -> Thread unit) w :
  run (for_each [] body) w = Finished tt w.
Proof. reflexivity. Qed.

(** Reading a field through the setters, and running the primitive
    operations, without unfolding anything else. *)
Ltac world_simpl :=
  cbn [documents broadcast mu awareness amaps yjsRepo Send LastActiveAt logs
       set_documents set_broadcast set_mu set_awareness set_amaps
       set_yjsRepo set_Send set_LastActiveAt set_logs add_log] in *.

Lemma run_ret {A} (a : A) w : run (ret a) w = Finished a w.
Proof. reflexivity. Qed.

Lemma run_get w : run get w = Finished w w.
Proof. reflexivity. Qed.

Lemma run_modify f w : run (modify f) w = Finished tt (f w).
Proof. reflexivity. Qed.

Lemma run_request (r : Request) (w : World) :
  run (request r) w =
  match grant r w with
  | Proceed w' => Finished tt w'
  | Wait => Parked r w
  | Fault => Panicked
  end.
Proof. unfold run, request. simpl runO. destruct (grant r w); reflexivity. Qed.

Lemma run_close_send (s : Session) (w : World) :
  run (close_send s) w =
  match Send w !! s with
  | Some c =>
      if closed c then Panicked
      else Finished tt (set_Send <[s := mkChan (buf c) true]> w)
  | None => Panicked
  end.
Proof.
  unfold run, close_send. destruct (Send w !! s) as [c|]; [|reflexivity].
  destruct (closed c); reflexivity.
Qed.

Lemma run_try_send (s : Session) (p : Payload) (w : World) :
  run (try_send s p) w =
  match Send w !! s with
  | Some c =>
      if closed c then Panicked
      else if decide (length (buf c) < SendCapacity)%nat
           then Finished true (set_Send <[s := mkChan (buf c ++ [p]) false]> w)
           else Finished false w
  | None => Finished false w
  end.
Proof.
  unfold run, try_send. destruct (Send w !! s) as [c|]; [|reflexivity].
  destruct (closed c); [reflexivity|]. destruct (decide _); reflexivity.
Qed.

Lemma world_ext (w1 w2 : World) :
  documents w1 = documents w2 -> broadcast w1 = broadcast w2 ->
  mu w1 = mu w2 -> awareness w1 = awareness w2 -> amaps w1 = amaps w2 ->
  yjsRepo w1 = yjsRepo w2 -> Send w1 = Send w2 ->
  LastActiveAt w1 = LastActiveAt w2 -> logs w1 = logs w2 ->
  w1 = w2.
Proof. destruct w1, w2. cbn. intros. subst. reflexivity. Qed.

(** Two worlds built by setters are compared field by field. *)
Ltac world_eq :=
  try (apply (f_equal (Finished tt)));
  try (apply (f_equal (Parked _)));
  apply world_ext; world_simpl; try reflexivity.

Ltac run_steps :=
  unfold log, lock_mu, unlock_mu, rlock_mu, send_unregister, send_broadcast,
    send_session;
  repeat (first [ rewrite run_bind | rewrite run_ret | rewrite run_get
                | rewrite run_modify | rewrite run_request ];
          cbv beta iota; cbn [grant]).

Lemma leaves_impl {A} (r : Result A) (P Q : World -> Prop) :
  (forall w, P w -> Q w) -> leaves r P -> leaves r Q.
Proof. destruct r; simpl; auto. Qed.

Lemma leaves_world_of {A} (r : Result A) (P : World -> Prop) :
  leaves r P <-> forall w, world_of r = Some w -> P w.
Proof.
  destruct r; simpl; split; intros H; try intros w' [= <-]; auto; try done.
Qed.

(** ** The map iteration order *)

Section Order.
Context {RT : GoRuntime}.

Lemma elem_of_range_sessions (X : gset Session) (x : Session) :
  x ∈ range_sessions X <-> x ∈ X.
Proof. rewrite (range_sessions_perm X). apply elem_of_elements. Qed.

Lemma NoDup_range_sessions (X : gset Session) : NoDup (range_sessions X).
Proof. rewrite (range_sessions_perm X). apply NoDup_elements. Qed.

Lemma elem_of_range_rooms (m : gmap string (gset Session)) d X :
  (d, X) ∈ range_rooms m <-> m !! d = Some X.
Proof. rewrite (range_rooms_perm m). apply elem_of_map_to_list. Qed.

End Order.

(** ** The handlers in closed form *)

Lemma join_room (s : Session) (docs : gmap string (gset Session)) :
  alter (fun sessions => {[s]} ∪ sessions) (DocumentID s)
    (match docs !! DocumentID s with
     | None => <[DocumentID s := ∅]> docs
     | Some _ => docs
     end)
  = <[DocumentID s := {[s]} ∪ default ∅ (docs !! DocumentID s)]> docs.
Proof.
  apply map_eq. intros d. rewrite lookup_alter, lookup_insert.
  destruct (docs !! DocumentID s) as [X|] eqn:E; case_decide; subst; simpl.
  - by rewrite E.
  - done.
  - by rewrite lookup_insert_eq.
  - by rewrite lookup_insert_ne.
Qed.

Lemma handleRegister_run (s : Session) (w : World) :
  run (handleRegister s) w =
  if mu w then Parked AcquireMu w
  else
    let msg := mkBroadcast (DocumentID s) (joinMsg s) (Some s) in
    if decide (length (broadcast w) < BroadcastCapacity)%nat
    then Finished tt (announce msg (joined s w))
    else Parked (SendBroadcast msg) (joined s w).
Proof.
  unfold handleRegister. run_steps.
  destruct (mu w) eqn:Hmu; [reflexivity|].
  run_steps. unfold joined, announce, room.
  destruct (decide _); run_steps; world_eq;
    rewrite ?join_room, ?lookup_insert_eq; reflexivity.
Qed.

Lemma handleUnregister_run (s : Session) (w : World) :
  run (handleUnregister s) w =
  if mu w then Parked AcquireMu w
  else
    match documents w !! DocumentID s with
    | Some sessions =>
        if decide (s ∈ sessions) then
          match Send w !! s with
          | Some c =>
              if closed c then Panicked
              else
                let msg := mkBroadcast (DocumentID s) (leaveMsg s) None in
                if decide (length (broadcast w) < BroadcastCapacity)%nat
                then Finished tt (announce msg (left s sessions c w))
                else Parked (SendBroadcast msg) (left s sessions c w)
          | None => Panicked
          end
        else Finished tt (set_mu false w)
    | None => Finished tt (set_mu false w)
    end.
Proof.
  unfold handleUnregister. run_steps.
  destruct (mu w) eqn:Hmu; [reflexivity|].
  run_steps. world_simpl.
  destruct (documents w !! DocumentID s) as [sessions|] eqn:Hroom;
    [|run_steps; reflexivity].
  destruct (decide (s ∈ sessions)) as [Hin|Hout]; [|run_steps; reflexivity].
  run_steps. rewrite run_close_send. world_simpl.
  destruct (Send w !! s) as [c|] eqn:Hc; [|reflexivity].
  destruct (closed c) eqn:Hcl; [reflexivity|].
  unfold left, announce.
  destruct (decide (size (sessions ∖ {[s]}) = 0%nat)) as [Hz|Hnz];
    run_steps; world_simpl;
    destruct (awareness w !! DocumentID s); world_simpl;
    destruct (decide (length (broadcast w) < BroadcastCapacity)%nat);
    cbv beta iota; run_steps; world_eq;
    rewrite ?delete_insert_eq; reflexivity.
Qed.

Lemma deliver_run (msg : BroadcastMessage) (x : Session) (w : World) :
  run (deliver msg x) w =
  if decide (Sender msg = Some x) then Finished tt w
  else
    match Send w !! x with
    | Some c =>
        if closed c then Panicked
        else if decide (length (buf c) < SendCapacity)%nat
             then Finished tt (set_Send <[x := mkChan (buf c ++ [Message msg]) false]> w)
             else Parked (SendUnregister x) (add_log (LogBufferFull x) w)
    | None => Parked (SendUnregister x) (add_log (LogBufferFull x) w)
    end.
Proof.
  unfold deliver. destruct (decide (Sender msg = Some x)); [reflexivity|].
  rewrite run_bind, run_try_send.
  destruct (Send w !! x) as [c|]; [|run_steps; reflexivity].
  destruct (closed c); [reflexivity|].
  destruct (decide _); run_steps; reflexivity.
Qed.

Section Broadcast.
Context {RT : GoRuntime}.

Lemma handleBroadcast_run (msg : BroadcastMessage) (w : World) :
  run (handleBroadcast msg) w =
  if mu w then Parked AcquireRMu w
  else run (for_each (range_sessions (room w (bDocumentID msg))) (deliver msg)) w.
Proof.
  unfold handleBroadcast. run_steps.
  destruct (mu w); [reflexivity|]. run_steps. reflexivity.
Qed.

End Broadcast.

Lemma queues_only_refl w : queues_only w w.
Proof. repeat split. Qed.

Lemma queues_only_trans w1 w2 w3 :
  queues_only w1 w2 -> queues_only w2 w3 -> queues_only w1 w3.
Proof.
  unfold queues_only. intros (?&?&?&?&?&?&?) (?&?&?&?&?&?&?).
  repeat split; congruence.
Qed.

Lemma enqueued_not_untouched p w w' x :
  enqueued p w w' x -> untouched w w' x -> False.
Proof.
  intros (c&Hc&Hc') Hu. unfold untouched in Hu. rewrite Hu, Hc in Hc'.
  injection Hc' as Hbuf. apply (f_equal (fun c => length (buf c))) in Hbuf.
  cbn [buf] in Hbuf. rewrite length_app in Hbuf. cbn [length] in Hbuf. lia.
Qed.

Lemma saturated_no_room w x : saturated w x -> has_room w x -> False.
Proof. intros (c&Hc&_&Hfull) (c'&Hc'&_&Hlt). congruence. Qed.

(** The loop of [handleBroadcast] touches nothing but the queues of the
    sessions it visits, the sender apart, and gives each of those it
    serves the payload once; it serves only sessions with room. *)
Lemma deliver_loop_sound (msg : BroadcastMessage) (todo : list Session) :
  NoDup todo ->
  forall w,
  leaves (run (for_each todo (deliver msg)) w) (fun w' =>
    queues_only w w' /\
    forall x, untouched w w' x \/
              (x ∈ todo /\ Sender msg <> Some x /\ has_room w x
               /\ enqueued (Message msg) w w' x)).
Proof.
  induction 1 as [|h rest Hh Hnd IH]; intros w.
  - simpl. split; [apply queues_only_refl|]. intros x. left. reflexivity.
  - rewrite run_for_each_cons, deliver_run.
    destruct (decide (Sender msg = Some h)) as [Hs|Hs].
    { eapply leaves_impl; [|apply IH]. simpl. intros w' [Hq Hall]. split; [done|].
      intros x. destruct (Hall x) as [?|(?&?&?&?)]; [by left|right].
      split; [by apply list_elem_of_further|done]. }
    destruct (Send w !! h) as [c|] eqn:Hc.
    2:{ simpl. split; [repeat split|]. intros x. left. reflexivity. }
    destruct (closed c) eqn:Hcl; [done|].
    destruct (decide _) as [Hlt|Hge].
    2:{ simpl. split; [repeat split|]. intros x. left. reflexivity. }
    eapply leaves_impl; [|apply IH]. simpl. intros w' [Hq Hall]. split.
    { eapply queues_only_trans; [|exact Hq]. repeat split. }
    intros x. destruct (decide (x = h)) as [->|Hne].
    + right. split; [apply list_elem_of_here|]. split; [done|].
      split; [by exists c|].
      exists c. split; [done|].
      destruct (Hall h) as [Hu|(Hin&_)]; [|done].
      unfold untouched in Hu. rewrite Hu. cbn. by rewrite lookup_insert_eq.
    + destruct (Hall x) as [Hu|(Hin&Hsx&(c0&Hc0&Hr0)&(c'&Hc'&Hc''))].
      * left. unfold untouched in *. rewrite Hu. cbn. by rewrite lookup_insert_ne.
      * cbn in Hc0, Hc'. rewrite lookup_insert_ne in Hc0, Hc' by done.
        right. split; [by apply list_elem_of_further|]. split; [done|].
        split; [by exists c0|]. by exists c'.
Qed.

(** When every session to visit has room, the loop returns and all of
    them have the payload. *)
Lemma deliver_loop_complete (msg : BroadcastMessage) (todo : list Session) :
  NoDup todo ->
  forall w,
  (forall x, x ∈ todo -> Sender msg <> Some x -> has_room w x) ->
  exists w', run (for_each todo (deliver msg)) w = Finished tt w'
             /\ forall x, x ∈ todo -> Sender msg <> Some x ->
                          enqueued (Message msg) w w' x.
Proof.
  induction 1 as [|h rest Hh Hnd IH]; intros w Hroom.
  - exists w. split; [done|]. intros x Hin. by apply elem_of_nil in Hin.
  - rewrite run_for_each_cons, deliver_run.
    destruct (decide (Sender msg = Some h)) as [Hs|Hs].
    { destruct (IH w) as (w'&Hrun&Henq).
      { intros x Hin. apply Hroom. by apply list_elem_of_further. }
      exists w'. split; [done|]. intros x Hin Hsx.
      apply elem_of_cons in Hin as [->|Hin]; [congruence|]. by apply Henq. }
    destruct (Hroom h) as (c&Hc&Hcl&Hlt); [apply list_elem_of_here|done|].
    rewrite Hc, Hcl. destruct (decide _) as [_|]; [|done].
    set (w1 := set_Send <[h := mkChan (buf c ++ [Message msg]) false]> w).
    destruct (IH w1) as (w'&Hrun&Henq).
    { intros x Hin Hsx.
      destruct (Hroom x) as (c'&Hc'&Hcl'&Hlt'); [by apply list_elem_of_further|done|].
      exists c'. split; [|done]. cbn. rewrite lookup_insert_ne; [done|].
      intros ->. done. }
    exists w'. split; [done|]. intros x Hin Hsx.
    apply elem_of_cons in Hin as [->|Hin].
    + pose proof (deliver_loop_sound msg rest Hnd w1) as Hsound.
      rewrite Hrun in Hsound. simpl in Hsound. destruct Hsound as [_ Hall].
      destruct (Hall h) as [Hu|(Hbad&_)]; [|done].
      exists c. split; [done|]. unfold untouched in Hu. rewrite Hu.
      cbn. by rewrite lookup_insert_eq.
    + destruct (Henq x Hin Hsx) as (c'&Hc'&Hc'').
      exists c'. split; [|done]. cbn in Hc'. rewrite lookup_insert_ne in Hc'; [done|].
      intros ->. done.
Qed.

(** When a session to visit has a full queue, the loop comes to wait on
    [sm.unregister] for such a session. *)
Lemma deliver_loop_parks (msg : BroadcastMessage) (todo : list Session) :
  NoDup todo ->
  forall w x,
  x ∈ todo -> Sender msg <> Some x -> saturated w x ->
  (forall y, y ∈ todo -> Sender msg <> Some y -> is_open w y) ->
  exists y w', run (for_each todo (deliver msg)) w = Parked (SendUnregister y) w'
               /\ y ∈ todo /\ Sender msg <> Some y /\ saturated w y.
Proof.
  induction 1 as [|h rest Hh Hnd IH]; intros w x Hin Hsx Hsat Hopen.
  - set_solver.
  - rewrite run_for_each_cons, deliver_run.
    destruct (decide (Sender msg = Some h)) as [Hs|Hs].
    { destruct (IH w x) as (y&w'&?&?&?&?); [set_solver|done|done| |].
      { intros y Hy. apply Hopen. set_solver. }
      exists y, w'. repeat split; [done|set_solver|done|done]. }
    destruct (Hopen h) as (c&Hc&Hcl); [set_solver|done|].
    rewrite Hc, Hcl. destruct (decide _) as [Hlt|Hge].
    2:{ exists h. eexists. repeat split; [set_solver|done|].
        exists c. done. }
    assert (x <> h) as Hxh.
    { intros ->. destruct Hsat as (c'&Hc'&_&Hfull). congruence. }
    destruct (IH (set_Send <[h := mkChan (buf c ++ [Message msg]) false]> w) x)
      as (y&w'&Hrun&Hy&Hsy&Hsaty); [set_solver|done| | |].
    { destruct Hsat as (c'&?&?&?). exists c'. cbn. by rewrite lookup_insert_ne. }
    { intros y Hy Hsy. destruct (Hopen y) as (c'&?&?); [set_solver|done|].
      exists c'. cbn. rewrite lookup_insert_ne; [done|]. intros ->. done. }
    exists y, w'. repeat split; [done|set_solver|done|].
    destruct Hsaty as (c'&Hc'&?&?). exists c'.
    cbn in Hc'. rewrite lookup_insert_ne in Hc'; [done|]. intros ->. done.
Qed.

(** ** Broadcast: who gets the payload *)

Section Delivery.
Context {RT : GoRuntime}.

Lemma elem_of_recipients w msg x :
  x ∈ recipients w msg <->
  x ∈ range_sessions (room w (bDocumentID msg)) /\ Sender msg <> Some x.
Proof.
  unfold recipients. rewrite elem_of_range_sessions.
  destruct (Sender msg) as [s|]; [|set_solver].
  rewrite elem_of_difference, elem_of_singleton.
  split; intros [? ?]; split; try done; congruence.
Qed.

(** A broadcast leaves the queue of every session that is not a
    recipient as it was. *)
Lemma handleBroadcast_spares (w : World) (msg : BroadcastMessage) :
  mu w = false ->
  leaves (run (handleBroadcast msg) w) (fun w' =>
    forall x, x ∉ recipients w msg -> untouched w w' x).
Proof.
  intros Hmu. rewrite handleBroadcast_run, Hmu.
  pose proof (deliver_loop_sound msg _
                (NoDup_range_sessions (room w (bDocumentID msg))) w) as Hsound.
  eapply leaves_impl; [|exact Hsound]. cbv beta. intros w' [_ Hall] x Hout.
  destruct (Hall x) as [Hu|(Hin&Hs&_)]; [done|].
  exfalso. apply Hout, elem_of_recipients. done.
Qed.

(** When every recipient has room in its queue, the broadcast returns
    and each of them has the payload appended. *)
Lemma handleBroadcast_reaches (w : World) (msg : BroadcastMessage) :
  mu w = false ->
  (forall x, x ∈ recipients w msg -> has_room w x) ->
  exists w', run (handleBroadcast msg) w = Finished tt w'
             /\ forall x, x ∈ recipients w msg ->
                          enqueued (Message msg) w w' x.
Proof.
  intros Hmu Hroom. rewrite handleBroadcast_run, Hmu.
  destruct (deliver_loop_complete msg _
              (NoDup_range_sessions (room w (bDocumentID msg))) w)
    as (w'&Hrun&Henq).
  { intros x Hin Hs. apply Hroom, elem_of_recipients. done. }
  exists w'. split; [done|]. intros x Hin.
  apply elem_of_recipients in Hin as [Hin Hs]. by apply Henq.
Qed.

(** C1, as the code has it: a broadcast never touches the queue of the
    excluded sender or of a session outside the room; and when no
    session of the room other than the sender has a full queue, it
    returns and has appended the payload, once, to the queue of each of
    them. *)
Theorem broadcast_delivery (w : World) (msg : BroadcastMessage) :
  mu w = false ->
  leaves (run (handleBroadcast msg) w) (fun w' =>
    forall x, x ∉ recipients w msg -> untouched w w' x)
  /\ ((forall x, x ∈ recipients w msg -> has_room w x) ->
      exists w', run (handleBroadcast msg) w = Finished tt w'
                 /\ forall x, x ∈ recipients w msg ->
                              enqueued (Message msg) w w' x).
Proof.
  intros Hmu. split.
  - by apply handleBroadcast_spares.
  - by apply handleBroadcast_reaches.
Qed.

(** A saturated recipient is enough to refute the statement. *)
Lemma saturated_recipient_refutes (w : World) (msg : BroadcastMessage) (x : Session) :
  mu w = false ->
  x ∈ recipients w msg ->
  saturated w x ->
  (forall y, y ∈ recipients w msg -> is_open w y) ->
  ~ broadcast_reaches_exactly w msg.
Proof.
  intros Hmu Hx Hsat Hopen Hclaim. unfold broadcast_reaches_exactly in Hclaim.
  rewrite handleBroadcast_run, Hmu in Hclaim.
  pose proof (deliver_loop_sound msg _
    (NoDup_range_sessions (room w (bDocumentID msg))) w) as Hsound.
  destruct (deliver_loop_parks msg _
    (NoDup_range_sessions (room w (bDocumentID msg))) w x)
    as (y&w'&Hrun&_).
  { by apply elem_of_recipients in Hx as [? _]. }
  { by apply elem_of_recipients in Hx as [_ ?]. }
  { exact Hsat. }
  { intros z Hz Hsz. apply Hopen, elem_of_recipients. done. }
  rewrite Hrun in Hclaim, Hsound. cbn [leaves] in Hsound.
  destruct Hsound as [_ Hall].
  destruct (Hclaim w' eq_refl x) as [Henq _]. specialize (Henq Hx).
  destruct (Hall x) as [Hu|(_&_&Hroom&_)].
  - exact (enqueued_not_untouched _ _ _ _ Henq Hu).
  - exact (saturated_no_room _ _ Hsat Hroom).
Qed.

End Delivery.

Lemma finished_final (r : Result unit) :
  finished r = true -> r = Finished tt (final r).
Proof. destruct r as [[] w| |]; simpl; done. Qed.

Import Scenario.

Lemma two_joined_run :
  run (Start (RT := fixed_order) joining) before_joining = Finished tt two_joined.
Proof. apply finished_final. vm_compute. reflexivity. Qed.

Lemma alice_left_run :
  run (handleUnregister alice) two_joined = Finished tt alice_left.
Proof. apply finished_final. vm_compute. reflexivity. Qed.

Lemma two_joined_mu : mu two_joined = false.
Proof. vm_compute. reflexivity. Qed.

Lemma two_joined_recipients : recipients two_joined P1_from_alice = {[bob]}.
Proof. apply (bool_decide_unpack _). vm_compute. exact I. Qed.

Lemma bob_has_room : has_room two_joined bob.
Proof.
  eexists. split; [vm_compute; reflexivity|]. split; [reflexivity|].
  vm_compute. lia.
Qed.

Lemma bob_is_saturated : saturated bob_saturated bob.
Proof.
  exists (mkChan (replicate 256 (Raw "x")) false).
  split; [vm_compute; reflexivity|]. split; [reflexivity|]. vm_compute. lia.
Qed.

Lemma bob_saturated_recipients : recipients bob_saturated P1_from_alice = {[bob]}.
Proof. apply (bool_decide_unpack _). vm_compute. exact I. Qed.

(** C1, witness: the frame Alice sends reaches Bob. *)
Lemma broadcast_delivery_witness :
  mu two_joined = false
  /\ exists w', run (handleBroadcast (RT := fixed_order) P1_from_alice) two_joined
               = Finished tt w'
               /\ forall x, x ∈ recipients two_joined P1_from_alice ->
                            enqueued (Raw "P1") two_joined w' x.
Proof.
  split; [exact two_joined_mu|].
  apply (broadcast_delivery (RT := fixed_order) two_joined P1_from_alice two_joined_mu).
  intros x. rewrite two_joined_recipients, elem_of_singleton. intros ->.
  exact bob_has_room.
Defined.

(** C1 as stated fails when a member's queue is full: Bob is in the
    room, is not the sender, and is not given the payload. *)
Lemma broadcast_skips_full_queue :
  ~ broadcast_reaches_exactly (RT := fixed_order) bob_saturated P1_from_alice.
Proof.
  apply (saturated_recipient_refutes (RT := fixed_order) _ _ bob).
  - vm_compute. reflexivity.
  - rewrite bob_saturated_recipients. apply elem_of_singleton. reflexivity.
  - exact bob_is_saturated.
  - intros y. rewrite bob_saturated_recipients, elem_of_singleton. intros ->.
    destruct bob_is_saturated as (c&Hc&Hcl&_). exists c. split; assumption.
Qed.

(** ** The hub among the other goroutines *)

Section Hub.
Context {RT : GoRuntime}.

(** What a goroutine does when it runs alone is a run of the system in
    which only its requests are granted. *)
Lemma hub_runs_alone (o : Outcome unit) :
  forall w0 g0 sw r w',
  park o = Some (w0, g0) ->
  runO o = Parked r w' ->
  exists n k, steps (mkSystem w0 g0 sw) (replicate n HubResumes)
                    (mkSystem w' (Waiting r k) sw).
Proof.
  induction o as [a w | q w k IH |]; intros w0 g0 sw r w' Hpark Hrun;
    simpl in *; try discriminate.
  injection Hpark as <- <-.
  destruct (grant q w) as [w1| |] eqn:Hgrant; try discriminate.
  - destruct (park (k w1)) as [[w2 g2]|] eqn:Hpark1.
    + destruct (IH w1 w2 g2 sw r w' Hpark1 Hrun) as (n&k'&Hsteps).
      exists (S n), k'. simpl. eapply steps_cons; [|exact Hsteps].
      eapply step_hub_resumes; eassumption.
    + destruct (k w1); simpl in *; discriminate.
  - injection Hrun as <- <-. exists 0%nat, k. constructor.
Qed.

(** Nothing receives from [sm.unregister] but the hub's own [select]:
    a hub that waits to send on it waits for ever. *)
Lemma hub_never_resumes (y : Session) (k : Thread unit) sys evs sys' :
  steps sys evs sys' ->
  hub sys = Waiting (SendUnregister y) k ->
  hub sys' = Waiting (SendUnregister y) k.
Proof.
  induction 1 as [|sys ev sys1 evs sys2 Hstep _ IH]; [done|].
  intros Hhub. apply IH. clear IH.
  destruct Hstep; simpl in *; try done.
  injection Hhub as -> ->. simpl in *. discriminate.
Qed.

(** C2, on the code: when a recipient's queue is full the hub, having
    taken the broadcast, comes to wait on [sm.unregister <- y] for a
    saturated member [y], and stays there in every further run. *)
Theorem full_queue_parks_hub (w : World) (msg : BroadcastMessage)
    (pending : list BroadcastMessage) (x : Session) (sw : Goroutine) :
  mu w = false ->
  broadcast w = msg :: pending ->
  x ∈ recipients w msg ->
  saturated w x ->
  (forall y, y ∈ recipients w msg -> is_open w y) ->
  exists y n k w',
    y ∈ recipients w msg /\ saturated w y
    /\ steps (mkSystem w AtSelect sw)
             (HubReceivesBroadcast :: replicate n HubResumes)
             (mkSystem w' (Waiting (SendUnregister y) k) sw)
    /\ forall evs sys',
         steps (mkSystem w' (Waiting (SendUnregister y) k) sw) evs sys' ->
         hub sys' = Waiting (SendUnregister y) k.
Proof.
  intros Hmu Hpending Hx Hsat Hopen.
  set (w0 := set_broadcast (fun _ => pending) w).
  destruct (deliver_loop_parks msg _
              (NoDup_range_sessions (room w0 (bDocumentID msg))) w0 x)
    as (y&w'&Hrun&Hy&Hsy&Hsaty).
  { apply elem_of_recipients in Hx as [? ?]. done. }
  { apply elem_of_recipients in Hx as [? ?]. done. }
  { exact Hsat. }
  { intros y Hy Hsy. apply Hopen, elem_of_recipients. done. }
  assert (Hrun0 : runO (handleBroadcast msg w0) = Parked (SendUnregister y) w').
  { change (run (handleBroadcast msg) w0 = Parked (SendUnregister y) w').
    rewrite handleBroadcast_run. subst w0. cbn. rewrite Hmu. exact Hrun. }
  destruct (park (handleBroadcast msg w0)) as [[w1 g1]|] eqn:Hpark.
  2:{ destruct (handleBroadcast msg w0); simpl in *; discriminate. }
  destruct (hub_runs_alone _ w1 g1 sw _ _ Hpark Hrun0) as (n&k&Hsteps).
  exists y, n, k, w'. split; [by apply elem_of_recipients|]. split; [exact Hsaty|].
  split.
  - eapply steps_cons; [|exact Hsteps]. eapply step_broadcast; eassumption.
  - intros evs sys' Hs. by eapply hub_never_resumes.
Qed.

End Hub.

(** C2, witness: Bob's queue is full when Alice's frame is handled. *)
Lemma full_queue_parks_hub_witness :
  exists y n k w',
    y ∈ recipients P1_pending P1_from_alice /\ saturated P1_pending y
    /\ steps (RT := fixed_order) (mkSystem P1_pending AtSelect AtSelect)
             (HubReceivesBroadcast :: replicate n HubResumes)
             (mkSystem w' (Waiting (SendUnregister y) k) AtSelect)
    /\ forall evs sys',
         steps (RT := fixed_order)
               (mkSystem w' (Waiting (SendUnregister y) k) AtSelect) evs sys' ->
         hub sys' = Waiting (SendUnregister y) k.
Proof.
  assert (Hsat : saturated P1_pending bob).
  { exists (mkChan (replicate 256 (Raw "x")) false).
    split; [vm_compute; reflexivity|]. split; [reflexivity|]. vm_compute. lia. }
  assert (Hrec : recipients P1_pending P1_from_alice = {[bob]})
    by (apply (bool_decide_unpack _); vm_compute; exact I).
  apply (full_queue_parks_hub (RT := fixed_order) P1_pending P1_from_alice [] bob AtSelect).
  - vm_compute. reflexivity.
  - reflexivity.
  - rewrite Hrec. apply elem_of_singleton. reflexivity.
  - exact Hsat.
  - intros y. rewrite Hrec, elem_of_singleton. intros ->.
    destruct Hsat as (c&Hc&Hcl&_). exists c. split; assumption.
Defined.

(** ** Unregister *)

(** C3: unregistering a session a second time changes nothing: the two
    calls in a row leave the hub exactly as the first one does, with
    the same registry, awareness store, queues, pending announcements
    and log. *)
Theorem unregister_idempotent (s : Session) (w : World) :
  and_then (run (handleUnregister s) w) (handleUnregister s)
  = run (handleUnregister s) w.
Proof.
  rewrite (handleUnregister_run s w).
  destruct (mu w) eqn:Hmu; [reflexivity|].
  destruct (documents w !! DocumentID s) as [sessions|] eqn:Hroom.
  2:{ unfold and_then. rewrite handleUnregister_run. world_simpl.
      rewrite Hroom. reflexivity. }
  destruct (decide (s ∈ sessions)) as [Hin|Hout].
  2:{ unfold and_then. rewrite handleUnregister_run. world_simpl.
      rewrite Hroom. destruct (decide (s ∈ sessions)); [done|reflexivity]. }
  destruct (Send w !! s) as [c|]; [|reflexivity].
  destruct (closed c); [reflexivity|].
  cbv zeta. destruct (decide _); [|reflexivity].
  unfold and_then. rewrite handleUnregister_run.
  unfold announce, left. world_simpl.
  destruct (decide (size (sessions ∖ {[s]}) = 0%nat)) as [Hz|Hnz].
  - rewrite lookup_delete_eq. reflexivity.
  - rewrite lookup_insert_eq.
    destruct (decide (s ∈ sessions ∖ {[s]})) as [Hbad|_]; [|reflexivity].
    apply elem_of_difference in Hbad as [_ Hbad].
    exfalso. apply Hbad. apply elem_of_singleton. reflexivity.
Qed.

(** ** The registry under the event loop *)

Lemma registry_ok_documents w w' :
  documents w' = documents w -> registry_ok w -> registry_ok w'.
Proof. unfold registry_ok. intros ->. done. Qed.

Lemma registry_ok_room w d x :
  registry_ok w -> x ∈ room w d -> DocumentID x = d.
Proof.
  unfold room. intros Hok Hin.
  destruct (documents w !! d) as [X|] eqn:E; simpl in Hin.
  - by apply (Hok d X E).
  - by apply not_elem_of_empty in Hin.
Qed.

Lemma registry_ok_iff w d :
  registry_ok w -> is_Some (documents w !! d) <-> room w d <> ∅.
Proof.
  unfold room. intros Hok. split.
  - intros [X HX]. rewrite HX. simpl. by apply (Hok d X HX).
  - destruct (documents w !! d); [eauto|done].
Qed.

Lemma joined_documents s w :
  documents (joined s w)
  = <[DocumentID s := {[s]} ∪ room w (DocumentID s)]> (documents w).
Proof. reflexivity. Qed.

Lemma left_documents s sessions c w :
  documents (left s sessions c w)
  = if decide (size (sessions ∖ {[s]}) = 0%nat)
    then delete (DocumentID s) (documents w)
    else <[DocumentID s := sessions ∖ {[s]}]> (documents w).
Proof. reflexivity. Qed.

Lemma registry_ok_joined s w : registry_ok w -> registry_ok (joined s w).
Proof.
  intros Hok d X. rewrite joined_documents, lookup_insert.
  case_decide as Hd; [|apply Hok].
  intros [= <-]. subst d. split.
  - intros Hempty. apply (not_elem_of_empty (C := gset Session) s).
    rewrite <- Hempty. apply elem_of_union_l, elem_of_singleton. reflexivity.
  - intros x [->%elem_of_singleton|Hx]%elem_of_union; [done|].
    by apply (registry_ok_room w).
Qed.

Lemma registry_ok_left s sessions c w :
  documents w !! DocumentID s = Some sessions ->
  registry_ok w -> registry_ok (left s sessions c w).
Proof.
  intros Hroom Hok d X. rewrite left_documents.
  destruct (decide (size (sessions ∖ {[s]}) = 0%nat)) as [Hz|Hnz].
  - rewrite lookup_delete. case_decide; [done|apply Hok].
  - rewrite lookup_insert. case_decide as Hd; [|apply Hok].
    intros [= <-]. subst d. split.
    + intros Hempty. apply Hnz. rewrite Hempty. apply size_empty.
    + intros x [Hx _]%elem_of_difference. by apply (Hok _ _ Hroom).
Qed.

Section Registry.
Context {RT : GoRuntime}.

Lemma handleBroadcast_frame (msg : BroadcastMessage) (w : World) :
  leaves (run (handleBroadcast msg) w) (queues_only w).
Proof.
  rewrite handleBroadcast_run. destruct (mu w); [apply queues_only_refl|].
  eapply leaves_impl; [|apply deliver_loop_sound, NoDup_range_sessions].
  cbv beta. intros w' [Hq _]. exact Hq.
Qed.

Lemma dispatch_Deliver_run (w : World) :
  run (dispatch Deliver) w =
  match broadcast w with
  | msg :: pending => run (handleBroadcast msg) (set_broadcast (fun _ => pending) w)
  | [] => Finished tt w
  end.
Proof.
  unfold dispatch. run_steps. destruct (broadcast w); run_steps; reflexivity.
Qed.

Lemma dispatch_registry_ok (c : Command) (w : World) :
  registry_ok w -> leaves (run (dispatch c) w) registry_ok.
Proof.
  intros Hok. destruct c as [s|s|].
  - cbn [dispatch]. rewrite handleRegister_run.
    destruct (mu w); [exact Hok|]. cbv zeta.
    destruct (decide _); cbn [leaves].
    + eapply registry_ok_documents; [|apply (registry_ok_joined s w Hok)].
      reflexivity.
    + by apply registry_ok_joined.
  - cbn [dispatch]. rewrite handleUnregister_run.
    destruct (mu w); [exact Hok|].
    destruct (documents w !! DocumentID s) as [sessions|] eqn:Hroom; [|exact Hok].
    destruct (decide _); [|exact Hok].
    destruct (Send w !! s) as [c|]; [|done].
    destruct (closed c); [done|]. cbv zeta.
    destruct (decide _); cbn [leaves].
    + eapply registry_ok_documents; [|apply (registry_ok_left s sessions c w Hroom Hok)].
      reflexivity.
    + by apply registry_ok_left.
  - rewrite dispatch_Deliver_run. destruct (broadcast w) as [|msg pending]; [exact Hok|].
    eapply leaves_impl; [|apply handleBroadcast_frame].
    intros w' (Hdocs&_). eapply registry_ok_documents; [exact Hdocs|]. exact Hok.
Qed.

(** The registry invariant holds whenever the loop stands still, be it
    in its [select] or waiting inside a handler. *)
Lemma Start_registry_ok (cs : list Command) :
  forall w, registry_ok w -> leaves (run (Start cs) w) registry_ok.
Proof.
  unfold Start. induction cs as [|c cs IH]; intros w Hok; [exact Hok|].
  rewrite run_for_each_cons.
  pose proof (dispatch_registry_ok c w Hok) as Hc.
  destruct (run (dispatch c) w) as [[] w'|r w'|]; cbn [leaves] in *; auto.
Qed.

Lemma registry_ok_empty w : documents w = ∅ -> registry_ok w.
Proof. intros Hdocs d X. rewrite Hdocs, lookup_empty. done. Qed.

(** With the lock free, the channel of the session open and room for
    the announcement, the unregister of a member returns. *)
Lemma handleUnregister_returns (s : Session) (w : World) :
  s ∈ room w (DocumentID s) ->
  mu w = false -> is_open w s ->
  (length (broadcast w) < BroadcastCapacity)%nat ->
  exists w', run (handleUnregister s) w = Finished tt w'.
Proof.
  intros Hin Hmu (c&Hc&Hcl) Hcap. rewrite handleUnregister_run, Hmu.
  unfold room in Hin.
  destruct (documents w !! DocumentID s) as [sessions|];
    [|by apply not_elem_of_empty in Hin].
  cbn [default from_option id] in Hin.
  destruct (decide _) as [_|Hout]; [|done].
  rewrite Hc, Hcl. cbv zeta.
  destruct (decide _) as [_|Hfull]; [|done].
  eexists. reflexivity.
Qed.

(** With the lock free and room for the announcement, a register
    returns and has put the session into the room of its document. *)
Lemma handleRegister_returns (s : Session) (w : World) :
  mu w = false ->
  (length (broadcast w) < BroadcastCapacity)%nat ->
  exists w',
    run (handleRegister s) w = Finished tt w'
    /\ documents w' = <[DocumentID s := {[s]} ∪ room w (DocumentID s)]> (documents w).
Proof.
  intros Hmu Hcap. rewrite handleRegister_run, Hmu. cbv zeta.
  rewrite decide_True by exact Hcap.
  eexists. split; [reflexivity|]. unfold announce. world_simpl.
  apply joined_documents.
Qed.

(** What an unregister that returns has done to the registry. *)
Lemma handleUnregister_documents (s : Session) (w w' : World) (sessions : gset Session) :
  documents w !! DocumentID s = Some sessions ->
  s ∈ sessions ->
  run (handleUnregister s) w = Finished tt w' ->
  documents w'
  = if decide (size (sessions ∖ {[s]}) = 0%nat)
    then delete (DocumentID s) (documents w)
    else <[DocumentID s := sessions ∖ {[s]}]> (documents w).
Proof.
  intros Hroom Hin. rewrite handleUnregister_run.
  destruct (mu w); [done|]. rewrite Hroom.
  destruct (decide _); [|done].
  destruct (Send w !! s) as [c|]; [|done].
  destruct (closed c); [done|]. cbv zeta. destruct (decide _); [|done].
  intros [= <-]. unfold announce. world_simpl. apply left_documents.
Qed.

(** C5: wherever the hub stands after a sequence of commands, starting
    from the empty registry, a document is a key of the registry exactly
    when its room has a member.  From every state in which the hub is
    back in its [select], with the lock free and room for the
    announcement: a register returns, has put the session into the room
    of its document and made it a key, the other rooms being as before;
    and the unregister of a member whose channel is open returns, has
    taken the session out, and has deleted the key exactly when the
    session was the only member. *)
Theorem room_exists_iff_nonempty (w0 : World) (cs : list Command) :
  documents w0 = ∅ ->
  leaves (run (Start cs) w0) (fun w =>
    forall d, is_Some (documents w !! d) <-> room w d <> ∅)
  /\ forall w, run (Start cs) w0 = Finished tt w ->
       mu w = false ->
       (length (broadcast w) < BroadcastCapacity)%nat ->
       (forall s,
          exists w',
            run (handleRegister s) w = Finished tt w'
            /\ room w' (DocumentID s) = {[s]} ∪ room w (DocumentID s)
            /\ is_Some (documents w' !! DocumentID s)
            /\ forall d, d <> DocumentID s -> documents w' !! d = documents w !! d)
       /\ (forall s,
            s ∈ room w (DocumentID s) -> is_open w s ->
            exists w',
              run (handleUnregister s) w = Finished tt w'
              /\ room w' (DocumentID s) = room w (DocumentID s) ∖ {[s]}
              /\ (documents w' !! DocumentID s = None
                  <-> room w (DocumentID s) = {[s]})
              /\ forall d, d <> DocumentID s -> documents w' !! d = documents w !! d).
Proof.
  intros Hempty. split.
  { eapply leaves_impl; [|apply Start_registry_ok, registry_ok_empty, Hempty].
    cbv beta. intros w Hok d. by apply registry_ok_iff. }
  intros w Hrun Hmu Hcap. split.
  - intros s. destruct (handleRegister_returns s w Hmu Hcap) as (w'&Hw'&Hdocs).
    exists w'. split; [exact Hw'|]. unfold room at 1. rewrite Hdocs.
    rewrite lookup_insert_eq. split; [reflexivity|]. split; [eauto|].
    intros d Hd. by rewrite lookup_insert_ne.
  - intros s Hin Hopen.
    destruct (handleUnregister_returns s w Hin Hmu Hopen Hcap) as (w'&Hw').
    exists w'. split; [exact Hw'|].
    unfold room in Hin |- *.
    destruct (documents w !! DocumentID s) as [sessions|] eqn:Hroom;
      [|by apply not_elem_of_empty in Hin].
    cbn [default from_option id] in *.
    rewrite (handleUnregister_documents s w w' sessions Hroom Hin Hw').
    destruct (decide (size (sessions ∖ {[s]}) = 0%nat)) as [Hz|Hnz].
    + rewrite lookup_delete_eq. cbn [default from_option id].
      apply size_empty_inv in Hz. apply leibniz_equiv in Hz.
      split; [by rewrite Hz|]. split.
      * split; [|done]. intros _.
        apply set_eq. intros x. rewrite elem_of_singleton. split.
        -- intros Hx. destruct (decide (x = s)) as [|Hne]; [done|].
           exfalso. apply (not_elem_of_empty (C := gset Session) x).
           rewrite <- Hz. apply elem_of_difference. split; [done|].
           by rewrite elem_of_singleton.
        -- by intros ->.
      * intros d Hd. by rewrite lookup_delete_ne.
    + rewrite lookup_insert_eq. cbn [default from_option id].
      split; [reflexivity|]. split.
      * split; [done|]. intros ->. exfalso. apply Hnz.
        replace ({[s]} ∖ {[s]} : gset Session) with (∅ : gset Session);
          [apply size_empty|].
        apply set_eq. intros x. rewrite elem_of_difference, elem_of_singleton.
        split; [by intros ?%not_elem_of_empty|by intros [? ?]].
      * intros d Hd. by rewrite lookup_insert_ne.
Qed.

(** The entry of a session that has left is gone from the store. *)
Lemma left_awareness_entry s sessions c w msg :
  awareness_entry (announce msg (left s sessions c w)) (DocumentID s) (ClientID s)
  = None.
Proof.
  unfold awareness_entry, GetAwareness, deref, announce, left. world_simpl.
  destruct (awareness w !! DocumentID s) as [l|]; [|apply lookup_empty].
  rewrite lookup_alter_eq.
  destruct (amaps w !! l) as [m|]; cbn [fmap option_fmap option_map default from_option id].
  - apply lookup_delete_eq.
  - apply lookup_empty.
Qed.

(** C4: in a state the hub has reached from the empty registry, with
    the lock free, the channel of the session open and room for the
    leave announcement, the unregister of a registered session returns;
    the session is then in no room and the store has no entry for its
    client id in its document. *)
Theorem unregister_removes_session (w0 : World) (cs : list Command)
    (w : World) (s : Session) :
  documents w0 = ∅ ->
  run (Start cs) w0 = Finished tt w ->
  s ∈ room w (DocumentID s) ->
  mu w = false -> is_open w s ->
  (length (broadcast w) < BroadcastCapacity)%nat ->
  exists w',
    run (handleUnregister s) w = Finished tt w'
    /\ (forall d, s ∉ room w' d)
    /\ awareness_entry w' (DocumentID s) (ClientID s) = None.
Proof.
  intros Hempty Hrun Hin Hmu Hopen Hcap.
  destruct (handleUnregister_returns s w Hin Hmu Hopen Hcap) as (w'&Hw').
  exists w'. split; [exact Hw'|]. revert Hw'. clear Hmu Hopen Hcap.
  pose proof (Start_registry_ok cs w0 (registry_ok_empty w0 Hempty)) as Hok.
  rewrite Hrun in Hok. cbn [leaves] in Hok.
  rewrite handleUnregister_run. destruct (mu w); [done|].
  unfold room in Hin.
  destruct (documents w !! DocumentID s) as [sessions|] eqn:Hroom;
    [|by apply not_elem_of_empty in Hin].
  cbn [default from_option id] in Hin.
  destruct (decide _); [|done].
  destruct (Send w !! s) as [c|]; [|done].
  destruct (closed c); [done|]. cbv zeta. destruct (decide _); [|done].
  intros [= <-]. split; [|apply left_awareness_entry].
  intros d. unfold room, announce. world_simpl. rewrite left_documents.
  destruct (decide (d = DocumentID s)) as [->|Hd].
  - destruct (decide (size (sessions ∖ {[s]}) = 0%nat)).
    + rewrite lookup_delete_eq. apply not_elem_of_empty.
    + rewrite lookup_insert_eq. cbn [default from_option id].
      intros [_ Hbad]%elem_of_difference. apply Hbad, elem_of_singleton. reflexivity.
  - assert (s ∉ default ∅ (documents w !! d)) as Hout.
    { intros Hbad. apply Hd. symmetry. by apply (registry_ok_room w). }
    destruct (decide (size (sessions ∖ {[s]}) = 0%nat)).
    + rewrite lookup_delete_ne by done. exact Hout.
    + rewrite lookup_insert_ne by done. exact Hout.
Qed.

End Registry.

Lemma before_joining_documents : documents before_joining = ∅.
Proof. apply (bool_decide_unpack _). vm_compute. exact I. Qed.

Lemma alice_alone_run :
  run (Start (RT := fixed_order) alice_joins) before_joining = Finished tt alice_alone.
Proof. apply finished_final. vm_compute. reflexivity. Qed.

Lemma alice_alone_idle :
  mu alice_alone = false
  /\ (length (broadcast alice_alone) < BroadcastCapacity)%nat.
Proof. split; [vm_compute; reflexivity|vm_compute; lia]. Qed.

Lemma alice_alone_room : room alice_alone "doc1" = {[alice]}.
Proof. apply (bool_decide_unpack _). vm_compute. exact I. Qed.

Lemma alice_alone_open : is_open alice_alone alice.
Proof. eexists. split; [vm_compute; reflexivity|reflexivity]. Qed.

(** C5, witness: Alice is alone in "doc1".  Dave's register makes
    "doc2" a key of the registry, and Alice's unregister, she being the
    last member, deletes "doc1". *)
Lemma room_exists_iff_nonempty_witness :
  (forall d, is_Some (documents alice_alone !! d) <-> room alice_alone d <> ∅)
  /\ (exists w',
        run (handleRegister dave) alice_alone = Finished tt w'
        /\ room w' "doc2" = {[dave]} ∪ room alice_alone "doc2"
        /\ is_Some (documents w' !! "doc2"))
  /\ (exists w',
        run (handleUnregister alice) alice_alone = Finished tt w'
        /\ room w' "doc1" = room alice_alone "doc1" ∖ {[alice]}
        /\ documents w' !! "doc1" = None).
Proof.
  destruct (room_exists_iff_nonempty (RT := fixed_order) before_joining alice_joins
              before_joining_documents) as (Hinv&Hstep).
  rewrite alice_alone_run in Hinv.
  destruct alice_alone_idle as (Hmu&Hcap).
  destruct (Hstep alice_alone alice_alone_run Hmu Hcap) as (Hreg&Hunreg).
  split; [exact Hinv|]. split.
  - destruct (Hreg dave) as (w'&Hrun&Hroom&Hkey&_).
    exists w'. split; [exact Hrun|]. split; [exact Hroom|exact Hkey].
  - destruct (Hunreg alice) as (w'&Hrun&Hroom&Hkey&_).
    + change (DocumentID alice) with "doc1"%string.
      rewrite alice_alone_room. apply elem_of_singleton. reflexivity.
    + exact alice_alone_open.
    + exists w'. split; [exact Hrun|]. split; [exact Hroom|].
      apply Hkey. exact alice_alone_room.
Defined.

Lemma alice_is_open : is_open two_joined alice.
Proof. eexists. split; [vm_compute; reflexivity|reflexivity]. Qed.

Lemma two_joined_broadcast : broadcast two_joined = [].
Proof. vm_compute. reflexivity. Qed.

(** C4, witness: Alice, whose presence is in the store, leaves. *)
Lemma unregister_removes_session_witness :
  exists w',
    run (handleUnregister alice) two_joined = Finished tt w'
    /\ (forall d, alice ∉ room w' d)
    /\ awareness_entry w' "doc1" 1 = None.
Proof.
  apply (unregister_removes_session (RT := fixed_order) before_joining joining
           two_joined alice).
  - exact before_joining_documents.
  - exact two_joined_run.
  - apply (bool_decide_unpack _). vm_compute. exact I.
  - exact two_joined_mu.
  - exact alice_is_open.
  - rewrite two_joined_broadcast. unfold BroadcastCapacity. cbn [length]. lia.
Defined.

(** Before she left, the entry was there. *)
Example alice_presence_before :
  awareness_entry two_joined "doc1" 1 = Some presence.
Proof. vm_compute. reflexivity. Qed.

(** ** The awareness store *)

Lemma new_loc_fresh (w : World) : amaps w !! new_loc w = None.
Proof. apply not_elem_of_dom. unfold new_loc. apply is_fresh. Qed.

Lemma store_wf_new : store_wf NewSessionManager.
Proof.
  split.
  - intros d l. cbn [awareness NewSessionManager]. by rewrite lookup_empty.
  - intros d1 d2 l. cbn [awareness NewSessionManager]. by rewrite lookup_empty.
Qed.

Lemma store_wf_same w w' :
  awareness w' = awareness w -> amaps w' = amaps w -> store_wf w -> store_wf w'.
Proof. unfold store_wf. intros -> ->. done. Qed.

(** [UpdateAwareness] in closed form: the reference of the document,
    made if need be, and the entry written through it. *)
Lemma UpdateAwareness_known d c st w l :
  awareness w !! d = Some l ->
  UpdateAwareness d c st w = set_amaps (alter <[c := st]> l) w.
Proof.
  unfold UpdateAwareness. intros Hl. rewrite Hl. cbv zeta. rewrite Hl.
  reflexivity.
Qed.

Lemma UpdateAwareness_unknown d c st w :
  awareness w !! d = None ->
  UpdateAwareness d c st w
  = set_amaps (alter <[c := st]> (new_loc w))
      (set_awareness <[d := new_loc w]> (set_amaps <[new_loc w := ∅]> w)).
Proof.
  unfold UpdateAwareness. intros ->. cbv zeta. world_simpl.
  rewrite lookup_insert_eq. reflexivity.
Qed.

Lemma UpdateAwareness_documents d c st w :
  documents (UpdateAwareness d c st w) = documents w.
Proof.
  destruct (awareness w !! d) as [l|] eqn:E.
  - by rewrite (UpdateAwareness_known _ _ _ _ _ E).
  - by rewrite (UpdateAwareness_unknown _ _ _ _ E).
Qed.

(** [UpdateAwareness] touches neither the lock, nor the channels,
    nor the pending broadcasts. *)
Lemma UpdateAwareness_frame d c st w :
  mu (UpdateAwareness d c st w) = mu w
  /\ Send (UpdateAwareness d c st w) = Send w
  /\ broadcast (UpdateAwareness d c st w) = broadcast w.
Proof.
  destruct (awareness w !! d) as [l|] eqn:E.
  - by rewrite (UpdateAwareness_known _ _ _ _ _ E).
  - by rewrite (UpdateAwareness_unknown _ _ _ _ E).
Qed.

Lemma UpdateAwareness_wf d c st w :
  store_wf w -> store_wf (UpdateAwareness d c st w).
Proof.
  intros [Halloc Hinj]. destruct (awareness w !! d) as [l|] eqn:E.
  - rewrite (UpdateAwareness_known _ _ _ _ _ E). split; world_simpl.
    + intros d' l' Hl'. destruct (Halloc d' l' Hl') as [m Hm].
      destruct (decide (l = l')) as [->|Hne].
      * rewrite lookup_alter_eq, Hm. by eexists.
      * rewrite lookup_alter_ne by done. by eexists.
    + exact Hinj.
  - rewrite (UpdateAwareness_unknown _ _ _ _ E). split; world_simpl.
    + intros d' l'. rewrite lookup_insert. case_decide as Hd.
      * intros [= <-]. rewrite lookup_alter_eq, lookup_insert_eq. by eexists.
      * intros Hl'. destruct (Halloc d' l' Hl') as [m Hm].
        assert (l' <> new_loc w) as Hne.
        { intros ->. rewrite new_loc_fresh in Hm. done. }
        rewrite lookup_alter_ne, lookup_insert_ne by done. eauto.
    + intros d1 d2 l'. rewrite !lookup_insert.
      repeat case_decide; subst; try done.
      * intros [= <-] H2. destruct (Halloc _ _ H2) as [m Hm].
        rewrite new_loc_fresh in Hm. done.
      * intros H1 [= <-]. destruct (Halloc _ _ H1) as [m Hm].
        rewrite new_loc_fresh in Hm. done.
      * apply Hinj.
Qed.

(** The entry just written is read back, whether or not any session
    carries that document and client id. *)
Lemma UpdateAwareness_entry d c st w :
  store_wf w -> awareness_entry (UpdateAwareness d c st w) d c = Some st.
Proof.
  intros [Halloc _]. unfold awareness_entry, GetAwareness, deref.
  destruct (awareness w !! d) as [l|] eqn:E.
  - rewrite (UpdateAwareness_known _ _ _ _ _ E). world_simpl. rewrite E.
    destruct (Halloc d l E) as [m Hm].
    rewrite lookup_alter_eq, Hm. cbn. apply lookup_insert_eq.
  - rewrite (UpdateAwareness_unknown _ _ _ _ E). world_simpl.
    rewrite lookup_insert_eq, lookup_alter_eq, lookup_insert_eq. cbn.
    apply lookup_insert_eq.
Qed.

(** C6, as the code has it: [GetAwareness] returns the store's own map
    of the document.  A later [UpdateAwareness] on the document shows
    through the value returned before, and a write into the returned
    value is a write into the store. *)
Theorem GetAwareness_is_live (w : World) (d : string) (l : loc) (c : Z) (st : AwarenessState) :
  store_wf w ->
  GetAwareness d w = Some l ->
  GetAwareness d (UpdateAwareness d c st w) = Some l
  /\ deref (UpdateAwareness d c st w) (Some l) = <[c := st]> (deref w (Some l))
  /\ GetAwareness d (write_through l c st w) = Some l
  /\ deref (write_through l c st w) (GetAwareness d (write_through l c st w))
     = <[c := st]> (deref w (Some l)).
Proof.
  intros [Halloc _] Hl. unfold GetAwareness in *.
  destruct (Halloc d l Hl) as [m Hm].
  rewrite (UpdateAwareness_known _ _ _ _ _ Hl). unfold write_through, deref.
  world_simpl. rewrite Hl, lookup_alter_eq, Hm. cbn. done.
Qed.

Lemma before_joining_wf : store_wf before_joining.
Proof.
  unfold before_joining. apply UpdateAwareness_wf.
  apply (store_wf_same NewSessionManager); [reflexivity|reflexivity|].
  apply store_wf_new.
Qed.

(** C6, witness: the reference to the presence map of "doc1". *)
Lemma GetAwareness_is_live_witness :
  GetAwareness "doc1" before_joining = Some 0%nat
  /\ deref (UpdateAwareness "doc1" 2 presence before_joining) (Some 0%nat)
     = <[2 := presence]> (deref before_joining (Some 0%nat)).
Proof.
  assert (H : GetAwareness "doc1" before_joining = Some 0%nat)
    by (vm_compute; reflexivity).
  split; [exact H|].
  exact (proj1 (proj2
    (GetAwareness_is_live before_joining "doc1" 0%nat 2 presence
       before_joining_wf H))).
Defined.

(** C6 as stated fails: the map returned for "doc1" before client 2 is
    stored has the entry of client 2 afterwards. *)
Lemma GetAwareness_returns_live_map :
  ~ GetAwareness_is_snapshot before_joining "doc1".
Proof.
  intros Hclaim. destruct (Hclaim 2 presence) as [Hsame _].
  apply (f_equal (fun m => m !! 2)) in Hsame.
  vm_compute in Hsame. discriminate.
Qed.

(** ** Awareness entries and sessions *)

Lemma orphan_entry_same d c st w w' :
  documents w' = documents w -> awareness w' = awareness w ->
  amaps w' = amaps w ->
  orphan_entry d c st w -> orphan_entry d c st w'.
Proof.
  unfold orphan_entry, awareness_entry, GetAwareness, deref, room.
  intros Hd Ha Hm (Hwf&Hentry&Hroom). rewrite Hd, Ha, Hm.
  split; [|done]. by apply (store_wf_same w).
Qed.

Lemma orphan_entry_joined d c st s w :
  (DocumentID s = d -> ClientID s <> c) ->
  orphan_entry d c st w -> orphan_entry d c st (joined s w).
Proof.
  intros Hs (Hwf&Hentry&Hroom). split; [|split].
  - by apply (store_wf_same w).
  - exact Hentry.
  - intros x. unfold room. rewrite joined_documents, lookup_insert.
    case_decide as Hd; [|apply Hroom].
    cbn [default from_option id]. subst d.
    intros [->%elem_of_singleton|Hx]%elem_of_union; [done|].
    by apply Hroom.
Qed.

Lemma orphan_entry_left d c st s sessions ch w :
  documents w !! DocumentID s = Some sessions ->
  s ∈ sessions ->
  orphan_entry d c st w -> orphan_entry d c st (left s sessions ch w).
Proof.
  intros Hsessions Hin ((Halloc&Hinj)&Hentry&Hroom).
  assert (Hmember : DocumentID s = d -> ClientID s <> c).
  { intros Hd. apply Hroom; [|done]. unfold room. rewrite <- Hd, Hsessions. done. }
  unfold orphan_entry, store_wf, awareness_entry, GetAwareness, deref in *.
  unfold left. world_simpl.
  split; [split|split].
  - intros d' l' Hl'. destruct (Halloc d' l' Hl') as [m Hm].
    destruct (awareness w !! DocumentID s) as [l|]; [|by eexists].
    destruct (decide (l = l')) as [->|Hne].
    + rewrite lookup_alter_eq, Hm. by eexists.
    + rewrite lookup_alter_ne by done. by eexists.
  - exact Hinj.
  - destruct (awareness w !! d) as [l|] eqn:Hl; [|by rewrite lookup_empty in Hentry].
    destruct (awareness w !! DocumentID s) as [l'|] eqn:Hl'; [|exact Hentry].
    destruct (decide (l' = l)) as [->|Hne].
    + rewrite lookup_alter_eq.
      destruct (amaps w !! l) as [m|]; cbn in *; [|done].
      rewrite lookup_delete_ne; [done|]. apply Hmember. by apply (Hinj _ _ l).
    + rewrite lookup_alter_ne by done. exact Hentry.
  - intros x. unfold room. world_simpl.
    destruct (decide (size (sessions ∖ {[s]}) = 0%nat)).
    + rewrite lookup_delete. case_decide; [by intros ?%not_elem_of_empty|apply Hroom].
    + rewrite lookup_insert. case_decide as Hd; [|apply Hroom].
      cbn [default from_option id]. intros [Hx _]%elem_of_difference.
      apply Hroom. unfold room. rewrite <- Hd, Hsessions. done.
Qed.

Section Orphans.
Context {RT : GoRuntime}.

Lemma dispatch_orphan_entry d c st (cmd : Command) w :
  (forall s, cmd = Register s -> DocumentID s = d -> ClientID s <> c) ->
  orphan_entry d c st w -> leaves (run (dispatch cmd) w) (orphan_entry d c st).
Proof.
  intros Hcmd Hok. destruct cmd as [s|s|].
  - cbn [dispatch]. rewrite handleRegister_run.
    destruct (mu w); [exact Hok|]. cbv zeta.
    pose proof (orphan_entry_joined d c st s w (Hcmd s eq_refl) Hok) as Hj.
    destruct (decide _); cbn [leaves]; [|exact Hj].
    eapply orphan_entry_same; [..|exact Hj]; reflexivity.
  - cbn [dispatch]. rewrite handleUnregister_run.
    destruct (mu w); [exact Hok|].
    destruct (documents w !! DocumentID s) as [sessions|] eqn:Hroom.
    2:{ eapply orphan_entry_same; [..|exact Hok]; reflexivity. }
    destruct (decide _) as [Hin|].
    2:{ eapply orphan_entry_same; [..|exact Hok]; reflexivity. }
    destruct (Send w !! s) as [ch|]; [|done].
    destruct (closed ch); [done|]. cbv zeta.
    pose proof (orphan_entry_left d c st s sessions ch w Hroom Hin Hok) as Hl.
    destruct (decide _); cbn [leaves]; [|exact Hl].
    eapply orphan_entry_same; [..|exact Hl]; reflexivity.
  - rewrite dispatch_Deliver_run.
    destruct (broadcast w) as [|msg pending]; [exact Hok|].
    eapply leaves_impl; [|apply handleBroadcast_frame].
    intros w' (Hdocs&_&_&Ha&Hm&_).
    eapply orphan_entry_same; [exact Hdocs|exact Ha|exact Hm|].
    eapply orphan_entry_same; [..|exact Hok]; reflexivity.
Qed.

Lemma Start_orphan_entry d c st (cs : list Command) :
  registers_none d c cs ->
  forall w, orphan_entry d c st w ->
            leaves (run (Start cs) w) (orphan_entry d c st).
Proof.
  unfold Start. induction cs as [|cmd cs IH]; intros Hcs w Hok; [exact Hok|].
  rewrite run_for_each_cons.
  pose proof (dispatch_orphan_entry d c st cmd w) as Hc.
  destruct (run (dispatch cmd) w) as [[] w'|r w'|]; cbn [leaves] in *.
  - apply IH.
    + intros s Hs. apply Hcs. by apply list_elem_of_further.
    + apply Hc; [|done]. intros s ->. apply Hcs. apply list_elem_of_here.
  - apply Hc; [|done]. intros s ->. apply Hcs. apply list_elem_of_here.
  - done.
Qed.

(** C10: the store is keyed by document and client id alone.  When two
    registered sessions of a document carry the same client id, the
    unregister of one deletes the entry while the other is still in the
    room.  [UpdateAwareness] stores an entry for any document and client
    id, registered or not; and as long as no session carrying them is
    registered, no run of the hub, whatever it unregisters, removes the
    entry. *)
Theorem awareness_keyed_by_client_id (w : World) (d : string) (c : Z)
    (st : AwarenessState) :
  store_wf w ->
  let w1 := UpdateAwareness d c st w in
  awareness_entry w1 d c = Some st
  /\ documents w1 = documents w
  /\ (forall s1 s2,
        s1 <> s2 ->
        DocumentID s1 = d -> DocumentID s2 = d ->
        ClientID s1 = c -> ClientID s2 = c ->
        s1 ∈ room w d -> s2 ∈ room w d ->
        mu w = false -> is_open w s1 ->
        (length (broadcast w) < BroadcastCapacity)%nat ->
        exists w',
          run (handleUnregister s1) w1 = Finished tt w'
          /\ s2 ∈ room w' d /\ awareness_entry w' d c = None)
  /\ (forall cs,
        (forall x, x ∈ room w d -> DocumentID x = d -> ClientID x <> c) ->
        registers_none d c cs ->
        leaves (run (Start cs) w1) (fun w' => awareness_entry w' d c = Some st)).
Proof.
  intros Hwf w1. subst w1.
  split; [by apply UpdateAwareness_entry|].
  split; [apply UpdateAwareness_documents|]. split.
  - intros s1 s2 Hne Hd1 Hd2 Hc1 Hc2 Hin1 Hin2 Hmu Hopen Hcap.
    destruct (handleUnregister_returns s1 (UpdateAwareness d c st w))
      as (w'&Hw').
    { unfold room. rewrite UpdateAwareness_documents, Hd1. exact Hin1. }
    { by rewrite (proj1 (UpdateAwareness_frame d c st w)). }
    { unfold is_open. by rewrite (proj1 (proj2 (UpdateAwareness_frame d c st w))). }
    { by rewrite (proj2 (proj2 (UpdateAwareness_frame d c st w))). }
    exists w'. split; [exact Hw'|]. revert Hw'. clear Hmu Hopen Hcap.
    rewrite handleUnregister_run.
    destruct (mu _); [done|].
    unfold room in Hin1, Hin2. rewrite UpdateAwareness_documents, Hd1.
    destruct (documents w !! d) as [sessions|] eqn:Hroom;
      [|by apply not_elem_of_empty in Hin1].
    cbn [default from_option id] in *.
    destruct (decide _); [|done].
    destruct (Send _ !! s1) as [ch|]; [|done].
    destruct (closed ch); [done|]. cbv zeta. destruct (decide _); [|done].
    intros [= <-]. split.
    + unfold room, announce. world_simpl. rewrite left_documents, Hd1.
      assert (s2 ∈ sessions ∖ {[s1]}) as Hs2.
      { apply elem_of_difference. split; [done|].
        by intros ?%elem_of_singleton. }
      destruct (decide (size (sessions ∖ {[s1]}) = 0%nat)) as [Hz|Hnz].
      * apply size_empty_inv in Hz. apply leibniz_equiv in Hz.
        rewrite Hz in Hs2. by apply not_elem_of_empty in Hs2.
      * rewrite lookup_insert_eq. exact Hs2.
    + rewrite <- Hd1, <- Hc1. apply left_awareness_entry.
  - intros cs Hroom Hcs.
    eapply leaves_impl; [|apply (Start_orphan_entry d c st cs Hcs)].
    + intros w' (_&Hentry&_). exact Hentry.
    + split; [by apply UpdateAwareness_wf|].
      split; [by apply UpdateAwareness_entry|].
      unfold room. rewrite UpdateAwareness_documents. exact Hroom.
Qed.

End Orphans.

(** ** The update log *)

#[global] Instance created_le_total : Total created_le.
Proof. intros u v. unfold created_le. lia. Qed.

#[global] Instance created_le_trans : Transitive created_le.
Proof. intros u v x. unfold created_le. lia. Qed.

Lemma created_lt_distinct (l : list YjsUpdate) :
  StronglySorted created_lt l ->
  forall u v, u ∈ l -> v ∈ l -> created_le u v -> created_le v u -> u = v.
Proof.
  unfold created_le.
  induction 1 as [|a l Hl IH Hall]; intros u v Hu Hv Huv Hvu.
  - by apply elem_of_nil in Hu.
  - rewrite Forall_forall in Hall.
    apply elem_of_cons in Hu as [->|Hu]; apply elem_of_cons in Hv as [->|Hv].
    + reflexivity.
    + specialize (Hall v Hv). unfold created_lt in Hall. lia.
    + specialize (Hall u Hu). unfold created_lt in Hall. lia.
    + by apply IH.
Qed.

Lemma created_lt_sorted (l : list YjsUpdate) :
  StronglySorted created_lt l -> Sorted created_le l.
Proof.
  intros H. apply StronglySorted_Sorted.
  induction H as [|a l Hl IH Hall]; constructor; [done|].
  eapply Forall_impl; [exact Hall|]. unfold created_lt, created_le.
  intros u. cbv beta. lia.
Qed.

(** [GetAllUpdates] replays the rows of the document in the order of
    their creation: rows stored at distinct, increasing times come back
    in the order they were stored. *)
Lemma GetAllUpdates_in_order (r : YjsRepository) (d : string) (l : list YjsUpdate) :
  reachable r = true ->
  filter (fun u => yDocumentID u = d) (rows r) = l ->
  StronglySorted created_lt l ->
  GetAllUpdates r d = inl l.
Proof.
  intros Hreach Hrows Hsorted. unfold GetAllUpdates. rewrite Hreach, Hrows.
  f_equal. apply (Sorted_unique_strong created_le).
  - intros u v Hu Hv. rewrite merge_sort_Permutation in Hu.
    by apply (created_lt_distinct l).
  - apply Sorted_merge_sort, _.
  - by apply created_lt_sorted.
  - apply merge_sort_Permutation.
Qed.

(** ** The initial state *)

Lemma replay_run (s : Session) (u : YjsUpdate) (w : World) :
  run (replay s u) w =
  match Send w !! s with
  | Some c =>
      if closed c then Panicked
      else if decide (length (buf c) < SendCapacity)%nat
           then Finished tt (set_Send <[s := mkChan (buf c ++ [Raw (Update u)]) false]> w)
           else Finished tt (add_log (LogInitialUpdateFailed s) w)
  | None => Finished tt (add_log (LogInitialUpdateFailed s) w)
  end.
Proof.
  unfold replay. rewrite run_bind, run_try_send.
  destruct (Send w !! s) as [c|]; [|run_steps; reflexivity].
  destruct (closed c); [reflexivity|].
  destruct (decide _); run_steps; reflexivity.
Qed.

Lemma chan_eta (c : Chan) : closed c = false -> mkChan (buf c) false = c.
Proof. destruct c. cbn. by intros ->. Qed.

Lemma replay_loop (s : Session) (updates : list YjsUpdate) :
  forall w c,
  Send w !! s = Some c -> closed c = false ->
  run (for_each updates (replay s)) w = Finished tt (replayed s c updates w).
Proof.
  induction updates as [|u us IH]; intros w c Hc Hcl.
  - rewrite run_for_each_nil. f_equal. unfold replayed, payloads.
    cbn [map length].
    apply world_ext; world_simpl; try reflexivity.
    + rewrite take_nil, app_nil_r, chan_eta by done. symmetry. by apply insert_id.
    + cbn [length]. rewrite Nat.sub_0_l. cbn [replicate]. by rewrite app_nil_r.
  - rewrite run_for_each_cons, replay_run, Hc, Hcl.
    destruct (decide _) as [Hlt|Hfull].
    + rewrite (IH _ (mkChan (buf c ++ [Raw (Update u)]) false));
        [|world_simpl; apply lookup_insert_eq|reflexivity].
      f_equal. unfold replayed, payloads.
      apply world_ext; world_simpl; try reflexivity.
      * rewrite insert_insert_eq. do 2 f_equal. cbn [buf].
        rewrite length_app. cbn [length map].
        replace (SendCapacity - length (buf c))%nat
          with (S (SendCapacity - (length (buf c) + 1)))%nat by lia.
        cbn [take]. by rewrite <- app_assoc.
      * do 2 f_equal. cbn [buf]. rewrite length_app. cbn [length]. lia.
    + rewrite (IH _ c); [|world_simpl; exact Hc|exact Hcl].
      f_equal. unfold replayed, payloads.
      apply world_ext; world_simpl; try reflexivity.
      * do 3 f_equal.
        replace (SendCapacity - length (buf c))%nat with 0%nat by lia.
        reflexivity.
      * replace (SendCapacity - length (buf c))%nat with 0%nat by lia.
        rewrite !Nat.sub_0_r. cbn [length replicate].
        by rewrite <- app_assoc.
Qed.


(** [sendInitialState] in closed form, for a session whose channel is
    open and a log that answers. *)
Lemma sendInitialState_run (s : Session) (w : World) (repo : YjsRepository)
    (updates : list YjsUpdate) (c : Chan) :
  yjsRepo w = Some repo ->
  GetAllUpdates repo (DocumentID s) = inl updates ->
  Send w !! s = Some c -> closed c = false ->
  run (sendInitialState s) w =
    let w2 := add_log (LogInitialSent (length updates) s) (replayed s c updates w) in
    let sent := buf c ++ take (SendCapacity - length (buf c)) (payloads updates) in
    match GetAwareness (DocumentID s) w with
    | Some l =>
        let data := AwarenessData (deref w (Some l)) in
        if decide (length sent < SendCapacity)%nat
        then Finished tt (set_Send <[s := mkChan (sent ++ [data]) false]> w2)
        else Parked (SendSession s data) w2
    | None => Finished tt w2
    end.
Proof.
  intros Hrepo Hupdates Hc Hcl.
  unfold sendInitialState. run_steps. rewrite Hrepo, Hupdates.
  run_steps. rewrite (replay_loop s updates w c Hc Hcl). run_steps.
  cbv zeta. set (w2 := add_log _ (replayed s c updates w)).
  assert (Hsend : Send w2 !! s
                  = Some (mkChan (buf c ++ take (SendCapacity - length (buf c))
                                                (payloads updates)) false)).
  { unfold w2, replayed. world_simpl. apply lookup_insert_eq. }
  change (GetAwareness (DocumentID s) w2) with (GetAwareness (DocumentID s) w).
  destruct (GetAwareness (DocumentID s) w) as [l|]; [|run_steps; reflexivity].
  change (deref w2 (Some l)) with (deref w (Some l)).
  run_steps. rewrite Hsend. cbn [closed buf].
  destruct (decide _); reflexivity.
Qed.

(** The rest of the handler's body once the hub has taken the session:
    the initial state, then the log line of line 110. *)
Lemma rest_of_handler_run (s : Session) (w : World) :
  run (sendInitialState s ;;; log (LogConnected s)) w
  = match run (sendInitialState s) w with
    | Finished _ w' => Finished tt (add_log (LogConnected s) w')
    | Parked r w' => Parked r w'
    | Panicked => Panicked
    end.
Proof.
  rewrite run_bind. destruct (run (sendInitialState s) w); [|reflexivity..].
  run_steps. reflexivity.
Qed.

(** The two orders in which the hub and the handler can run. *)
Lemma connect_eq (hub_first : bool) (session : Session) (now : Z) (w : World) :
  connect hub_first session now w =
  let w0 := newSession session now w in
  let rest := (sendInitialState session ;;; log (LogConnected session)) in
  if hub_first then
    match stand (run (handleRegister session) w0) with
    | Some (h, w1) =>
        match stand (run rest w1) with
        | Some (c, w2) => Some (h, c, w2)
        | None => None
        end
    | None => None
    end
  else
    match stand (run rest w0) with
    | Some (c, w1) =>
        match stand (run (handleRegister session) w1) with
        | Some (h, w2) => Some (h, c, w2)
        | None => None
        end
    | None => None
    end.
Proof. reflexivity. Qed.

(** With the lock free and room for the announcement the hub goes
    through the registration, whichever of the two runs first; the
    handler ends where it ends on its own. *)
Lemma connect_hub_first (session : Session) (now : Z) (w : World) :
  mu w = false ->
  (length (broadcast w) < BroadcastCapacity)%nat ->
  connect true session now w
  = match stand (run (sendInitialState session ;;; log (LogConnected session))
                     (announce (mkBroadcast (DocumentID session) (joinMsg session)
                                            (Some session))
                               (joined session (newSession session now w)))) with
    | Some (c, w2) => Some (Returned, c, w2)
    | None => None
    end.
Proof.
  intros Hmu Hcap. rewrite connect_eq. cbv zeta.
  rewrite handleRegister_run.
  replace (mu (newSession session now w)) with false by (symmetry; exact Hmu).
  cbv zeta. rewrite decide_True by exact Hcap. reflexivity.
Qed.

Lemma connect_handler_first (session : Session) (now : Z) (w : World)
    (c : Standing) (w1 : World) :
  stand (run (sendInitialState session ;;; log (LogConnected session))
             (newSession session now w)) = Some (c, w1) ->
  mu w1 = false ->
  (length (broadcast w1) < BroadcastCapacity)%nat ->
  connect false session now w
  = Some (Returned, c,
          announce (mkBroadcast (DocumentID session) (joinMsg session) (Some session))
                   (joined session w1)).
Proof.
  intros Hrest Hmu Hcap. rewrite connect_eq. cbv zeta. rewrite Hrest.
  rewrite handleRegister_run, Hmu. cbv zeta.
  rewrite decide_True by exact Hcap. reflexivity.
Qed.

(** [sendInitialState] when the query fails, and when no repository is
    set. *)
Lemma sendInitialState_down (s : Session) (w : World) (repo : YjsRepository) :
  yjsRepo w = Some repo -> reachable repo = false ->
  run (sendInitialState s) w = Finished tt (add_log LogGetUpdatesFailed w).
Proof.
  intros Hrepo Hdown. unfold sendInitialState. run_steps.
  rewrite Hrepo. unfold GetAllUpdates. rewrite Hdown. run_steps. reflexivity.
Qed.

Lemma sendInitialState_unset (s : Session) (w : World) (c : Chan) :
  yjsRepo w = None ->
  Send w !! s = Some c -> closed c = false ->
  run (sendInitialState s) w =
    match GetAwareness (DocumentID s) w with
    | Some l =>
        let data := AwarenessData (deref w (Some l)) in
        if decide (length (buf c) < SendCapacity)%nat
        then Finished tt (set_Send <[s := mkChan (buf c ++ [data]) false]> w)
        else Parked (SendSession s data) w
    | None => Finished tt w
    end.
Proof.
  intros Hrepo Hc Hcl. unfold sendInitialState. run_steps. rewrite Hrepo.
  run_steps.
  destruct (GetAwareness (DocumentID s) w) as [l|]; [|run_steps; reflexivity].
  run_steps. rewrite Hc, Hcl. cbv zeta.
  destruct (decide _); reflexivity.
Qed.

Lemma stand_eq (st : Standing) (w1 w2 : World) :
  w1 = w2 -> Some (st, w1) = Some (st, w2).
Proof. by intros ->. Qed.

(** The handler reads the log, the awareness store and its own channel,
    and writes to that channel and to the log.  From worlds that agree
    on what it reads it ends in the same place, having made the same
    changes. *)
Lemma rest_of_handler_effect (s : Session) (w : World) (c : Chan) :
  Send w !! s = Some c -> closed c = false ->
  exists (F : gmap Session Chan -> gmap Session Chan) (L : list LogLine)
         (st : Standing),
    forall v,
      yjsRepo v = yjsRepo w -> Send v = Send w ->
      awareness v = awareness w -> amaps v = amaps w ->
      stand (run (sendInitialState s ;;; log (LogConnected s)) v)
      = Some (st, set_logs (fun ls => ls ++ L) (set_Send F v)).
Proof.
  intros Hc Hcl.
  assert (Hread : forall v, Send v = Send w -> awareness v = awareness w ->
                            amaps v = amaps w ->
            Send v !! s = Some c
            /\ GetAwareness (DocumentID s) v = GetAwareness (DocumentID s) w
            /\ forall l, deref v (Some l) = deref w (Some l)).
  { intros v Hs Ha Hm. unfold GetAwareness, deref. by rewrite Hs, Ha, Hm. }
  destruct (yjsRepo w) as [repo|] eqn:Hrepo.
  - destruct (GetAllUpdates repo (DocumentID s)) as [updates|[]] eqn:Hupdates.
    + destruct (GetAwareness (DocumentID s) w) as [l|] eqn:Haware.
      * destruct (decide (length (buf c ++ take (SendCapacity - length (buf c))
                                                 (payloads updates))
                          < SendCapacity)%nat) as [Hfits|Hfull].
        -- eexists (fun m => <[s := _]> (<[s := _]> m)), _, Returned.
           intros v Hr Hs Ha Hm. destruct (Hread v Hs Ha Hm) as (Hcv&Hav&Hdv).
           rewrite rest_of_handler_run,
             (sendInitialState_run s v repo updates c Hr Hupdates Hcv Hcl).
           cbv zeta. rewrite Hav, decide_True by exact Hfits.
           rewrite Hdv. cbn [stand]. apply stand_eq. unfold replayed.
           apply world_ext; world_simpl; try reflexivity.
           rewrite <- !app_assoc. reflexivity.
        -- eexists (fun m => <[s := _]> m), _, (WaitsFor _).
           intros v Hr Hs Ha Hm. destruct (Hread v Hs Ha Hm) as (Hcv&Hav&Hdv).
           rewrite rest_of_handler_run,
             (sendInitialState_run s v repo updates c Hr Hupdates Hcv Hcl).
           cbv zeta. rewrite Hav, decide_False by exact Hfull.
           rewrite Hdv. cbn [stand]. apply stand_eq. unfold replayed.
           apply world_ext; world_simpl; try reflexivity.
           rewrite <- !app_assoc. reflexivity.
      * eexists (fun m => <[s := _]> m), _, Returned.
        intros v Hr Hs Ha Hm. destruct (Hread v Hs Ha Hm) as (Hcv&Hav&Hdv).
        rewrite rest_of_handler_run,
          (sendInitialState_run s v repo updates c Hr Hupdates Hcv Hcl).
        cbv zeta. rewrite Hav. cbn [stand]. apply stand_eq. unfold replayed.
        apply world_ext; world_simpl; try reflexivity.
        rewrite <- !app_assoc. reflexivity.
    + exists (fun m => m), [LogGetUpdatesFailed; LogConnected s], Returned.
      intros v Hr Hs Ha Hm.
      assert (Hdown : reachable repo = false).
      { unfold GetAllUpdates in Hupdates. by destruct (reachable repo). }
      rewrite rest_of_handler_run, (sendInitialState_down s v repo Hr Hdown).
      cbn [stand]. apply stand_eq.
      apply world_ext; world_simpl; try reflexivity.
      rewrite <- !app_assoc. reflexivity.
  - destruct (GetAwareness (DocumentID s) w) as [l|] eqn:Haware.
    + destruct (decide (length (buf c) < SendCapacity)%nat) as [Hfits|Hfull].
      * eexists (fun m => <[s := _]> m), [LogConnected s], Returned.
        intros v Hr Hs Ha Hm. destruct (Hread v Hs Ha Hm) as (Hcv&Hav&Hdv).
        rewrite rest_of_handler_run, (sendInitialState_unset s v c Hr Hcv Hcl).
        cbv zeta. rewrite Hav, decide_True by exact Hfits.
        rewrite Hdv. cbn [stand]. apply stand_eq.
        apply world_ext; world_simpl; reflexivity.
      * eexists (fun m => m), [], (WaitsFor _).
        intros v Hr Hs Ha Hm. destruct (Hread v Hs Ha Hm) as (Hcv&Hav&Hdv).
        rewrite rest_of_handler_run, (sendInitialState_unset s v c Hr Hcv Hcl).
        cbv zeta. rewrite Hav, decide_False by exact Hfull.
        rewrite Hdv. cbn [stand]. apply stand_eq.
        apply world_ext; world_simpl; try reflexivity.
        by rewrite app_nil_r.
    + exists (fun m => m), [LogConnected s], Returned.
      intros v Hr Hs Ha Hm. destruct (Hread v Hs Ha Hm) as (Hcv&Hav&Hdv).
      rewrite rest_of_handler_run, (sendInitialState_unset s v c Hr Hcv Hcl).
      rewrite Hav. cbn [stand]. apply stand_eq.
      apply world_ext; world_simpl; reflexivity.
Qed.

(** The registration in closed form, with where the hub stands. *)
Lemma handleRegister_stand (s : Session) (w : World) :
  stand (run (handleRegister s) w)
  = let msg := mkBroadcast (DocumentID s) (joinMsg s) (Some s) in
    if mu w then Some (WaitsFor AcquireMu, w)
    else if decide (length (broadcast w) < BroadcastCapacity)%nat
         then Some (Returned, announce msg (joined s w))
         else Some (WaitsFor (SendBroadcast msg), joined s w).
Proof.
  rewrite handleRegister_run. cbv zeta.
  destruct (mu w); [reflexivity|]. destruct (decide _); reflexivity.
Qed.

(** The order in which the hub and the handler run is immaterial:
    either way they stand in the same places and leave the same
    manager, with the same log lines in another order. *)
Lemma connect_either_way (session : Session) (now : Z) (w : World) :
  exists h c w1 w2,
    connect true session now w = Some (h, c, w1)
    /\ connect false session now w = Some (h, c, w2)
    /\ same_but_log w1 w2.
Proof.
  rewrite !connect_eq. cbv zeta.
  set (w0 := newSession session now w).
  destruct (rest_of_handler_effect session w0 (mkChan [] false))
    as (F&L&st&Hrest).
  { unfold w0, newSession. world_simpl. apply lookup_insert_eq. }
  { reflexivity. }
  rewrite (Hrest w0) by reflexivity. cbv iota beta.
  rewrite !handleRegister_stand. cbv zeta. world_simpl.
  destruct (mu w0) eqn:Hmu.
  - rewrite (Hrest w0) by reflexivity. cbv iota beta.
    eexists _, _, _, _. split; [reflexivity|]. split; [reflexivity|].
    repeat split; reflexivity.
  - destruct (decide (length (broadcast w0) < BroadcastCapacity)%nat).
    + rewrite (Hrest (announce _ (joined session w0))) by reflexivity.
      cbv iota beta.
      eexists _, _, _, _. split; [reflexivity|]. split; [reflexivity|].
      unfold same_but_log, announce, joined. world_simpl.
      repeat split; try reflexivity.
      rewrite <- !app_assoc. apply Permutation_app_head, Permutation_app_comm.
    + rewrite (Hrest (joined session w0)) by reflexivity.
      cbv iota beta.
      eexists _, _, _, _. split; [reflexivity|]. split; [reflexivity|].
      unfold same_but_log, joined. world_simpl.
      repeat split; try reflexivity.
      rewrite <- !app_assoc. apply Permutation_app_head, Permutation_app_comm.
Qed.


Section Joining.
Context {RT : GoRuntime}.





End Joining.

(** ** The sweeper *)

Lemma hands_over_less P Q n o : hands_over P Q (S n) o -> hands_over P Q n o.
Proof.
  remember (S n) as m eqn:Hm. intros H. revert n Hm.
  induction H as [w HQ|m s w k HP Hk IH|m s w k HP Hk IH]; intros n Hm.
  - discriminate.
  - apply hands_over_more; [done|]. intros w' HP'. by apply IH.
  - injection Hm as ->. by apply hands_over_more.
Qed.

Lemma hands_over_bind P R Q m n (o : Outcome unit) (f : unit -> Thread unit) :
  hands_over P R m o ->
  (forall w, R w -> hands_over P Q n (f tt w)) ->
  hands_over P Q (m + n) (bindO o f).
Proof.
  intros H Hf.
  induction H as [w HR|m s w k HP Hk IH|m s w k HP Hk IH]; cbn [bindO Nat.add].
  - by apply Hf.
  - apply hands_over_more; [done|]. exact IH.
  - apply hands_over_one; [done|]. exact IH.
Qed.

Lemma hands_over_blocks P Q n o :
  hands_over P Q (S n) o ->
  exists s w k, o = Block (SendUnregister s) w k /\ P w
                /\ forall w', P w' -> hands_over P Q n (k w').
Proof.
  inversion 1 as [|m s w k HP Hk|m s w k HP Hk]; subst.
  - exists s, w, k. split; [done|]. split; [done|].
    intros w' HP'. by apply hands_over_less, Hk.
  - by exists s, w, k.
Qed.

Section Sweep.
Context {RT : GoRuntime}.
Context (D : gmap string (gset Session)) (now : Z) (a b : Session).

#[local] Abbreviation P := (sweeping D now a b).

Lemma sweeping_log l w : P w -> P (add_log l w).
Proof. intros (?&?&?&?). repeat split; assumption. Qed.

Lemma sweep_outcome (s : Session) (w : World) :
  sweep now s w =
  if decide (timeout < now - last_active w s)
  then Block (SendUnregister s) (add_log (LogCleaning s) w) (fun w' => Ret tt w')
  else Ret tt w.
Proof.
  unfold sweep, bind, get. cbn [bindO].
  destruct (decide _); reflexivity.
Qed.

Lemma sweep_any (s : Session) (w : World) :
  P w -> hands_over P P 0 (sweep now s w).
Proof.
  intros HP. rewrite sweep_outcome. destruct (decide _).
  - apply hands_over_more; [by apply sweeping_log|].
    intros w' HP'. by apply hands_over_ret.
  - by apply hands_over_ret.
Qed.

Lemma sweep_stale (s : Session) (w : World) :
  P w -> stale now w s -> hands_over P P 1 (sweep now s w).
Proof.
  intros HP Hs. rewrite sweep_outcome.
  destruct (decide _) as [_|Hn]; [|by destruct Hn].
  apply hands_over_one; [by apply sweeping_log|].
  intros w' HP'. by apply hands_over_ret.
Qed.

Lemma sweep_all_any (xs : list Session) (w : World) :
  P w -> hands_over P P 0 (for_each xs (sweep now) w).
Proof.
  revert w. induction xs as [|x xs IH]; intros w HP.
  - by apply hands_over_ret.
  - apply (hands_over_bind P P P 0 0); [by apply sweep_any|].
    intros w' HP'. by apply IH.
Qed.

Lemma sweep_all_one (s : Session) (xs : list Session) (w : World) :
  (forall w, P w -> stale now w s) ->
  s ∈ xs -> P w -> hands_over P P 1 (for_each xs (sweep now) w).
Proof.
  intros Hs. revert w. induction xs as [|x xs IH]; intros w Hin HP.
  - by apply elem_of_nil in Hin.
  - destruct (decide (x = s)) as [->|Hne].
    + apply (hands_over_bind P P P 1 0); [by apply sweep_stale, Hs|].
      intros w' HP'. by apply sweep_all_any.
    + apply (hands_over_bind P P P 0 1); [by apply sweep_any|].
      intros w' HP'. apply IH; [|done].
      apply elem_of_cons in Hin as [->|Hin]; done.
Qed.

Lemma sweeping_a w : P w -> stale now w a.
Proof. by intros (_&_&?&_). Qed.

Lemma sweeping_b w : P w -> stale now w b.
Proof. by intros (_&_&_&?). Qed.

Lemma sweep_all_two (xs : list Session) (w : World) :
  a <> b -> a ∈ xs -> b ∈ xs -> P w ->
  hands_over P P 2 (for_each xs (sweep now) w).
Proof.
  intros Hab. revert w. induction xs as [|x xs IH]; intros w Ha Hb HP.
  - by apply elem_of_nil in Ha.
  - destruct (decide (x = a)) as [->|Hxa]; [|destruct (decide (x = b)) as [->|Hxb]].
    + apply (hands_over_bind P P P 1 1); [by apply sweep_stale, sweeping_a|].
      intros w' HP'. apply (sweep_all_one b); [apply sweeping_b| |done].
      apply elem_of_cons in Hb as [Hb|Hb]; [by destruct Hab|done].
    + apply (hands_over_bind P P P 1 1); [by apply sweep_stale, sweeping_b|].
      intros w' HP'. apply (sweep_all_one a); [apply sweeping_a| |done].
      apply elem_of_cons in Ha as [Ha|Ha]; [by destruct Hxa|done].
    + apply (hands_over_bind P P P 0 2); [by apply sweep_any|].
      intros w' HP'. apply IH; [..|done].
      * apply elem_of_cons in Ha as [Ha|Ha]; [by destruct Hxa|done].
      * apply elem_of_cons in Hb as [Hb|Hb]; [by destruct Hxb|done].
Qed.

(** A room with a member is not deleted by the sweeper. *)
Lemma sweep_room_tail (docID : string) (sessions : gset Session) (w : World) :
  sessions <> ∅ -> P w ->
  hands_over P P 0
    ((if decide (size sessions = 0%nat)
      then modify (set_documents (delete docID))
      else ret tt) w).
Proof.
  intros Hne HP. destruct (decide _) as [Hz|_].
  - exfalso. apply Hne. apply size_empty_inv in Hz. by apply leibniz_equiv.
  - by apply hands_over_ret.
Qed.

Lemma sweep_room_count (n : nat) (docID : string) (sessions : gset Session) (w : World) :
  sessions <> ∅ -> P w ->
  hands_over P P n (for_each (range_sessions sessions) (sweep now) w) ->
  hands_over P P n (sweep_room now (docID, sessions) w).
Proof.
  intros Hne HP H. unfold sweep_room, bind.
  replace n with (n + 0)%nat by lia.
  apply (hands_over_bind P P P n 0); [exact H|].
  intros w' HP'. by apply sweep_room_tail.
Qed.

Lemma sweep_rooms_any (rs : list (string * gset Session)) (w : World) :
  rooms_ok rs -> P w -> hands_over P P 0 (for_each rs (sweep_room now) w).
Proof.
  revert w. induction rs as [|[d X] rs IH]; intros w Hok HP.
  - by apply hands_over_ret.
  - apply (hands_over_bind P P P 0 0).
    + apply sweep_room_count; [apply (Hok d X), list_elem_of_here|done|].
      by apply sweep_all_any.
    + intros w' HP'. apply IH; [|done].
      intros d' X' Hin. apply (Hok d' X'). by apply list_elem_of_further.
Qed.

Lemma sweep_rooms_one (s : Session) (ds : string) (Xs : gset Session)
    (rs : list (string * gset Session)) (w : World) :
  (forall w, P w -> stale now w s) ->
  rooms_ok rs -> (ds, Xs) ∈ rs -> s ∈ Xs -> P w ->
  hands_over P P 1 (for_each rs (sweep_room now) w).
Proof.
  intros Hs. revert w. induction rs as [|[d X] rs IH]; intros w Hok Hin HsX HP.
  - by apply elem_of_nil in Hin.
  - assert (rooms_ok rs) as Hok'.
    { intros d' X' Hin'. apply (Hok d' X'). by apply list_elem_of_further. }
    destruct (decide (s ∈ X)) as [HsX'|HsX'].
    + apply (hands_over_bind P P P 1 0).
      * apply sweep_room_count; [apply (Hok d X), list_elem_of_here|done|].
        apply (sweep_all_one s); [done| |done]. by apply elem_of_range_sessions.
      * intros w' HP'. by apply sweep_rooms_any.
    + apply (hands_over_bind P P P 0 1).
      * apply sweep_room_count; [apply (Hok d X), list_elem_of_here|done|].
        by apply sweep_all_any.
      * intros w' HP'. apply IH; [done| |done|done].
        apply elem_of_cons in Hin as [[= -> ->]|Hin]; [by destruct HsX'|done].
Qed.

Lemma sweep_rooms_two (da db : string) (Xa Xb : gset Session)
    (rs : list (string * gset Session)) (w : World) :
  a <> b -> rooms_ok rs ->
  (da, Xa) ∈ rs -> a ∈ Xa -> (db, Xb) ∈ rs -> b ∈ Xb -> P w ->
  hands_over P P 2 (for_each rs (sweep_room now) w).
Proof.
  intros Hab. revert w.
  induction rs as [|[d X] rs IH]; intros w Hok Ha HaX Hb HbX HP.
  - by apply elem_of_nil in Ha.
  - assert (rooms_ok rs) as Hok'.
    { intros d' X' Hin'. apply (Hok d' X'). by apply list_elem_of_further. }
    assert (X <> ∅) as HX by apply (Hok d X), list_elem_of_here.
    destruct (decide (a ∈ X)) as [HaX'|HaX'];
      destruct (decide (b ∈ X)) as [HbX'|HbX'].
    + apply (hands_over_bind P P P 2 0).
      * apply sweep_room_count; [done|done|].
        apply sweep_all_two; [done| | |done]; by apply elem_of_range_sessions.
      * intros w' HP'. by apply sweep_rooms_any.
    + apply (hands_over_bind P P P 1 1).
      * apply sweep_room_count; [done|done|].
        apply (sweep_all_one a); [apply sweeping_a| |done].
        by apply elem_of_range_sessions.
      * intros w' HP'. apply (sweep_rooms_one b db Xb); [apply sweeping_b|done| |done|done].
        apply elem_of_cons in Hb as [[= -> ->]|Hb]; [by destruct HbX'|done].
    + apply (hands_over_bind P P P 1 1).
      * apply sweep_room_count; [done|done|].
        apply (sweep_all_one b); [apply sweeping_b| |done].
        by apply elem_of_range_sessions.
      * intros w' HP'. apply (sweep_rooms_one a da Xa); [apply sweeping_a|done| |done|done].
        apply elem_of_cons in Ha as [[= -> ->]|Ha]; [by destruct HaX'|done].
    + apply (hands_over_bind P P P 0 2).
      * apply sweep_room_count; [done|done|]. by apply sweep_all_any.
      * intros w' HP'. apply IH; [done| |done| |done|done].
        -- apply elem_of_cons in Ha as [[= -> ->]|Ha]; [by destruct HaX'|done].
        -- apply elem_of_cons in Hb as [[= -> ->]|Hb]; [by destruct HbX'|done].
Qed.

End Sweep.

Section Deadlock.
Context {RT : GoRuntime}.

Lemma handleRegister_starts s w :
  exists k, handleRegister s w = Block AcquireMu w k.
Proof. eexists. reflexivity. Qed.

Lemma handleUnregister_starts s w :
  exists k, handleUnregister s w = Block AcquireMu w k.
Proof. eexists. reflexivity. Qed.

Lemma handleBroadcast_starts msg w :
  exists k, handleBroadcast msg w = Block AcquireRMu w k.
Proof. eexists. reflexivity. Qed.

(** [cleanup], once it holds the lock over a registry without empty
    rooms in which two sessions are stale, hands over two sessions
    before it returns. *)
Lemma cleanup_hands_over_two (now : Z) (a b : Session) (da db : string) (w : World) :
  registry_ok w -> a <> b ->
  a ∈ room w da -> b ∈ room w db ->
  stale now w a -> stale now w b ->
  exists k,
    cleanup now w = Block AcquireMu w k
    /\ hands_over (sweeping (documents w) now a b) (fun _ => True) 2
                  (k (set_mu true w)).
Proof.
  intros Hok Hab Ha Hb Hsa Hsb. eexists. split; [reflexivity|].
  cbn [bindO get bind].
  replace 2%nat with (2 + 0)%nat by reflexivity.
  apply (hands_over_bind _ (sweeping (documents w) now a b)).
  - unfold room in Ha, Hb.
    destruct (documents w !! da) as [Xa|] eqn:HXa;
      [|by apply not_elem_of_empty in Ha].
    destruct (documents w !! db) as [Xb|] eqn:HXb;
      [|by apply not_elem_of_empty in Hb].
    apply (sweep_rooms_two _ now a b da db Xa Xb); try done.
    + intros d X HX%elem_of_range_rooms. by apply (Hok d X).
    + by apply elem_of_range_rooms.
    + by apply elem_of_range_rooms.
  - intros w' _. by apply hands_over_ret.
Qed.

Lemma sweeper_stuck_step D now a b sys ev sys' :
  step sys ev sys' ->
  (forall w', ev = Environment w' -> stale now w' a /\ stale now w' b) ->
  sweeper_stuck D now a b sys -> sweeper_stuck D now a b sys'.
Proof.
  intros Hstep Hev (HP&Hhub&s&k&Hsw&Hk).
  destruct Hstep as
    [s0 w sw w' h' Hpark|s0 w sw w' h' Hpark|s0 k0 w w1 h' w2 sw' Hpark1 Hpark2
    |msg pending w sw w' h' Hb Hpark|r k0 w sw w1 w' h' Hgrant Hpark
    |r k0 w h w1 w' sw' Hgrant Hpark|now0 w h w' sw' Hpark
    |w h sw w' Hdocs Hmu]; cbn [world hub sweeper] in *.
  - destruct (handleRegister_starts s0 w) as [k1 Hk1]. rewrite Hk1 in Hpark.
    injection Hpark as <- <-. split; [done|]. split; [done|].
    exists s, k. split; [done|]. by right.
  - destruct (handleUnregister_starts s0 w) as [k1 Hk1]. rewrite Hk1 in Hpark.
    injection Hpark as <- <-. split; [done|]. split; [done|].
    exists s, k. split; [done|]. by right.
  - injection Hsw as <- <-.
    destruct (handleUnregister_starts s0 w) as [k1 Hk1]. rewrite Hk1 in Hpark1.
    injection Hpark1 as <- <-.
    destruct Hk as [Hk|Hbusy]; [|by destruct Hbusy].
    destruct (hands_over_blocks _ _ _ _ (Hk w HP)) as (s2&w3&k2&Hout&HP3&_).
    rewrite Hout in Hpark2. injection Hpark2 as <- <-.
    split; [done|]. split; [done|].
    exists s2, k2. split; [done|]. by right.
  - destruct (handleBroadcast_starts msg (set_broadcast (fun _ => pending) w))
      as [k1 Hk1].
    rewrite Hk1 in Hpark. injection Hpark as <- <-.
    split; [|split; [done|]].
    + destruct HP as (?&?&?&?). repeat split; assumption.
    + exists s, k. split; [done|]. by right.
  - exfalso. destruct HP as (Hmu&_).
    destruct r; cbn [hub_needs_lock grant] in *; try done;
      rewrite Hmu in Hgrant; discriminate.
  - exfalso. injection Hsw as -> _. discriminate.
  - discriminate.
  - destruct (Hev w' eq_refl) as [Hsa Hsb].
    split; [|split; [done|by exists s, k]].
    destruct HP as (HPmu&HPdocs&_).
    repeat split; cbn [world]; [congruence|congruence|done|done].
Qed.

Lemma sweeper_stuck_steps D now a b sys evs sys' :
  steps sys evs sys' ->
  no_activity now a b evs ->
  sweeper_stuck D now a b sys -> sweeper_stuck D now a b sys'.
Proof.
  induction 1 as [|sys ev sys1 evs sys2 Hstep _ IH]; intros Hevs Hstuck; [done|].
  apply IH.
  - intros w' Hin. apply Hevs. by apply list_elem_of_further.
  - eapply sweeper_stuck_step; [exact Hstep| |exact Hstuck].
    intros w' ->. apply Hevs. apply list_elem_of_here.
Qed.

(** C8, on the code: when the ticker fires with the hub in its
    [select], the lock free and two sessions stale, and the sweeper
    takes the lock, then in every further run in which the two stay
    without activity the sweep never returns: the sweeper keeps waiting
    on [sm.unregister] with the lock held, and both sessions are still
    in their rooms. *)
Theorem sweep_of_two_stale_sessions_never_returns (w : World) (now : Z)
    (a b : Session) (da db : string) (evs : list Event) (sys' : System) :
  registry_ok w -> mu w = false -> a <> b ->
  a ∈ room w da -> b ∈ room w db ->
  stale now w a -> stale now w b ->
  steps (mkSystem w AtSelect AtSelect) (Tick now :: SweeperResumes :: evs) sys' ->
  no_activity now a b evs ->
  a ∈ room (world sys') da /\ b ∈ room (world sys') db
  /\ mu (world sys') = true
  /\ exists s k, sweeper sys' = Waiting (SendUnregister s) k.
Proof.
  intros Hok Hmu Hab Ha Hb Hsa Hsb Hsteps Hquiet.
  destruct (cleanup_hands_over_two now a b da db w Hok Hab Ha Hb Hsa Hsb)
    as (k0&Hcleanup&Htwo).
  inversion Hsteps as [|? ? sys1 ? ? Htick Hrest]; subst.
  inversion Htick as [| | | | | |? ? ? w1 sw1 Hpark1|]; subst.
  rewrite Hcleanup in Hpark1. injection Hpark1 as <- <-.
  inversion Hrest as [|? ? sys2 ? ? Hresume Hrest']; subst.
  inversion Hresume as [| | | | |r k1 ? ? w2 w3 sw3 Hgrant Hpark3| |]; subst.
  cbn [grant] in Hgrant. rewrite Hmu in Hgrant. injection Hgrant as <-.
  destruct (hands_over_blocks _ _ _ _ Htwo) as (s1&w4&k4&Hout&HP4&Hone).
  rewrite Hout in Hpark3. injection Hpark3 as <- <-.
  assert (sweeper_stuck (documents w) now a b sys') as (HP&_&s&k&Hsw&_).
  { eapply sweeper_stuck_steps; [exact Hrest'|exact Hquiet|].
    split; [exact HP4|]. split; [exact I|].
    exists s1, k4. split; [reflexivity|]. left. exact Hone. }
  destruct HP as (Hmu'&Hdocs&_).
  unfold room in *. rewrite Hdocs. eauto 10.
Qed.

End Deadlock.

(** ** The examples *)

Lemma two_joined_ok : registry_ok two_joined.
Proof.
  pose proof (Start_registry_ok (RT := fixed_order) joining before_joining
                (registry_ok_empty _ before_joining_documents)) as H.
  rewrite two_joined_run in H. exact H.
Qed.









Lemma sharing_wf : store_wf sharing.
Proof.
  assert (H : awareness sharing = ∅)
    by (apply (bool_decide_unpack _); vm_compute; exact I).
  split.
  - intros d l. rewrite H, lookup_empty. discriminate.
  - intros d1 d2 l. rewrite H, lookup_empty. discriminate.
Qed.

(** C10, witness: Dave and Erin carry client id 7; Erin's presence is
    stored, Dave leaves, and the entry is gone while Erin is still in
    the room. *)
Lemma awareness_keyed_by_client_id_witness :
  awareness_entry (UpdateAwareness "doc2" 7 presence7 sharing) "doc2" 7
  = Some presence7
  /\ exists w',
       run (handleUnregister dave) (UpdateAwareness "doc2" 7 presence7 sharing)
       = Finished tt w'
       /\ erin ∈ room w' "doc2"
       /\ awareness_entry w' "doc2" 7 = None.
Proof.
  destruct (awareness_keyed_by_client_id (RT := fixed_order) sharing "doc2" 7
              presence7 sharing_wf) as (Hentry&_&Hshared&_).
  split; [exact Hentry|].
  apply (Hshared dave erin).
  - discriminate.
  - reflexivity.
  - reflexivity.
  - reflexivity.
  - reflexivity.
  - apply (bool_decide_unpack _). vm_compute. exact I.
  - apply (bool_decide_unpack _). vm_compute. exact I.
  - vm_compute. reflexivity.
  - eexists. split; [vm_compute; reflexivity|reflexivity].
  - apply (bool_decide_unpack _). vm_compute. exact I.
Defined.

(** C10 as stated fails when a session carrying the document and
    client id connects later: an entry is stored for client 99 of
    "doc3" while nobody is registered; Heidi, whose client id it is,
    registers and leaves, and the entry is gone. *)
Lemma later_session_removes_entry :
  ~ entry_is_permanent (RT := fixed_order) heidi_connecting "doc3" 99 presence99.
Proof.
  intros Hclaim.
  assert (Hroom : room heidi_connecting "doc3" = ∅)
    by (apply (bool_decide_unpack _); vm_compute; exact I).
  assert (Hnobody : forall x, x ∈ room heidi_connecting "doc3" ->
                              DocumentID x = "doc3"%string -> ClientID x <> 99).
  { intros x. rewrite Hroom. by intros ?%not_elem_of_empty. }
  specialize (Hclaim Hnobody heidi_comes_and_goes).
  assert (Hends : forall (r : Result unit) (P : World -> Prop),
            finished r = true -> leaves r P -> P (final r))
    by (by intros [[] ?|? ?|]).
  apply Hends in Hclaim; [|vm_compute; reflexivity].
  assert (Hgone : awareness_entry
                    (final (run (Start (RT := fixed_order) heidi_comes_and_goes)
                                (UpdateAwareness "doc3" 99 presence99 heidi_connecting)))
                    "doc3" 99 = None) by (vm_compute; reflexivity).
  rewrite Hgone in Hclaim. discriminate Hclaim.
Qed.

(** Two connections that leave the client id out get the same one when
    their clocks agree modulo one million nanoseconds. *)
Example generated_client_ids_collide :
  resolveClientID 0 1700000000000000007 = resolveClientID 0 1700000000001000007.
Proof. reflexivity. Qed.

(** C8, witness: Alice and Bob, last active at time 0, are both stale
    six minutes later; the sweep begins and does not return. *)
Lemma sweep_of_two_stale_sessions_never_returns_witness :
  exists sys',
    steps (RT := fixed_order) (mkSystem two_joined AtSelect AtSelect)
          [Tick six_minutes; SweeperResumes] sys'
    /\ alice ∈ room (world sys') "doc1" /\ bob ∈ room (world sys') "doc1"
    /\ mu (world sys') = true
    /\ exists s k, sweeper sys' = Waiting (SendUnregister s) k.
Proof.
  assert (Ha : alice ∈ room two_joined "doc1")
    by (apply (bool_decide_unpack _); vm_compute; exact I).
  assert (Hb : bob ∈ room two_joined "doc1")
    by (apply (bool_decide_unpack _); vm_compute; exact I).
  assert (Hsa : stale six_minutes two_joined alice) by (vm_compute; reflexivity).
  assert (Hsb : stale six_minutes two_joined bob) by (vm_compute; reflexivity).
  assert (Hab : alice <> bob) by discriminate.
  destruct (cleanup_hands_over_two (RT := fixed_order) six_minutes alice bob
              "doc1" "doc1" two_joined two_joined_ok Hab Ha Hb Hsa Hsb)
    as (k0&Hcleanup&Htwo).
  destruct (hands_over_blocks _ _ _ _ Htwo) as (s1&w1&k1&Hout&_&_).
  exists (mkSystem w1 AtSelect (Waiting (SendUnregister s1) k1)).
  assert (Hsteps : steps (RT := fixed_order) (mkSystem two_joined AtSelect AtSelect)
            [Tick six_minutes; SweeperResumes]
            (mkSystem w1 AtSelect (Waiting (SendUnregister s1) k1))).
  { eapply steps_cons.
    - apply step_tick. rewrite Hcleanup. reflexivity.
    - eapply steps_cons; [|apply steps_nil].
      eapply step_sweeper_resumes.
      + cbn [grant]. rewrite two_joined_mu. reflexivity.
      + rewrite Hout. reflexivity. }
  split; [exact Hsteps|].
  apply (sweep_of_two_stale_sessions_never_returns (RT := fixed_order)
           two_joined six_minutes alice bob "doc1" "doc1" []
           _ two_joined_ok two_joined_mu Hab Ha Hb Hsa Hsb Hsteps).
  intros w' Hin. destruct (not_elem_of_nil _ Hin).
Defined.

(** * More of the code *)

Import Cases.

(** ** More of the update log *)

#[global] Instance created_ge_total : Total created_ge.
Proof. intros u v. unfold created_ge. lia. Qed.

#[global] Instance created_ge_trans : Transitive created_ge.
Proof. intros u v x. unfold created_ge. lia. Qed.

Lemma created_lt_strongly_le (l : list YjsUpdate) :
  StronglySorted created_lt l -> StronglySorted created_le l.
Proof.
  induction 1 as [|a l Hl IH Hall]; constructor; [done|].
  eapply Forall_impl; [exact Hall|]. unfold created_lt, created_le.
  intros u. cbv beta. lia.
Qed.

(** A list in strict order of creation is the only sorted arrangement
    of its elements. *)
Lemma created_lt_merge_sort (l l' : list YjsUpdate) :
  StronglySorted created_lt l -> l' ≡ₚ l -> merge_sort created_le l' = l.
Proof.
  intros Hsorted Hperm. apply (Sorted_unique_strong created_le).
  - intros u v Hu Hv. rewrite merge_sort_Permutation, Hperm in Hu.
    by apply (created_lt_distinct l).
  - apply Sorted_merge_sort, _.
  - by apply created_lt_sorted.
  - by rewrite merge_sort_Permutation.
Qed.

(** X1: [GetAllUpdates] answers with an error exactly when the database
    does not; otherwise with the rows of the document, each as often as
    the table holds it, the oldest first. *)
Theorem GetAllUpdates_rows_oldest_first (r : YjsRepository) (d : string) :
  match GetAllUpdates r d with
  | inl l =>
      reachable r = true
      /\ l ≡ₚ filter (fun u => yDocumentID u = d) (rows r)
      /\ StronglySorted created_le l
      /\ forall u, u ∈ l <-> u ∈ rows r /\ yDocumentID u = d
  | inr _ => reachable r = false
  end.
Proof.
  unfold GetAllUpdates. destruct (reachable r); [|reflexivity].
  split; [reflexivity|]. split; [apply merge_sort_Permutation|].
  split; [apply StronglySorted_merge_sort; apply _|].
  intros u. rewrite merge_sort_Permutation, list_elem_of_filter. tauto.
Qed.

(** X2: an update stored after all the updates of its document is the
    last one [GetAllUpdates] returns for that document from then on,
    behind the earlier ones in their order; what is returned for any
    other document is the same as before. *)
Theorem StoreUpdate_then_GetAllUpdates (r : YjsRepository) (d p : string)
    (c now : Z) (l : list YjsUpdate) :
  reachable r = true ->
  GetAllUpdates r d = inl l ->
  StronglySorted created_lt l ->
  (forall u, u ∈ l -> CreatedAt u < now) ->
  exists r',
    StoreUpdate d p c now r = inl r'
    /\ GetAllUpdates r' d = inl (l ++ [mkYjsUpdate d p c now])
    /\ forall d', d' <> d -> GetAllUpdates r' d' = GetAllUpdates r d'.
Proof.
  intros Hreach Hall Hsorted Hnow.
  unfold StoreUpdate. rewrite Hreach. eexists. split; [reflexivity|].
  unfold GetAllUpdates in *. rewrite Hreach in Hall. cbn [reachable rows].
  injection Hall as Hl. split.
  - f_equal. apply created_lt_merge_sort.
    + apply StronglySorted_app_2; [|done|repeat constructor].
      intros u v Hu ->%list_elem_of_singleton. unfold created_lt.
      cbn [CreatedAt]. by apply Hnow.
    + rewrite filter_app, filter_cons_True, filter_nil by reflexivity.
      by rewrite <- Hl, merge_sort_Permutation.
  - intros d' Hd'. rewrite Hreach, filter_app, filter_cons_False, filter_nil, app_nil_r;
      [reflexivity|]. cbn [yDocumentID]. congruence.
Qed.

Lemma head_strongly_sorted {A} (R : A -> A -> Prop) `{!Reflexive R} (l : list A) x :
  StronglySorted R l -> head l = Some x -> forall y, y ∈ l -> R x y.
Proof.
  intros Hs Hx y Hy. destruct l as [|x' l]; [done|]. injection Hx as ->.
  apply StronglySorted_inv in Hs as [_ Hall]. rewrite Forall_forall in Hall.
  apply elem_of_cons in Hy as [->|Hy]; [reflexivity|by apply Hall].
Qed.

#[global] Instance created_ge_refl : Reflexive created_ge.
Proof. intros u. unfold created_ge. lia. Qed.

(** X3: [GetLatestUpdate] answers [nil] without an error exactly when
    the document has no update; otherwise it answers with an update of
    the document that no other update of the document is newer than. *)
Theorem GetLatestUpdate_newest (r : YjsRepository) (d : string) :
  match GetLatestUpdate r d with
  | inl None =>
      reachable r = true /\ forall u, u ∈ rows r -> yDocumentID u <> d
  | inl (Some u) =>
      reachable r = true /\ u ∈ rows r /\ yDocumentID u = d
      /\ forall v, v ∈ rows r -> yDocumentID v = d -> CreatedAt v <= CreatedAt u
  | inr _ => reachable r = false
  end.
Proof.
  unfold GetLatestUpdate. destruct (reachable r); [|reflexivity].
  set (mine := filter (fun u => yDocumentID u = d) (rows r)).
  pose proof (merge_sort_Permutation created_ge mine) as Hperm.
  pose proof (StronglySorted_merge_sort created_ge mine) as Hsorted.
  destruct (head (merge_sort created_ge mine)) as [u|] eqn:Hhead.
  - split; [reflexivity|].
    assert (Hu : u ∈ mine).
    { rewrite <- Hperm. by apply head_Some_elem_of. }
    apply list_elem_of_filter in Hu as [Hd Hu]. split; [done|]. split; [done|].
    intros v Hv Hvd.
    apply (head_strongly_sorted created_ge _ u Hsorted Hhead).
    rewrite Hperm. apply list_elem_of_filter. done.
  - split; [reflexivity|]. intros u Hu Hd.
    apply head_None in Hhead. rewrite Hhead in Hperm.
    apply Permutation_nil_l in Hperm.
    assert (u ∈ mine) as Hin by (apply list_elem_of_filter; done).
    rewrite <- Hperm in Hin. by apply elem_of_nil in Hin.
Qed.

Lemma filter_all {A} (P : A -> Prop) `{!forall x, Decision (P x)} (l : list A) :
  (forall x, x ∈ l -> P x) -> filter P l = l.
Proof.
  induction l as [|x l IH]; intros Hl; [done|].
  rewrite filter_cons_True by (apply Hl; left). f_equal. apply IH.
  intros y Hy. apply Hl. by right.
Qed.

Lemma filter_none {A} (P : A -> Prop) `{!forall x, Decision (P x)} (l : list A) :
  (forall x, x ∈ l -> ~ P x) -> filter P l = [].
Proof.
  induction l as [|x l IH]; intros Hl; [done|].
  rewrite filter_cons_False by (apply Hl; left). apply IH.
  intros y Hy. apply Hl. by right.
Qed.

(** In a list in strict order of creation, the elements not older than
    the one at position [k] are those from position [k] on. *)
Lemma created_lt_filter_drop (l : list YjsUpdate) :
  StronglySorted created_lt l ->
  forall k cut, l !! k = Some cut ->
  filter (fun u => ~ CreatedAt u < CreatedAt cut) l = drop k l.
Proof.
  induction 1 as [|a l Hl IH Hall]; intros k cut Hk; [done|].
  rewrite Forall_forall in Hall. destruct k as [|k].
  - injection Hk as ->. rewrite filter_cons_True by lia. cbn [drop]. f_equal.
    apply filter_all. intros x Hx. specialize (Hall x Hx).
    unfold created_lt in Hall. lia.
  - cbn [lookup list_lookup] in Hk. cbn [drop].
    rewrite filter_cons_False.
    + by apply IH.
    + intros Hge. apply Hge.
      apply list_elem_of_lookup_2 in Hk. specialize (Hall cut Hk).
      exact Hall.
Qed.

(** The rows [DeleteOldUpdates] leaves, for updates stored at distinct,
    increasing times. *)
Lemma DeleteOldUpdates_rows (r : YjsRepository) (d : string)
    (keepCount : Z) (l : list YjsUpdate) :
  reachable r = true ->
  filter (fun u => yDocumentID u = d) (rows r) = l ->
  StronglySorted created_lt l ->
  0 < keepCount ->
  exists r',
    DeleteOldUpdates r d keepCount = inl r'
    /\ reachable r' = true
    /\ filter (fun u => yDocumentID u = d) (rows r')
       = drop (length l - Z.to_nat keepCount) l
    /\ forall d', d' <> d ->
         filter (fun u => yDocumentID u = d') (rows r')
         = filter (fun u => yDocumentID u = d') (rows r).
Proof.
  intros Hreach Hrows Hsorted Hkeep.
  unfold DeleteOldUpdates. rewrite Hreach, Hrows. cbv zeta.
  destruct (decide (Z.of_nat (length l) <= keepCount)) as [Hle|Hgt].
  - exists r. split; [reflexivity|]. split; [exact Hreach|].
    replace (length l - Z.to_nat keepCount)%nat with 0%nat by lia.
    cbn [drop]. split; [exact Hrows|done].
  - rewrite (created_lt_merge_sort l l Hsorted (reflexivity _)).
    replace (Z.to_nat (Z.of_nat (length l) - keepCount))
      with (length l - Z.to_nat keepCount)%nat by lia.
    set (k := (length l - Z.to_nat keepCount)%nat).
    destruct (lookup_lt_is_Some_2 l k) as [cut Hcut]; [unfold k; lia|].
    rewrite Hcut. eexists. split; [reflexivity|]. split; [reflexivity|].
    cbn [rows]. split.
    + rewrite <- (created_lt_filter_drop l Hsorted k cut Hcut), <- Hrows.
      rewrite !list_filter_filter. apply list_filter_iff. intros u. tauto.
    + intros d' Hd'. apply list_filter_filter_l. intros u Hu [Hd _]. congruence.
Qed.

(** X4: with the updates of a document stored at distinct, increasing
    times, [DeleteOldUpdates] with a positive [keepCount] leaves exactly
    the newest [keepCount] of them (all of them when there are no more),
    in their order, and the updates of every other document as they
    were. *)
Theorem DeleteOldUpdates_keeps_newest (r : YjsRepository) (d : string)
    (keepCount : Z) (l : list YjsUpdate) :
  reachable r = true ->
  filter (fun u => yDocumentID u = d) (rows r) = l ->
  StronglySorted created_lt l ->
  0 < keepCount ->
  exists r',
    DeleteOldUpdates r d keepCount = inl r'
    /\ GetAllUpdates r' d = inl (drop (length l - Z.to_nat keepCount) l)
    /\ forall d', d' <> d -> GetAllUpdates r' d' = GetAllUpdates r d'.
Proof.
  intros Hreach Hrows Hsorted Hkeep.
  destruct (DeleteOldUpdates_rows r d keepCount l Hreach Hrows Hsorted Hkeep)
    as (r'&Hdel&Hreach'&Hmine&Hothers).
  exists r'. split; [exact Hdel|]. split.
  - apply GetAllUpdates_in_order; [exact Hreach'|exact Hmine|].
    rewrite <- (take_drop (length l - Z.to_nat keepCount) l) in Hsorted.
    by apply StronglySorted_app_1_r in Hsorted.
  - intros d' Hd'. unfold GetAllUpdates. by rewrite Hreach, Hreach', Hothers.
Qed.

Lemma created_lt_reverse (l : list YjsUpdate) :
  StronglySorted created_lt l -> StronglySorted created_ge (reverse l).
Proof.
  induction 1 as [|a l Hl IH Hall]; [constructor|].
  rewrite reverse_cons. apply StronglySorted_app_2; [|exact IH|repeat constructor].
  intros u v Hu ->%list_elem_of_singleton.
  rewrite elem_of_reverse in Hu.
  rewrite Forall_forall in Hall. specialize (Hall u Hu).
  unfold created_lt in Hall. unfold created_ge. lia.
Qed.

(** For updates stored at distinct, increasing times the latest update
    is the last one stored. *)
Lemma GetLatestUpdate_last (r : YjsRepository) (d : string) (l : list YjsUpdate) :
  reachable r = true ->
  filter (fun u => yDocumentID u = d) (rows r) = l ->
  StronglySorted created_lt l ->
  GetLatestUpdate r d = inl (last l).
Proof.
  intros Hreach Hrows Hsorted. unfold GetLatestUpdate. rewrite Hreach, Hrows.
  f_equal. rewrite <- head_reverse. f_equal.
  apply (Sorted_unique_strong created_ge).
  - intros u v Hu Hv Huv Hvu. rewrite merge_sort_Permutation in Hu.
    apply (created_lt_distinct l Hsorted); [done| |done|done].
    by apply elem_of_reverse.
  - apply Sorted_merge_sort, _.
  - by apply StronglySorted_Sorted, created_lt_reverse.
  - by rewrite merge_sort_Permutation, reverse_Permutation.
Qed.

(** X24: the newest update survives every purge: with the updates of a
    document stored at distinct times and a positive [keepCount],
    [GetLatestUpdate] returns the same update after [DeleteOldUpdates]
    as before. *)
Theorem DeleteOldUpdates_keeps_latest (r : YjsRepository) (d : string)
    (keepCount : Z) (l : list YjsUpdate) :
  reachable r = true ->
  filter (fun u => yDocumentID u = d) (rows r) = l ->
  StronglySorted created_lt l ->
  0 < keepCount ->
  exists r',
    DeleteOldUpdates r d keepCount = inl r'
    /\ GetLatestUpdate r' d = GetLatestUpdate r d.
Proof.
  intros Hreach Hrows Hsorted Hkeep.
  destruct (DeleteOldUpdates_rows r d keepCount l Hreach Hrows Hsorted Hkeep)
    as (r'&Hdel&Hreach'&Hmine&_).
  exists r'. split; [exact Hdel|].
  rewrite (GetLatestUpdate_last r d l Hreach Hrows Hsorted).
  set (k := (length l - Z.to_nat keepCount)%nat) in *.
  rewrite (GetLatestUpdate_last r' d (drop k l) Hreach' Hmine).
  2:{ rewrite <- (take_drop k l) in Hsorted.
      by apply StronglySorted_app_1_r in Hsorted. }
  f_equal. destruct (decide (length l = 0%nat)) as [Hz|Hnz].
  { apply nil_length_inv in Hz. unfold k. rewrite Hz. reflexivity. }
  rewrite !last_lookup, lookup_drop, length_drop. f_equal. unfold k. lia.
Qed.

(** X5: [DeleteOldUpdates] cannot remove every update of a document:
    with a [keepCount] of zero or less and at least one update stored
    for the document it returns an error, and nothing is deleted. *)
Theorem DeleteOldUpdates_keep_none_fails (r : YjsRepository) (d : string)
    (keepCount : Z) (u : YjsUpdate) :
  reachable r = true ->
  u ∈ rows r -> yDocumentID u = d ->
  keepCount <= 0 ->
  Z.of_nat (length (rows r)) - keepCount < 2 ^ 63 ->
  DeleteOldUpdates r d keepCount = inr tt.
Proof.
  intros Hreach Hu Hd Hkeep _. unfold DeleteOldUpdates. rewrite Hreach. cbv zeta.
  set (mine := filter (fun u => yDocumentID u = d) (rows r)).
  assert (Hmine : (0 < length mine)%nat).
  { assert (u ∈ mine) as Hin by (apply list_elem_of_filter; done).
    destruct mine; [by apply elem_of_nil in Hin|cbn [length]; lia]. }
  destruct (decide _) as [Hle|_]; [lia|].
  rewrite (lookup_ge_None_2 (merge_sort created_le mine)); [reflexivity|].
  rewrite (Permutation_length (merge_sort_Permutation created_le mine)). lia.
Qed.

Lemma created_lt_filter_after (before after : list YjsUpdate) (ref : YjsUpdate) :
  StronglySorted created_lt (before ++ ref :: after) ->
  filter (fun u => CreatedAt ref < CreatedAt u) (before ++ ref :: after) = after.
Proof.
  intros Hsorted. apply StronglySorted_app in Hsorted as (Hcross&_&Htail).
  apply StronglySorted_inv in Htail as [_ Hafter]. rewrite Forall_forall in Hafter.
  rewrite filter_app, filter_cons_False by lia.
  rewrite filter_none, filter_all; [reflexivity| |].
  - intros x Hx. exact (Hafter x Hx).
  - intros x Hx. specialize (Hcross x ref Hx (list_elem_of_here _ _)).
    unfold created_lt in Hcross. lia.
Qed.

(** X6: initial and incremental sync fit together.  With the updates of
    a document stored at distinct times, [GetUpdatesAfter] with the id
    of one of them returns exactly the updates that follow it in what
    [GetAllUpdates] returns, in the same order. *)
Theorem GetUpdatesAfter_is_the_rest (t : YjsTable) (d afterID : string)
    (before after : list YjsUpdate) (ref : YjsUpdate) :
  answers t = true ->
  find_update t afterID = Some ref ->
  GetAllUpdates (repository t) d = inl (before ++ ref :: after) ->
  StronglySorted created_lt (before ++ ref :: after) ->
  GetUpdatesAfter t d afterID = inl after.
Proof.
  intros Hanswers Hfind Hall Hsorted.
  unfold GetUpdatesAfter. rewrite Hanswers, Hfind. f_equal.
  unfold GetAllUpdates, repository in Hall. cbn [reachable rows] in Hall.
  rewrite Hanswers in Hall. injection Hall as Hall.
  apply created_lt_merge_sort.
  - apply StronglySorted_app_1_r in Hsorted.
    by apply StronglySorted_inv in Hsorted as [? _].
  - rewrite <- (created_lt_filter_after before after ref Hsorted), <- Hall.
    rewrite merge_sort_Permutation, list_filter_filter.
    erewrite list_filter_iff; [reflexivity|]. intros u. cbv beta. tauto.
Qed.

(** X7: [GetUpdatesAfter] answers with an error when the database does
    not answer or holds no update with the given id; otherwise with the
    updates of the document that were created strictly after the
    reference update, the oldest first.  An update created at the same
    instant as the reference is not among them, and the reference need
    not be an update of the document. *)
Theorem GetUpdatesAfter_strictly_later (t : YjsTable) (d afterID : string) :
  match GetUpdatesAfter t d afterID with
  | inl l =>
      answers t = true
      /\ exists ref,
           find_update t afterID = Some ref
           /\ StronglySorted created_le l
           /\ forall u, u ∈ l <->
                        u ∈ rows (repository t) /\ yDocumentID u = d
                        /\ CreatedAt ref < CreatedAt u
  | inr _ => answers t = false \/ find_update t afterID = None
  end.
Proof.
  unfold GetUpdatesAfter. destruct (answers t); [|by left].
  destruct (find_update t afterID) as [ref|]; [|by right].
  split; [reflexivity|]. exists ref. split; [reflexivity|].
  split; [apply StronglySorted_merge_sort; apply _|].
  intros u. rewrite merge_sort_Permutation, list_elem_of_filter.
  unfold repository. cbn [rows]. tauto.
Qed.

Lemma update_log_doc1 :
  filter (fun u => yDocumentID u = "doc1"%string) (rows update_log)
  = [P1_update; P2_update].
Proof. vm_compute. reflexivity. Qed.

Lemma P1_P2_sorted : StronglySorted created_lt [P1_update; P2_update].
Proof.
  repeat constructor.
Qed.

Lemma update_log_all : GetAllUpdates update_log "doc1" = inl [P1_update; P2_update].
Proof.
  apply GetAllUpdates_in_order;
    [reflexivity|exact update_log_doc1|exact P1_P2_sorted].
Qed.

(** X2, witness: a third update for "doc1", stored at time 300. *)
Lemma StoreUpdate_then_GetAllUpdates_witness :
  exists r',
    StoreUpdate "doc1" "P3" 3 300 update_log = inl r'
    /\ GetAllUpdates r' "doc1"
       = inl ([P1_update; P2_update] ++ [mkYjsUpdate "doc1" "P3" 3 300])
    /\ forall d', d' <> "doc1"%string ->
                  GetAllUpdates r' d' = GetAllUpdates update_log d'.
Proof.
  apply (StoreUpdate_then_GetAllUpdates update_log "doc1" "P3" 3 300
           [P1_update; P2_update] eq_refl update_log_all P1_P2_sorted).
  intros u Hu. apply elem_of_cons in Hu as [->|Hu]; [vm_compute; reflexivity|].
  apply list_elem_of_singleton in Hu as ->. vm_compute. reflexivity.
Defined.

(** X4, witness: of P1 and P2 only P2 is kept. *)
Lemma DeleteOldUpdates_keeps_newest_witness :
  exists r',
    DeleteOldUpdates update_log "doc1" 1 = inl r'
    /\ GetAllUpdates r' "doc1" = inl [P2_update]
    /\ forall d', d' <> "doc1"%string ->
                  GetAllUpdates r' d' = GetAllUpdates update_log d'.
Proof.
  apply (DeleteOldUpdates_keeps_newest update_log "doc1" 1 [P1_update; P2_update]
           eq_refl update_log_doc1 P1_P2_sorted).
  lia.
Defined.

(** X24, witness: P2 is the latest update of "doc1" before and after. *)
Lemma DeleteOldUpdates_keeps_latest_witness :
  exists r',
    DeleteOldUpdates update_log "doc1" 1 = inl r'
    /\ GetLatestUpdate r' "doc1" = GetLatestUpdate update_log "doc1".
Proof.
  apply (DeleteOldUpdates_keeps_latest update_log "doc1" 1 [P1_update; P2_update]
           eq_refl update_log_doc1 P1_P2_sorted).
  lia.
Defined.

(** X5, witness: asking to keep none of the updates of "doc1". *)
Lemma DeleteOldUpdates_keep_none_fails_witness :
  DeleteOldUpdates update_log "doc1" 0 = inr tt.
Proof.
  apply (DeleteOldUpdates_keep_none_fails update_log "doc1" 0 P1_update eq_refl).
  - apply list_elem_of_here.
  - reflexivity.
  - lia.
  - vm_compute. reflexivity.
Defined.

(** X6, witness: after P1, the rest of "doc1" is P2. *)
Lemma GetUpdatesAfter_is_the_rest_witness :
  GetUpdatesAfter update_table "doc1" "k1" = inl [P2_update].
Proof.
  apply (GetUpdatesAfter_is_the_rest update_table "doc1" "k1" [] [P2_update]
           P1_update eq_refl).
  - vm_compute. reflexivity.
  - exact update_log_all.
  - exact P1_P2_sorted.
Defined.

(** ** More of the session manager *)

Section MoreDelivery.
Context {RT : GoRuntime}.

Lemma deliver_loop_skips (msg : BroadcastMessage) (xs : list Session) (w : World) :
  (forall x, x ∈ xs -> Sender msg = Some x) ->
  run (for_each xs (deliver msg)) w = Finished tt w.
Proof.
  induction xs as [|x xs IH]; intros Hall; [apply run_for_each_nil|].
  rewrite run_for_each_cons, deliver_run.
  destruct (decide (Sender msg = Some x)) as [_|Hne].
  - apply IH. intros y Hy. apply Hall. by right.
  - exfalso. apply Hne, Hall. left.
Qed.

(** X8: a broadcast for a document that has no room, or no member other
    than the sender, returns and changes nothing. *)
Theorem broadcast_to_nobody (w : World) (msg : BroadcastMessage) :
  mu w = false ->
  recipients w msg = ∅ ->
  run (handleBroadcast msg) w = Finished tt w.
Proof.
  intros Hmu Hnone. rewrite handleBroadcast_run, Hmu.
  apply deliver_loop_skips. intros x Hx.
  destruct (decide (Sender msg = Some x)) as [Hs|Hs]; [exact Hs|].
  assert (x ∈ recipients w msg) as Hin by (apply elem_of_recipients; done).
  rewrite Hnone in Hin. by apply not_elem_of_empty in Hin.
Qed.

(** X9: [GetSessions] lists the members of the room of the document,
    each once, and nothing for a document without a room; a session
    whose register has returned is listed for its document. *)
Theorem GetSessions_lists_members (w : World) (d : string) :
  NoDup (GetSessions d w)
  /\ (forall x, x ∈ GetSessions d w <-> x ∈ room w d)
  /\ length (GetSessions d w) = size (room w d)
  /\ (documents w !! d = None -> GetSessions d w = [])
  /\ forall s w', run (handleRegister s) w = Finished tt w' ->
                  s ∈ GetSessions (DocumentID s) w'.
Proof.
  unfold GetSessions. split; [apply NoDup_range_sessions|].
  split; [intros x; apply elem_of_range_sessions|].
  split; [by rewrite range_sessions_perm|].
  split.
  - intros Hnone. unfold room. rewrite Hnone. cbn [default from_option id].
    apply Permutation_nil_r. rewrite range_sessions_perm.
    by rewrite elements_empty.
  - intros s w'. rewrite handleRegister_run. destruct (mu w); [done|].
    cbv zeta. destruct (decide _); [|done]. intros [= <-].
    apply elem_of_range_sessions. unfold room, announce. world_simpl.
    rewrite joined_documents, lookup_insert_eq. cbn [default from_option id].
    apply elem_of_union_l, elem_of_singleton. reflexivity.
Qed.

End MoreDelivery.

(** X10: [UpdateAwareness] sets the entry of its document and client id
    and no other: every other entry of the store reads as before. *)
Theorem UpdateAwareness_sets_one_entry (w : World) (d : string) (c : Z)
    (st : AwarenessState) (d' : string) (c' : Z) :
  store_wf w ->
  awareness_entry (UpdateAwareness d c st w) d' c'
  = if decide (d' = d /\ c' = c) then Some st else awareness_entry w d' c'.
Proof.
  intros Hwf. destruct (decide (d' = d /\ c' = c)) as [[-> ->]|Hne].
  { by apply UpdateAwareness_entry. }
  destruct Hwf as [Hmaps Hinj].
  unfold awareness_entry, GetAwareness, deref.
  destruct (awareness w !! d) as [l|] eqn:Hd.
  - rewrite (UpdateAwareness_known _ _ _ _ _ Hd). world_simpl.
    destruct (awareness w !! d') as [l'|] eqn:Hd'; [|reflexivity].
    destruct (decide (l' = l)) as [->|Hl].
    + assert (d' = d) as -> by (by apply (Hinj d' d l)).
      rewrite lookup_alter_eq.
      destruct (amaps w !! l) as [m|]; cbn [fmap option_fmap option_map default from_option id].
      * apply lookup_insert_ne. intros ->. by apply Hne.
      * destruct (Hmaps d l Hd) as [? ?]. done.
    + by rewrite lookup_alter_ne.
  - rewrite (UpdateAwareness_unknown _ _ _ _ Hd). world_simpl.
    destruct (decide (d' = d)) as [->|Hdd].
    + rewrite lookup_insert_eq, lookup_alter_eq, lookup_insert_eq, Hd.
      cbn [fmap option_fmap option_map default from_option id].
      rewrite lookup_insert_ne, !lookup_empty; [reflexivity|].
      intros ->. by apply Hne.
    + rewrite lookup_insert_ne by done.
      destruct (awareness w !! d') as [l'|] eqn:Hd'; [|reflexivity].
      assert (l' <> new_loc w) as Hfresh.
      { intros ->. destruct (Hmaps d' _ Hd') as [m Hm].
        by rewrite new_loc_fresh in Hm. }
      by rewrite lookup_alter_ne, lookup_insert_ne.
Qed.

Section MoreRegistry.
Context {RT : GoRuntime}.

Lemma dispatch_awareness (c : Command) (w : World) :
  leaves (run (dispatch c) w) (fun w' => awareness w' = awareness w).
Proof.
  destruct c as [s|s|].
  - cbn [dispatch]. rewrite handleRegister_run.
    destruct (mu w); [reflexivity|]. cbv zeta.
    destruct (decide _); reflexivity.
  - cbn [dispatch]. rewrite handleUnregister_run.
    destruct (mu w); [reflexivity|].
    destruct (documents w !! DocumentID s) as [sessions|]; [|reflexivity].
    destruct (decide _); [|reflexivity].
    destruct (Send w !! s) as [ch|]; [|exact I].
    destruct (closed ch); [exact I|]. cbv zeta.
    destruct (decide _); reflexivity.
  - rewrite dispatch_Deliver_run.
    destruct (broadcast w) as [|msg pending]; [reflexivity|].
    eapply leaves_impl; [|apply handleBroadcast_frame].
    intros w' (_&_&_&Haw&_). exact Haw.
Qed.

Lemma Start_awareness (cs : list Command) :
  forall w, leaves (run (Start cs) w) (fun w' => awareness w' = awareness w).
Proof.
  unfold Start. induction cs as [|c cs IH]; intros w.
  - rewrite run_for_each_nil. reflexivity.
  - rewrite run_for_each_cons.
    pose proof (dispatch_awareness c w) as Hc.
    destruct (run (dispatch c) w) as [[] w1|r w1|]; [|exact Hc|exact I].
    cbn [leaves] in Hc. specialize (IH w1).
    eapply leaves_impl; [|exact IH]. intros w' ->. exact Hc.
Qed.

(** X11: the hub never removes the awareness map of a document, not
    even when its last member leaves and its room is deleted: whatever
    commands the hub runs, [GetAwareness] returns the same reference as
    before; and once a document has a map, no [UpdateAwareness]
    replaces it. *)
Theorem awareness_map_is_never_removed (w0 : World) (cs : list Command) (d : string) :
  leaves (run (Start cs) w0) (fun w => GetAwareness d w = GetAwareness d w0)
  /\ forall d' c st,
       is_Some (GetAwareness d w0) ->
       GetAwareness d (UpdateAwareness d' c st w0) = GetAwareness d w0.
Proof.
  split.
  - eapply leaves_impl; [|apply Start_awareness].
    intros w Haw. unfold GetAwareness. by rewrite Haw.
  - intros d' c st [l Hl]. unfold GetAwareness in *.
    destruct (awareness w0 !! d') as [l'|] eqn:Hd'.
    + by rewrite (UpdateAwareness_known _ _ _ _ _ Hd').
    + rewrite (UpdateAwareness_unknown _ _ _ _ Hd'). world_simpl.
      rewrite lookup_insert_ne; [done|]. intros ->. congruence.
Qed.

End MoreRegistry.



(** ** The sweeper when at most one session is stale *)

Section Quiet.
Context {RT : GoRuntime}.
Context (now : Z).

Lemma sweep_all_quiet (xs : list Session) (w : World) :
  (forall x, x ∈ xs -> ~ stale now w x) ->
  for_each xs (sweep now) w = Ret tt w.
Proof.
  induction xs as [|x xs IH]; intros Hq; [reflexivity|].
  change (for_each (x :: xs) (sweep now) w)
    with (bindO (sweep now x w) (fun _ => for_each xs (sweep now))).
  rewrite sweep_outcome, decide_False by (apply Hq; left).
  cbn [bindO]. apply IH. intros y Hy. apply Hq. by right.
Qed.

Lemma sweep_all_single (a : Session) (xs : list Session) (w : World) :
  NoDup xs -> a ∈ xs -> stale now w a ->
  (forall x, x ∈ xs -> x <> a -> ~ stale now w x) ->
  exists k,
    for_each xs (sweep now) w
    = Block (SendUnregister a) (add_log (LogCleaning a) w) k
    /\ forall w', (forall x, x ∈ xs -> x <> a -> ~ stale now w' x) ->
                  k w' = Ret tt w'.
Proof.
  induction 1 as [|x xs Hx Hnd IH]; intros Ha Hsa Hq;
    [by apply elem_of_nil in Ha|].
  change (for_each (x :: xs) (sweep now) w)
    with (bindO (sweep now x w) (fun _ => for_each xs (sweep now))).
  destruct (decide (x = a)) as [->|Hxa].
  - rewrite sweep_outcome, decide_True by exact Hsa. cbn [bindO].
    eexists. split; [reflexivity|]. intros w' Hq'. cbn [bindO].
    apply sweep_all_quiet. intros y Hy. apply Hq'; [by right|].
    intros ->. contradiction.
  - rewrite sweep_outcome, decide_False by (apply Hq; [left|done]).
    cbn [bindO]. apply elem_of_cons in Ha as [->|Ha]; [done|].
    destruct IH as (k&Hk&Hk'); [exact Ha|exact Hsa| |].
    { intros y Hy. apply Hq. by right. }
    exists k. split; [exact Hk|]. intros w' Hq'. apply Hk'.
    intros y Hy. apply Hq'. by right.
Qed.

Lemma sweep_room_outcome (docID : string) (sessions : gset Session) (w : World) :
  sweep_room now (docID, sessions) w
  = bindO (for_each (range_sessions sessions) (sweep now) w)
      (fun _ => if decide (size sessions = 0%nat)
                then modify (set_documents (delete docID))
                else ret tt).
Proof. reflexivity. Qed.

Lemma sweep_room_quiet (docID : string) (sessions : gset Session) (w : World) :
  sessions <> ∅ ->
  (forall x, x ∈ sessions -> ~ stale now w x) ->
  sweep_room now (docID, sessions) w = Ret tt w.
Proof.
  intros Hne Hq. rewrite sweep_room_outcome, sweep_all_quiet.
  - cbn [bindO]. rewrite decide_False; [reflexivity|].
    intros Hz. apply Hne. apply size_empty_inv in Hz. by apply leibniz_equiv.
  - intros x Hx. apply Hq. by apply elem_of_range_sessions.
Qed.

Lemma sweep_room_single (a : Session) (docID : string) (sessions : gset Session)
    (w : World) :
  a ∈ sessions -> stale now w a ->
  (forall x, x ∈ sessions -> x <> a -> ~ stale now w x) ->
  exists k,
    sweep_room now (docID, sessions) w
    = Block (SendUnregister a) (add_log (LogCleaning a) w) k
    /\ forall w', (forall x, x ∈ sessions -> x <> a -> ~ stale now w' x) ->
                  k w' = Ret tt w'.
Proof.
  intros Ha Hsa Hq.
  destruct (sweep_all_single a (range_sessions sessions) w) as (k&Hk&Hk').
  { apply NoDup_range_sessions. }
  { by apply elem_of_range_sessions. }
  { exact Hsa. }
  { intros x Hx. apply Hq. by apply elem_of_range_sessions. }
  rewrite sweep_room_outcome, Hk. cbn [bindO]. eexists. split; [reflexivity|].
  intros w' Hq'. cbv beta. rewrite Hk'.
  - cbn [bindO]. rewrite decide_False; [reflexivity|].
    intros Hz. apply size_empty_inv in Hz. apply leibniz_equiv in Hz.
    rewrite Hz in Ha. by apply not_elem_of_empty in Ha.
  - intros x Hx. apply Hq'. by apply elem_of_range_sessions.
Qed.

Lemma sweep_rooms_quiet (rs : list (string * gset Session)) (w : World) :
  rooms_ok rs ->
  (forall d X x, (d, X) ∈ rs -> x ∈ X -> ~ stale now w x) ->
  for_each rs (sweep_room now) w = Ret tt w.
Proof.
  induction rs as [|[d X] rs IH]; intros Hok Hq; [reflexivity|].
  change (for_each ((d, X) :: rs) (sweep_room now) w)
    with (bindO (sweep_room now (d, X) w) (fun _ => for_each rs (sweep_room now))).
  rewrite sweep_room_quiet.
  - cbn [bindO]. apply IH.
    + intros d' X' Hin. apply (Hok d' X'). by right.
    + intros d' X' x Hin. apply (Hq d' X' x). by right.
  - apply (Hok d X). left.
  - intros x Hx. apply (Hq d X x); [left|done].
Qed.

Lemma sweep_rooms_single (a : Session) (rs : list (string * gset Session)) (w : World) :
  rooms_ok rs ->
  (exists d X, (d, X) ∈ rs /\ a ∈ X) ->
  (forall d1 X1 d2 X2, (d1, X1) ∈ rs -> (d2, X2) ∈ rs -> a ∈ X1 -> a ∈ X2 ->
                       (d1, X1) = (d2, X2)) ->
  NoDup rs ->
  stale now w a ->
  (forall d X x, (d, X) ∈ rs -> x ∈ X -> x <> a -> ~ stale now w x) ->
  exists k,
    for_each rs (sweep_room now) w
    = Block (SendUnregister a) (add_log (LogCleaning a) w) k
    /\ forall w', (forall d X x, (d, X) ∈ rs -> x ∈ X -> x <> a -> ~ stale now w' x) ->
                  k w' = Ret tt w'.
Proof.
  induction rs as [|[d X] rs IH]; intros Hok (da&Xa&Hin&Ha) Huniq Hnd Hsa Hq;
    [by apply elem_of_nil in Hin|].
  change (for_each ((d, X) :: rs) (sweep_room now) w)
    with (bindO (sweep_room now (d, X) w) (fun _ => for_each rs (sweep_room now))).
  apply NoDup_cons in Hnd as [Hfresh Hnd].
  assert (Hok' : rooms_ok rs).
  { intros d' X' Hin'. apply (Hok d' X'). by right. }
  destruct (decide (a ∈ X)) as [HaX|HaX].
  - destruct (sweep_room_single a d X w HaX Hsa) as (k&Hk&Hk').
    { intros x Hx. apply (Hq d X x); [left|done]. }
    rewrite Hk. cbn [bindO]. eexists. split; [reflexivity|].
    intros w' Hq'. cbv beta. rewrite Hk'.
    + cbn [bindO]. apply sweep_rooms_quiet; [exact Hok'|].
      intros d' X' x Hin' Hx. apply (Hq' d' X' x); [by right|done|].
      intros ->. apply Hfresh.
      rewrite (Huniq d X d' X'); [exact Hin'|left|by right|done|done].
    + intros x Hx. apply (Hq' d X x); [left|done].
  - rewrite sweep_room_quiet.
    + cbn [bindO]. destruct IH as (k&Hk&Hk'); [exact Hok'| | |exact Hnd|exact Hsa| |].
      * apply elem_of_cons in Hin as [[= <- <-]|Hin]; [done|]. by exists da, Xa.
      * intros d1 X1 d2 X2 H1 H2. apply Huniq; by right.
      * intros d' X' x Hin'. apply (Hq d' X' x). by right.
      * exists k. split; [exact Hk|]. intros w' Hq'. apply Hk'.
        intros d' X' x Hin'. apply (Hq' d' X' x). by right.
    + apply (Hok d X). left.
    + intros x Hx. destruct (decide (x = a)) as [->|Hxa]; [done|].
      apply (Hq d X x); [left|done|done].
Qed.

Lemma cleanup_outcome (w : World) :
  cleanup now w
  = Block AcquireMu w (fun w' =>
      bindO (for_each (range_rooms (documents w')) (sweep_room now) w')
            (fun _ => unlock_mu)).
Proof. reflexivity. Qed.

Lemma registry_rooms_ok (w : World) :
  registry_ok w -> rooms_ok (range_rooms (documents w)).
Proof. intros Hok d X HX%elem_of_range_rooms. by apply (Hok d X). Qed.

(** X13: a sweep that finds the lock free and no session inactive for
    longer than the timeout returns and changes nothing. *)
Theorem sweep_without_stale_sessions (w : World) :
  registry_ok w -> mu w = false ->
  (forall d x, x ∈ room w d -> ~ stale now w x) ->
  run (cleanup now) w = Finished tt w.
Proof.
  intros Hok Hmu Hq. unfold run. rewrite cleanup_outcome.
  cbn [runO grant]. rewrite Hmu. world_simpl.
  rewrite sweep_rooms_quiet.
  - cbn [bindO]. unfold unlock_mu, modify. cbn [runO]. f_equal.
    apply world_ext; world_simpl; try reflexivity. by rewrite Hmu.
  - by apply registry_rooms_ok.
  - intros d X x HX%elem_of_range_rooms Hx.
    assert (Hs : ~ stale now w x).
    { apply (Hq d). unfold room. by rewrite HX. }
    exact Hs.
Qed.

(** X25: a session that answers the pings is not evicted.  Once its
    read pump has run the pong handler at time [t], a sweep at any time
    up to the timeout after [t] leaves the session where it is, however
    long it had been inactive before, provided no other session is
    stale. *)
Theorem pong_keeps_session (w : World) (s : Session) (t : Z) :
  registry_ok w -> mu w = false ->
  now - t <= timeout ->
  (forall d x, x ∈ room w d -> x <> s -> ~ stale now w x) ->
  exists w1,
    run (onIncoming s (Pong t)) w = Finished [] w1
    /\ LastActiveAt w1 !! s = Some t
    /\ run (cleanup now) w1 = Finished tt w1.
Proof.
  intros Hok Hmu Hrecent Hothers.
  exists (set_LastActiveAt <[s := t]> w). split.
  { cbn [onIncoming]. run_steps. reflexivity. }
  split; [world_simpl; apply lookup_insert_eq|].
  set (w1 := set_LastActiveAt <[s := t]> w).
  assert (Hok1 : registry_ok w1) by (by apply (registry_ok_documents w)).
  assert (Hmu1 : mu w1 = false) by exact Hmu.
  assert (Hq : forall d x, x ∈ room w1 d -> ~ stale now w1 x).
  { intros d x Hx. unfold stale, last_active, w1. world_simpl.
    destruct (decide (x = s)) as [->|Hne].
    - rewrite lookup_insert_eq. cbn [default from_option id]. lia.
    - rewrite lookup_insert_ne by done. by apply (Hothers d). }
  clearbody w1.
  unfold run. rewrite cleanup_outcome.
  cbn [runO grant]. rewrite Hmu1. world_simpl.
  rewrite sweep_rooms_quiet.
  - cbn [bindO]. unfold unlock_mu, modify. cbn [runO]. f_equal.
    apply world_ext; world_simpl; try reflexivity. by rewrite Hmu1.
  - by apply registry_rooms_ok.
  - intros d X x HX%elem_of_range_rooms Hx.
    apply (Hq d). unfold room. by rewrite HX.
Qed.

End Quiet.

Section Eviction.
Context {RT : GoRuntime}.

(** A handler that returns when the hub runs alone is a run of the
    system in which the hub's requests are granted one by one. *)
Lemma hub_finishes (o : Outcome unit) :
  forall w0 g0 sw w',
  park o = Some (w0, g0) ->
  runO o = Finished tt w' ->
  exists n, steps (mkSystem w0 g0 sw) (replicate n HubResumes)
                  (mkSystem w' AtSelect sw).
Proof.
  induction o as [[] w | q w k IH |]; intros w0 g0 sw w' Hpark Hrun;
    simpl in *; try discriminate.
  - injection Hpark as <- <-. injection Hrun as <-. exists 0%nat. constructor.
  - injection Hpark as <- <-.
    destruct (grant q w) as [w1| |] eqn:Hgrant; try discriminate.
    destruct (park (k w1)) as [[w2 g2]|] eqn:Hpark1.
    + destruct (IH w1 w2 g2 sw w' Hpark1 Hrun) as (n&Hsteps).
      exists (S n). simpl. eapply steps_cons; [|exact Hsteps].
      eapply step_hub_resumes; eassumption.
    + destruct (k w1); simpl in *; discriminate.
Qed.

Lemma steps_app sys1 evs1 sys2 evs2 sys3 :
  steps sys1 evs1 sys2 -> steps sys2 evs2 sys3 -> steps sys1 (evs1 ++ evs2) sys3.
Proof.
  induction 1 as [|sys ev sys' evs sys'' Hstep _ IH]; intros H2; [exact H2|].
  simpl. eapply steps_cons; [exact Hstep|]. by apply IH.
Qed.

Lemma left_not_member (s : Session) (sessions : gset Session) (c : Chan) (w : World) :
  registry_ok w ->
  documents w !! DocumentID s = Some sessions ->
  forall d, s ∉ default ∅ (documents (left s sessions c w) !! d).
Proof.
  intros Hok Hroom d. rewrite left_documents.
  destruct (decide (d = DocumentID s)) as [->|Hd].
  - destruct (decide (size (sessions ∖ {[s]}) = 0%nat)).
    + rewrite lookup_delete_eq. apply not_elem_of_empty.
    + rewrite lookup_insert_eq. cbn [default from_option id].
      intros [_ Hbad]%elem_of_difference. apply Hbad, elem_of_singleton. reflexivity.
  - assert (s ∉ default ∅ (documents w !! d)) as Hout.
    { intros Hbad. apply Hd. symmetry. by apply (registry_ok_room w). }
    destruct (decide (size (sessions ∖ {[s]}) = 0%nat)).
    + rewrite lookup_delete_ne by done. exact Hout.
    + rewrite lookup_insert_ne by done. exact Hout.
Qed.

(** X14: the sweeper evicts a single inactive session.  With the hub in
    its [select], the lock free, nothing pending in [sm.broadcast],
    exactly one member inactive for longer than the timeout, its
    channel open, and space in the queue of every other member of its
    room, there is a run in which the ticker fires, the sweeper hands
    the session to the hub and returns, the hub unregisters the session
    and delivers the leave announcement to each of the other members;
    both goroutines are back in their [select] and the lock is free. *)
Theorem sweep_evicts_single_stale_session (w : World) (now : Z) (a : Session) :
  registry_ok w -> mu w = false -> broadcast w = [] ->
  a ∈ room w (DocumentID a) ->
  stale now w a ->
  (forall d x, x ∈ room w d -> x <> a -> ~ stale now w x) ->
  is_open w a ->
  (forall x, x ∈ room w (DocumentID a) -> x <> a -> has_room w x) ->
  exists n m sys',
    steps (mkSystem w AtSelect AtSelect)
          ([Tick now; SweeperResumes; HubReceivesFromSweeper a]
           ++ replicate n HubResumes
           ++ [HubReceivesBroadcast] ++ replicate m HubResumes)
          sys'
    /\ hub sys' = AtSelect /\ sweeper sys' = AtSelect
    /\ mu (world sys') = false
    /\ (forall d, a ∉ room (world sys') d)
    /\ forall x, x ∈ room w (DocumentID a) -> x <> a ->
                 enqueued (leaveMsg a) w (world sys') x.
Proof.
  intros Hok Hmu Hpending Ha Hsa Hq (c&Hc&Hcl) Hroom.
  unfold room in Ha.
  destruct (documents w !! DocumentID a) as [sessions|] eqn:Hsessions;
    [|by apply not_elem_of_empty in Ha].
  cbn [default from_option id] in Ha.
  (* the sweep *)
  set (w1 := add_log (LogCleaning a) (set_mu true w)).
  destruct (sweep_rooms_single now a (range_rooms (documents w)) (set_mu true w))
    as (k1&Hk1&Hk1').
  { by apply registry_rooms_ok. }
  { exists (DocumentID a), sessions. split; [by apply elem_of_range_rooms|done]. }
  { intros d1 X1 d2 X2 H1%elem_of_range_rooms H2%elem_of_range_rooms Ha1 Ha2.
    assert (d1 = DocumentID a) as ->.
    { symmetry. apply (registry_ok_room w); [done|]. unfold room. by rewrite H1. }
    assert (d2 = DocumentID a) as ->.
    { symmetry. apply (registry_ok_room w); [done|]. unfold room. by rewrite H2. }
    congruence. }
  { rewrite range_rooms_perm. apply NoDup_map_to_list. }
  { exact Hsa. }
  { intros d X x HX%elem_of_range_rooms Hx Hne.
    assert (Hs : ~ stale now w x).
    { apply (Hq d); [|done]. unfold room. by rewrite HX. }
    exact Hs. }
  assert (Hk1w1 : k1 w1 = Ret tt w1).
  { apply Hk1'. intros d X x HX%elem_of_range_rooms Hx Hne.
    assert (Hs : ~ stale now w x).
    { apply (Hq d); [|done]. unfold room. by rewrite HX. }
    exact Hs. }
  set (w2 := set_mu false w1).
  (* the unregister *)
  set (msg := mkBroadcast (DocumentID a) (leaveMsg a) None).
  set (w4 := announce msg (left a sessions c w2)).
  assert (Hun : run (handleUnregister a) w2 = Finished tt w4).
  { assert (Hmu2 : mu w2 = false) by reflexivity.
    assert (Hdocs2 : documents w2 = documents w) by reflexivity.
    assert (Hsend2 : Send w2 = Send w) by reflexivity.
    assert (Hpending2 : broadcast w2 = []) by exact Hpending.
    rewrite handleUnregister_run, Hmu2, Hdocs2, Hsessions, Hsend2.
    rewrite decide_True, Hc, Hcl by done. cbv zeta.
    rewrite decide_True; [reflexivity|].
    rewrite Hpending2. unfold BroadcastCapacity. cbn [length]. lia. }
  destruct (handleUnregister_starts a w1) as [kh Hkh].
  assert (Hkh2 : handleUnregister a w2 = Block AcquireMu w2 kh).
  { pose proof Hkh as Hkh'. unfold handleUnregister in Hkh' |- *.
    cbn [bind lock_mu request bindO] in Hkh' |- *.
    injection Hkh' as <-. reflexivity. }
  destruct (hub_finishes (handleUnregister a w2) w2 (Waiting AcquireMu kh)
              AtSelect w4) as (n&Hhub).
  { rewrite Hkh2. reflexivity. }
  { exact Hun. }
  (* the delivery *)
  set (w5 := set_broadcast (fun _ => []) w4).
  assert (Hsend5 : forall x, x <> a -> Send w5 !! x = Send w !! x).
  { intros x Hx. unfold w5, w4, announce, left, w2, w1. world_simpl.
    by rewrite lookup_insert_ne. }
  assert (Hdocs5 : documents w5 = documents (left a sessions c w2)) by reflexivity.
  assert (Hsessions2 : documents w2 !! DocumentID a = Some sessions) by exact Hsessions.
  assert (Hok2 : registry_ok w2).
  { by apply (registry_ok_documents w). }
  assert (Hrec : forall x, x ∈ recipients w5 msg ->
                           x ∈ sessions /\ x <> a).
  { intros x. unfold recipients, room. cbn [Sender bDocumentID msg].
    rewrite Hdocs5, left_documents, difference_empty_L.
    destruct (decide (size (sessions ∖ {[a]}) = 0%nat)).
    - rewrite lookup_delete_eq. intros Hbad. by apply not_elem_of_empty in Hbad.
    - rewrite lookup_insert_eq. cbn [default from_option id].
      rewrite elem_of_difference, elem_of_singleton. done. }
  assert (Hrec' : forall x, x ∈ sessions -> x <> a -> x ∈ recipients w5 msg).
  { intros x Hx Hne. unfold recipients, room. cbn [Sender bDocumentID msg].
    rewrite Hdocs5, left_documents, difference_empty_L.
    assert (x ∈ sessions ∖ {[a]}) as Hin.
    { apply elem_of_difference. split; [done|]. by intros ?%elem_of_singleton. }
    destruct (decide (size (sessions ∖ {[a]}) = 0%nat)) as [Hz|Hnz].
    - apply size_empty_inv in Hz. apply leibniz_equiv in Hz.
      rewrite Hz in Hin. by apply not_elem_of_empty in Hin.
    - rewrite lookup_insert_eq. exact Hin. }
  destruct (handleBroadcast_reaches w5 msg) as (w6&Hdeliver&Henq).
  { reflexivity. }
  { intros x [Hx Hne]%Hrec. destruct (Hroom x) as (cx&Hcx&?&?).
    - unfold room. by rewrite Hsessions.
    - exact Hne.
    - exists cx. by rewrite Hsend5. }
  destruct (handleBroadcast_starts msg w5) as [kb Hkb].
  destruct (hub_finishes (handleBroadcast msg w5) w5 (Waiting AcquireRMu kb)
              AtSelect w6) as (m&Hhub').
  { rewrite Hkb. reflexivity. }
  { exact Hdeliver. }
  pose proof (handleBroadcast_frame msg w5) as Hframe.
  rewrite Hdeliver in Hframe. cbn [leaves] in Hframe.
  destruct Hframe as (Hdocs6&_&Hmu6&_).
  exists n, m, (mkSystem w6 AtSelect AtSelect). split.
  { set (k0 := fun w' : World =>
                 bindO (for_each (range_rooms (documents w')) (sweep_room now) w')
                       (fun _ => unlock_mu)).
    set (k2 := fun w' : World => bindO (k1 w') (fun _ => unlock_mu)).
    apply (steps_cons _ _ (mkSystem w AtSelect (Waiting AcquireMu k0))).
    { apply step_tick. rewrite cleanup_outcome. reflexivity. }
    apply (steps_cons _ _ (mkSystem w1 AtSelect (Waiting (SendUnregister a) k2))).
    { apply (step_sweeper_resumes AcquireMu k0 w AtSelect (set_mu true w)).
      - cbn [grant]. rewrite Hmu. reflexivity.
      - unfold k0. world_simpl. rewrite Hk1. reflexivity. }
    apply (steps_cons _ _ (mkSystem w2 (Waiting AcquireMu kh) AtSelect)).
    { apply (step_from_sweeper a k2 w1 w1 (Waiting AcquireMu kh) w2 AtSelect).
      - rewrite Hkh. reflexivity.
      - unfold k2. rewrite Hk1w1. reflexivity. }
    apply (steps_app _ _ (mkSystem w4 AtSelect AtSelect)); [exact Hhub|].
    apply (steps_cons _ _ (mkSystem w5 (Waiting AcquireRMu kb) AtSelect));
      [|exact Hhub'].
    apply (step_broadcast msg [] w4 AtSelect w5 (Waiting AcquireRMu kb)).
    - unfold w4, announce, left, w2, w1. world_simpl. by rewrite Hpending.
    - fold w5. rewrite Hkb. reflexivity. }
  cbn [hub sweeper world]. split; [reflexivity|]. split; [reflexivity|].
  split; [by rewrite Hmu6|]. split.
  - intros d. unfold room. rewrite Hdocs6, Hdocs5.
    by apply left_not_member.
  - intros x Hx Hne. unfold room in Hx. rewrite Hsessions in Hx.
    destruct (Henq x) as (cx&Hcx&Hcx'); [by apply Hrec'|].
    exists cx. split; [by rewrite <- Hsend5|exact Hcx'].
Qed.

End Eviction.

(** ** The hub and its own inbox *)

Section OwnInbox.
Context {RT : GoRuntime}.

Lemma handleRegister_outcome (s : Session) (w : World) :
  exists W : World -> World,
    handleRegister s w
    = Block AcquireMu w (fun w1 =>
        Block (SendBroadcast (mkBroadcast (DocumentID s) (joinMsg s) (Some s)))
              (W w1) (fun w2 => Ret tt (set_mu false w2)))
    /\ forall w1,
         documents (W w1)
         = <[DocumentID s := {[s]} ∪ room w1 (DocumentID s)]> (documents w1)
         /\ mu (W w1) = mu w1 /\ broadcast (W w1) = broadcast w1.
Proof.
  eexists. split; [reflexivity|]. intros w1. cbv beta. world_simpl.
  split; [|done]. apply join_room.
Qed.

Lemma inbox_full_step D sys ev sys' :
  step sys ev sys' ->
  (forall w', ev = Environment w'
              -> ~ (length (broadcast w') < BroadcastCapacity)%nat) ->
  inbox_full D sys -> inbox_full D sys'.
Proof.
  intros Hstep Hev (Hmu&Hdocs&Hfull&(m&k&Hhub)&Hsw). unfold inbox_full.
  destruct Hstep as
    [s0 w sw w' h' Hpark|s0 w sw w' h' Hpark|s0 k0 w w1 h' w2 sw' Hpark1 Hpark2
    |msg pending w sw w' h' Hb Hpark|r k0 w sw w1 w' h' Hgrant Hpark
    |r k0 w h w1 w' sw' Hgrant Hpark|now0 w h w' sw' Hpark
    |w h sw w' Hdocs' Hmu']; cbn [world hub sweeper] in *;
    try discriminate.
  - exfalso. injection Hhub as -> _. cbn [grant] in Hgrant.
    by rewrite decide_False in Hgrant.
  - exfalso. destruct Hsw as [?|[k1 [= -> _]]]; [discriminate|].
    cbn [grant] in Hgrant. by rewrite Hmu in Hgrant.
  - rewrite cleanup_outcome in Hpark. injection Hpark as <- <-.
    split; [exact Hmu|]. split; [exact Hdocs|]. split; [exact Hfull|].
    split; [by exists m, k|]. right. eauto.
  - split; [by rewrite Hmu'|]. split; [by rewrite Hdocs'|].
    split; [by apply Hev|]. split; [by exists m, k|exact Hsw].
Qed.

Lemma inbox_full_steps D sys evs sys' :
  steps sys evs sys' ->
  never_drained evs ->
  inbox_full D sys -> inbox_full D sys'.
Proof.
  induction 1 as [|sys ev sys1 evs sys2 Hstep _ IH]; intros Hevs Hfull; [done|].
  apply IH.
  - intros w' Hin. apply Hevs. by apply list_elem_of_further.
  - eapply inbox_full_step; [exact Hstep| |exact Hfull].
    intros w' ->. apply Hevs. apply list_elem_of_here.
Qed.

(** X15: the hub sends the join announcement to [sm.broadcast], of
    which it is the only receiver, while it holds [sm.mu].  When a
    register finds 256 messages pending there, the hub has put the
    session into its room and then waits on that send; as long as
    nothing takes a message out of the buffer it waits for ever, with
    the lock held. *)
Theorem register_blocks_on_full_broadcast (w : World) (s : Session)
    (evs : list Event) (sys' : System) :
  mu w = false ->
  ~ (length (broadcast w) < BroadcastCapacity)%nat ->
  steps (mkSystem w AtSelect AtSelect)
        (HubReceivesRegister s :: HubResumes :: evs) sys' ->
  never_drained evs ->
  s ∈ room (world sys') (DocumentID s)
  /\ mu (world sys') = true
  /\ exists m k, hub sys' = Waiting (SendBroadcast m) k.
Proof.
  intros Hmu Hfull Hsteps Hevs.
  destruct (handleRegister_outcome s w) as (W&Hout&HW).
  inversion Hsteps as [|? ? sys1 ? ? Hfirst Hrest]; subst.
  inversion Hfirst as [? ? ? w1 h1 Hpark1| | | | | | |]; subst.
  rewrite Hout in Hpark1. injection Hpark1 as <- <-.
  inversion Hrest as [|? ? sys2 ? ? Hresume Hrest']; subst.
  inversion Hresume as [| | | |r k1 ? ? w2 w3 h3 Hgrant Hpark3| | |]; subst.
  cbn [grant] in Hgrant. rewrite Hmu in Hgrant. injection Hgrant as <-.
  cbn [park] in Hpark3. injection Hpark3 as <- <-.
  destruct (HW (set_mu true w)) as (HWdocs&HWmu&HWb).
  assert (inbox_full (documents (W (set_mu true w))) sys') as (Hmu'&Hdocs'&_&Hhub&_).
  { eapply inbox_full_steps; [exact Hrest'|exact Hevs|].
    unfold inbox_full. cbn [world hub sweeper].
    split; [by rewrite HWmu|]. split; [reflexivity|].
    split; [by rewrite HWb|]. split; [eauto|by left]. }
  split; [|split; [exact Hmu'|exact Hhub]].
  unfold room. rewrite Hdocs', HWdocs, lookup_insert_eq.
  cbn [default from_option id]. apply elem_of_union_l, elem_of_singleton.
  reflexivity.
Qed.

End OwnInbox.

(** ** Channels are closed once *)

Lemma deliver_loop_no_panic (msg : BroadcastMessage) (todo : list Session) :
  forall w,
  (forall x, x ∈ todo -> is_open w x) ->
  run (for_each todo (deliver msg)) w <> Panicked.
Proof.
  induction todo as [|h rest IH]; intros w Hopen.
  - by rewrite run_for_each_nil.
  - rewrite run_for_each_cons, deliver_run.
    destruct (decide (Sender msg = Some h)) as [_|_].
    { apply IH. intros x Hx. apply Hopen. by right. }
    destruct (Hopen h) as (c&Hc&Hcl); [left|]. rewrite Hc, Hcl.
    destruct (decide _) as [_|_]; [|done].
    apply IH. intros x Hx. destruct (decide (x = h)) as [->|Hne].
    + eexists. world_simpl. split; [apply lookup_insert_eq|reflexivity].
    + destruct (Hopen x) as (cx&Hcx&Hclx); [by right|].
      exists cx. world_simpl. by rewrite lookup_insert_ne.
Qed.

Lemma is_open_after_delivery (msg : BroadcastMessage) (w w' : World) (x : Session) :
  (untouched w w' x \/ enqueued (Message msg) w w' x) ->
  is_open w x -> is_open w' x.
Proof.
  intros [Hu|(c&Hc&Hc')] (cx&Hcx&Hclx).
  - exists cx. by rewrite Hu.
  - eexists. split; [exact Hc'|reflexivity].
Qed.

Lemma registered_cons_other (c : Command) (cs : list Command) :
  (forall s, c <> Register s) -> registered (c :: cs) = registered cs.
Proof. intros Hc. destruct c as [s| |]; [by destruct (Hc s)|done|done]. Qed.

Lemma channels_ok_same (cs : list Command) (w w' : World) :
  documents w' = documents w -> Send w' = Send w ->
  channels_ok cs w -> channels_ok cs w'.
Proof.
  intros Hdocs Hsend (Hok&Hmembers&Hnd&Hnew).
  unfold channels_ok, registry_ok, room, is_open in *.
  rewrite Hdocs, Hsend. done.
Qed.

Lemma left_members (s : Session) (sessions : gset Session) (c : Chan) (w : World)
    (d : string) (x : Session) :
  registry_ok w ->
  documents w !! DocumentID s = Some sessions ->
  x ∈ default ∅ (documents (left s sessions c w) !! d) ->
  x ∈ room w d /\ x <> s.
Proof.
  intros Hok Hroom. rewrite left_documents. unfold room.
  destruct (decide (d = DocumentID s)) as [->|Hd].
  - rewrite Hroom. cbn [default from_option id].
    destruct (decide (size (sessions ∖ {[s]}) = 0%nat)).
    + rewrite lookup_delete_eq. intros Hbad. by apply not_elem_of_empty in Hbad.
    + rewrite lookup_insert_eq. cbn [default from_option id].
      rewrite elem_of_difference, elem_of_singleton. done.
  - assert (Hsame : forall X : gset Session,
               x ∈ default ∅ (documents w !! d) ->
               x ∈ default ∅ (documents w !! d) /\ x <> s).
    { intros _ Hx. split; [done|]. intros ->. apply Hd. symmetry.
      by apply (registry_ok_room w). }
    destruct (decide (size (sessions ∖ {[s]}) = 0%nat)).
    + rewrite lookup_delete_ne by done. apply (Hsame ∅).
    + rewrite lookup_insert_ne by done. apply (Hsame ∅).
Qed.

Section Channels.
Context {RT : GoRuntime}.

Lemma dispatch_channels_ok (c : Command) (cs : list Command) (w : World) :
  channels_ok (c :: cs) w ->
  run (dispatch c) w <> Panicked
  /\ leaves (run (dispatch c) w) (channels_ok cs).
Proof.
  intros (Hok&Hmembers&Hnd&Hnew). destruct c as [s|s|].
  - (* register *)
    cbn [registered omap list_omap] in Hnd, Hnew.
    apply NoDup_cons in Hnd as [Hfresh Hnd].
    assert (Hrest : channels_ok cs w).
    { split; [done|]. split; [done|]. split; [done|].
      intros s' Hs'. apply Hnew. by right. }
    assert (Hjoined : forall w', documents w' = documents (joined s w) ->
                                 Send w' = Send w -> channels_ok cs w').
    { intros w' Hdocs Hsend. split.
      { apply (registry_ok_documents (joined s w)); [done|].
        by apply registry_ok_joined. }
      split.
      { intros d x. unfold room, is_open. rewrite Hdocs, Hsend, joined_documents.
        destruct (decide (d = DocumentID s)) as [->|Hd].
        - rewrite lookup_insert_eq. cbn [default from_option id].
          intros [->%elem_of_singleton|Hx]%elem_of_union.
          + apply Hnew. left.
          + by apply (Hmembers (DocumentID s)).
        - rewrite lookup_insert_ne by done. apply (Hmembers d). }
      split; [done|].
      intros s' Hs'. destruct (Hnew s') as [Hopen Hout]; [by right|].
      split; [unfold is_open; by rewrite Hsend|].
      intros d. unfold room. rewrite Hdocs, joined_documents.
      destruct (decide (d = DocumentID s)) as [->|Hd].
      - rewrite lookup_insert_eq. cbn [default from_option id].
        intros [->%elem_of_singleton|Hx]%elem_of_union; [done|].
        by apply (Hout (DocumentID s)).
      - rewrite lookup_insert_ne by done. apply (Hout d). }
    cbn [dispatch]. rewrite handleRegister_run.
    destruct (mu w); [done|]. cbv zeta.
    destruct (decide _); (split; [done|]); cbn [leaves]; by apply Hjoined.
  - (* unregister *)
    rewrite registered_cons_other in Hnd, Hnew by done.
    assert (Hrest : channels_ok cs w) by done.
    cbn [dispatch]. rewrite handleUnregister_run.
    destruct (mu w); [done|].
    destruct (documents w !! DocumentID s) as [sessions|] eqn:Hroom.
    2:{ split; [done|]. by apply (channels_ok_same cs w). }
    destruct (decide (s ∈ sessions)) as [Hin|Hout].
    2:{ split; [done|]. by apply (channels_ok_same cs w). }
    destruct (Hmembers (DocumentID s) s) as (c&Hc&Hcl).
    { unfold room. by rewrite Hroom. }
    rewrite Hc, Hcl. cbv zeta.
    assert (Hleft : forall w', documents w' = documents (left s sessions c w) ->
                               Send w' = <[s := mkChan (buf c) true]> (Send w) ->
                               channels_ok cs w').
    { intros w' Hdocs Hsend. split.
      { apply (registry_ok_documents (left s sessions c w)); [done|].
        by apply registry_ok_left. }
      split.
      { intros d x. unfold room, is_open. rewrite Hdocs, Hsend.
        intros [Hx Hne]%left_members; [|done|done].
        rewrite lookup_insert_ne by done. by apply (Hmembers d). }
      split; [done|].
      intros s' Hs'. destruct (Hnew s' Hs') as [Hopen Hnot].
      assert (s' <> s) as Hne.
      { intros ->. apply (Hnot (DocumentID s)). unfold room. by rewrite Hroom. }
      split.
      - unfold is_open. rewrite Hsend, lookup_insert_ne by done. exact Hopen.
      - intros d. unfold room. rewrite Hdocs.
        intros [Hx _]%left_members; [|done|done]. by apply (Hnot d). }
    destruct (decide _); (split; [done|]); cbn [leaves]; by apply Hleft.
  - (* deliver *)
    rewrite registered_cons_other in Hnd, Hnew by done.
    rewrite dispatch_Deliver_run.
    destruct (broadcast w) as [|msg pending]; [done|].
    set (w1 := set_broadcast (fun _ => pending) w).
    assert (Hok1 : channels_ok cs w1) by (by apply (channels_ok_same cs w)).
    rewrite handleBroadcast_run.
    destruct (mu w1) eqn:Hmu1; [done|].
    split.
    + apply deliver_loop_no_panic. intros x Hx%elem_of_range_sessions.
      by apply (Hmembers (bDocumentID msg)).
    + pose proof (deliver_loop_sound msg _
        (NoDup_range_sessions (room w1 (bDocumentID msg))) w1) as Hsound.
      eapply leaves_impl; [|exact Hsound]. cbv beta.
      intros w' [(Hdocs&_) Hall].
      assert (Hopen : forall x, is_open w1 x -> is_open w' x).
      { intros x. apply (is_open_after_delivery msg).
        destruct (Hall x) as [?|(_&_&_&?)]; [by left|by right]. }
      destruct Hok1 as (Hok1&Hmembers1&_&Hnew1).
      split; [by apply (registry_ok_documents w1)|].
      split.
      { intros d x. unfold room. rewrite Hdocs. intros Hx.
        apply Hopen. by apply (Hmembers1 d). }
      split; [done|].
      intros s' Hs'. destruct (Hnew1 s' Hs') as [Hopen' Hnot].
      split; [by apply Hopen|]. intros d. unfold room. rewrite Hdocs.
      apply (Hnot d).
Qed.

Lemma Start_channels_ok (cs : list Command) :
  forall w, channels_ok cs w -> run (Start cs) w <> Panicked.
Proof.
  unfold Start. induction cs as [|c cs IH]; intros w Hok.
  - by rewrite run_for_each_nil.
  - rewrite run_for_each_cons.
    destruct (dispatch_channels_ok c cs w Hok) as [Hrun Hleaves].
    destruct (run (dispatch c) w) as [[] w1|r w1|]; [|done|done].
    by apply IH.
Qed.

(** X16: the hub never closes a channel twice and never sends on a
    closed one.  When every session is registered at most once, with
    the open channel its connection handler made for it, the hub runs
    any sequence of registers, unregisters (repeated or of sessions it
    does not know) and deliveries without a panic. *)
Theorem hub_never_panics (w : World) (cs : list Command) :
  documents w = ∅ ->
  NoDup (registered cs) ->
  (forall s, s ∈ registered cs -> is_open w s) ->
  run (Start cs) w <> Panicked.
Proof.
  intros Hempty Hnd Hopen. apply Start_channels_ok.
  split; [by apply registry_ok_empty|].
  assert (Hnone : forall d x, x ∉ room w d).
  { intros d x. unfold room. rewrite Hempty, lookup_empty.
    apply not_elem_of_empty. }
  split; [intros d x Hx; by destruct (Hnone d x)|].
  split; [done|]. intros s Hs. split; [by apply Hopen|]. intros d. apply Hnone.
Qed.

End Channels.

(** ** Shutdown *)

Lemma close_all (xs : list Session) :
  NoDup xs ->
  forall w,
  (forall x, x ∈ xs -> is_open w x) ->
  exists w',
    run (for_each xs close_send) w = Finished tt w'
    /\ closed_by xs w w' /\ documents w' = documents w /\ mu w' = mu w.
Proof.
  induction 1 as [|x xs Hx Hnd IH]; intros w Hopen.
  - exists w. rewrite run_for_each_nil. split; [reflexivity|].
    split; [|done]. repeat split; try reflexivity.
    intros x Hx. by apply elem_of_nil in Hx.
  - destruct (Hopen x) as (c&Hc&Hcl); [left|].
    rewrite run_for_each_cons, run_close_send, Hc, Hcl.
    set (w1 := set_Send <[x := mkChan (buf c) true]> w).
    destruct (IH w1) as (w'&Hrun&Hclosed&Hdocs&Hmu).
    { intros y Hy. destruct (Hopen y) as (cy&Hcy&Hcly); [by right|].
      exists cy. unfold w1. world_simpl. rewrite lookup_insert_ne; [done|].
      intros ->. contradiction. }
    exists w'. split; [exact Hrun|]. split; [|done].
    destruct Hclosed as (Hb&Haw&Ham&Hrepo&Hlast&Hlogs&Hin&Hout).
    repeat split; try done.
    + intros y [->|Hy]%elem_of_cons.
      * exists c. split; [done|]. split; [done|].
        rewrite (Hout x Hx). unfold w1. world_simpl. apply lookup_insert_eq.
      * destruct (Hin y Hy) as (cy&Hcy&Hcly&Hcy'). exists cy.
        split; [|done]. unfold w1 in Hcy. world_simpl.
        rewrite lookup_insert_ne in Hcy; [done|]. intros ->. contradiction.
    + intros y Hy. apply not_elem_of_cons in Hy as [Hne Hy].
      rewrite (Hout y Hy). unfold w1. world_simpl. by rewrite lookup_insert_ne.
Qed.

Lemma closed_by_app (xs ys : list Session) (w w1 w2 : World) :
  (forall x, x ∈ xs -> x ∉ ys) ->
  closed_by xs w w1 -> closed_by ys w1 w2 -> closed_by (xs ++ ys) w w2.
Proof.
  intros Hdisj (Hb&Haw&Ham&Hrepo&Hlast&Hlogs&Hin&Hout)
    (Hb'&Haw'&Ham'&Hrepo'&Hlast'&Hlogs'&Hin'&Hout').
  repeat split; try congruence.
  - intros x [Hx|Hx]%elem_of_app.
    + destruct (Hin x Hx) as (c&Hc&Hcl&Hc'). exists c.
      split; [done|]. split; [done|]. rewrite Hout'; [done|]. by apply Hdisj.
    + destruct (Hin' x Hx) as (c&Hc&Hcl&Hc'). exists c.
      split; [|done]. rewrite <- Hout; [done|].
      intros Hbad. by apply (Hdisj x Hbad).
  - intros x Hx. apply not_elem_of_app in Hx as [Hx Hy].
    by rewrite Hout', Hout.
Qed.

Section Stop.
Context {RT : GoRuntime}.

(** The sessions [Shutdown] visits, in the order it does. *)
Lemma close_rooms (rs : list (string * gset Session)) :
  NoDup rs ->
  (forall d1 X1 d2 X2 x, (d1, X1) ∈ rs -> (d2, X2) ∈ rs -> x ∈ X1 -> x ∈ X2 ->
                         (d1, X1) = (d2, X2)) ->
  forall w,
  (forall d X x, (d, X) ∈ rs -> x ∈ X -> is_open w x) ->
  exists w',
    run (for_each rs close_room) w = Finished tt w'
    /\ closed_by (rs ≫= fun e => range_sessions (snd e)) w w'
    /\ documents w' = documents w /\ mu w' = mu w.
Proof.
  induction 1 as [|[d X] rs Hfresh Hnd IH]; intros Hdisj w Hopen.
  - exists w. rewrite run_for_each_nil. split; [reflexivity|].
    split; [|done]. repeat split; try reflexivity.
    intros x Hx. by apply elem_of_nil in Hx.
  - rewrite run_for_each_cons. unfold close_room at 1. cbn [snd].
    destruct (close_all (range_sessions X) (NoDup_range_sessions X) w)
      as (w1&Hrun1&Hclosed1&Hdocs1&Hmu1).
    { intros x Hx%elem_of_range_sessions. apply (Hopen d X x); [left|done]. }
    rewrite Hrun1.
    assert (Hother : forall d' X' x, (d', X') ∈ rs -> x ∈ X' -> x ∉ X).
    { intros d' X' x Hin Hx HxX. apply Hfresh.
      rewrite (Hdisj d X d' X' x); [done|left|by right|done|done]. }
    destruct IH with (w := w1) as (w'&Hrun&Hclosed&Hdocs&Hmu).
    { intros d1 X1 d2 X2 x H1 H2. apply Hdisj; by right. }
    { intros d' X' x Hin Hx. destruct (Hopen d' X' x) as (c&Hc&Hcl); [by right|done|].
      exists c. split; [|done].
      destruct Hclosed1 as (_&_&_&_&_&_&_&Hout). rewrite Hout; [done|].
      intros HxX%elem_of_range_sessions. by apply (Hother d' X' x). }
    exists w'. split; [exact Hrun|]. split; [|split; congruence].
    cbn [mbind list_bind snd]. apply (closed_by_app _ _ w w1 w'); [|done|done].
    intros x HxX%elem_of_range_sessions Hbad.
    apply list_elem_of_bind in Hbad as ([d' X']&Hx&Hin).
    cbn [snd] in Hx. apply elem_of_range_sessions in Hx.
    by apply (Hother d' X' x).
Qed.

(** X17: [Shutdown] closes the channel of every registered session,
    keeping what is pending in it, leaves every other channel alone and
    empties the registry; called a second time it panics. *)
Theorem Shutdown_closes_every_session (w : World) :
  registry_ok w -> mu w = false ->
  (forall d x, x ∈ room w d -> is_open w x) ->
  run (Shutdown true) w = Panicked
  /\ exists w',
       run (Shutdown false) w = Finished tt w'
       /\ documents w' = ∅ /\ mu w' = false
       /\ (forall d x, x ∈ room w d ->
             exists c, Send w !! x = Some c
                       /\ Send w' !! x = Some (mkChan (buf c) true))
       /\ (forall x, (forall d, x ∉ room w d) -> Send w' !! x = Send w !! x)
       /\ broadcast w' = broadcast w.
Proof.
  intros Hok Hmu Hopen. split; [reflexivity|].
  destruct (close_rooms (range_rooms (documents w))) with (w := set_mu true w)
    as (w1&Hrun&Hclosed&Hdocs&Hmu1).
  { rewrite range_rooms_perm. apply NoDup_map_to_list. }
  { intros d1 X1 d2 X2 x H1%elem_of_range_rooms H2%elem_of_range_rooms Hx1 Hx2.
    assert (d1 = DocumentID x) as ->.
    { symmetry. apply (registry_ok_room w); [done|]. unfold room. by rewrite H1. }
    assert (d2 = DocumentID x) as ->.
    { symmetry. apply (registry_ok_room w); [done|]. unfold room. by rewrite H2. }
    congruence. }
  { intros d X x HX%elem_of_range_rooms Hx.
    destruct (Hopen d x) as (c&Hc&Hcl); [unfold room; by rewrite HX|].
    by exists c. }
  exists (set_mu false (set_documents (fun _ => ∅) w1)).
  split.
  { unfold Shutdown. run_steps. rewrite Hmu. run_steps. world_simpl.
    rewrite Hrun. run_steps. reflexivity. }
  world_simpl. split; [reflexivity|]. split; [reflexivity|].
  destruct Hclosed as (Hb&_&_&_&_&_&Hin&Hout). world_simpl.
  split; [|split; [|exact Hb]].
  - intros d x Hx. unfold room in Hx.
    destruct (documents w !! d) as [X|] eqn:HX;
      [|by apply not_elem_of_empty in Hx].
    destruct (Hin x) as (c&Hc&_&Hc').
    { apply list_elem_of_bind. exists (d, X). cbn [snd].
      split; [by apply elem_of_range_sessions|by apply elem_of_range_rooms]. }
    by exists c.
  - intros x Hx. apply Hout. intros Hbad.
    apply list_elem_of_bind in Hbad as ([d X]&Hin'&HX).
    cbn [snd] in Hin'. apply elem_of_range_sessions in Hin'.
    apply elem_of_range_rooms in HX. apply (Hx d). unfold room. by rewrite HX.
Qed.

End Stop.

(** ** Broadcasts in order *)

Section Fifo.
Context {RT : GoRuntime}.

Lemma elem_of_recipients_room w msg x :
  x ∈ recipients w msg <-> x ∈ room w (bDocumentID msg) /\ Sender msg <> Some x.
Proof. by rewrite elem_of_recipients, elem_of_range_sessions. Qed.

(** X18: [sm.broadcast] is a queue.  Two messages handed to [Broadcast]
    one after the other are delivered in that order: once the hub has
    taken both, every member of the room other than the senders has the
    first payload and then the second appended to its queue. *)
Theorem broadcasts_arrive_in_order (w : World) (d : string) (p1 p2 : Payload)
    (s1 s2 : option Session) :
  mu w = false -> broadcast w = [] ->
  (forall x, x ∈ room w d ->
     exists c, Send w !! x = Some c /\ closed c = false
               /\ (length (buf c) + 1 < SendCapacity)%nat) ->
  exists w',
    and_then (and_then (and_then (run (Broadcast d p1 s1) w) (Broadcast d p2 s2))
                       (dispatch Deliver))
             (dispatch Deliver)
    = Finished tt w'
    /\ forall x, x ∈ room w d ->
         queue w' x = queue w x
                      ++ (if decide (s1 = Some x) then [] else [p1])
                      ++ (if decide (s2 = Some x) then [] else [p2]).
Proof.
  intros Hmu Hpending Hroom.
  set (m1 := mkBroadcast d p1 s1). set (m2 := mkBroadcast d p2 s2).
  unfold Broadcast, send_broadcast. rewrite run_request. cbn [grant].
  rewrite decide_True
    by (rewrite Hpending; unfold BroadcastCapacity; cbn [length]; lia).
  cbn [and_then]. rewrite run_request. cbn [grant]. world_simpl.
  rewrite decide_True
    by (rewrite Hpending; unfold BroadcastCapacity; cbn [length app]; lia).
  cbn [and_then]. rewrite dispatch_Deliver_run. world_simpl. rewrite Hpending.
  cbn [app]. fold m1 m2.
  set (wA := set_broadcast (fun _ => [m2]) _).
  assert (HsendA : Send wA = Send w) by reflexivity.
  assert (HdocsA : documents wA = documents w) by reflexivity.
  destruct (handleBroadcast_reaches wA m1) as (w3&Hrun1&Henq1).
  { exact Hmu. }
  { intros x [Hx _]%elem_of_recipients_room.
    destruct (Hroom x Hx) as (c&Hc&Hcl&Hlen).
    exists c. rewrite HsendA. split; [done|]. split; [done|lia]. }
  pose proof (handleBroadcast_spares wA m1 Hmu) as Hspare1.
  pose proof (handleBroadcast_frame m1 wA) as Hframe1.
  rewrite Hrun1 in Hspare1, Hframe1 |- *. cbn [leaves and_then] in *.
  destruct Hframe1 as (Hdocs3&Hb3&Hmu3&_).
  assert (HbA : broadcast wA = [m2]) by reflexivity.
  rewrite dispatch_Deliver_run, Hb3, HbA.
  set (wB := set_broadcast (fun _ => []) w3).
  assert (HsendB : Send wB = Send w3) by reflexivity.
  assert (Hafter1 : forall x c, x ∈ room w d -> Send w !! x = Some c ->
            Send w3 !! x
            = Some (if decide (s1 = Some x) then c
                    else mkChan (buf c ++ [p1]) false)).
  { intros x c Hx Hc. destruct (decide (s1 = Some x)) as [Hs|Hs].
    - rewrite (Hspare1 x), HsendA; [done|].
      rewrite elem_of_recipients_room. intros [_ Hbad]. by apply Hbad.
    - destruct (Henq1 x) as (c'&Hc'&Hc3).
      { apply elem_of_recipients_room. done. }
      rewrite HsendA, Hc in Hc'. injection Hc' as <-. exact Hc3. }
  assert (HroomB : room wB d = room w d).
  { unfold room. cbn [documents wB set_broadcast]. by rewrite Hdocs3, HdocsA. }
  destruct (handleBroadcast_reaches wB m2) as (w4&Hrun2&Henq2).
  { cbn [mu wB set_broadcast]. by rewrite Hmu3. }
  { intros x [Hx _]%elem_of_recipients_room. cbn [bDocumentID m2] in Hx.
    rewrite HroomB in Hx. destruct (Hroom x Hx) as (c&Hc&Hcl&Hlen).
    eexists. rewrite HsendB, (Hafter1 x c Hx Hc). split; [reflexivity|].
    destruct (decide (s1 = Some x)); cbn [closed buf]; (split; [done|]);
      rewrite ?length_app; cbn [length]; lia. }
  assert (HmuB : mu wB = false) by (cbn [mu wB set_broadcast]; by rewrite Hmu3).
  pose proof (handleBroadcast_spares wB m2 HmuB) as Hspare2.
  rewrite Hrun2 in Hspare2 |- *. cbn [leaves] in Hspare2.
  exists w4. split; [reflexivity|].
  intros x Hx. destruct (Hroom x Hx) as (c&Hc&Hcl&_).
  pose proof (Hafter1 x c Hx Hc) as H3. unfold queue. rewrite Hc.
  destruct (decide (s2 = Some x)) as [Hs2|Hs2].
  - rewrite (Hspare2 x), HsendB, H3.
    + destruct (decide (s1 = Some x)); cbn [buf]; by rewrite ?app_nil_r.
    + rewrite elem_of_recipients_room. intros [_ Hbad]. by apply Hbad.
  - destruct (Henq2 x) as (c'&Hc'&Hc4).
    { apply elem_of_recipients_room. cbn [bDocumentID m2 Sender].
      by rewrite HroomB. }
    rewrite HsendB, H3 in Hc'. injection Hc' as <-. rewrite Hc4.
    destruct (decide (s1 = Some x)); cbn [buf Message m2];
      by rewrite <- ?app_assoc.
Qed.

End Fifo.

(** ** The initial state when it cannot be sent *)

(** X19: when the database does not answer, a new connection is set up
    all the same: the hub registers the session and queues its join
    announcement, the handler returns, and the three log lines are
    written, in one order or another.  But the session is sent
    nothing: [sendInitialState] returns at the failure, so the queue
    holds neither updates nor the awareness of the others, whatever
    the store holds. *)
Theorem connection_without_database (hub_first : bool) (w : World) (session : Session)
    (now : Z) (repo : YjsRepository) :
  mu w = false ->
  (length (broadcast w) < BroadcastCapacity)%nat ->
  yjsRepo w = Some repo -> reachable repo = false ->
  exists w' added,
    connect hub_first session now w = Some (Returned, Returned, w')
    /\ session ∈ room w' (DocumentID session)
    /\ queue w' session = []
    /\ broadcast w'
       = broadcast w
         ++ [mkBroadcast (DocumentID session) (joinMsg session) (Some session)]
    /\ logs w' = logs w ++ added
    /\ added ≡ₚ [LogJoined session (size ({[session]} ∪ room w (DocumentID session)));
                 LogGetUpdatesFailed; LogConnected session].
Proof.
  intros Hmu Hcap Hrepo Hdown.
  set (msg := mkBroadcast (DocumentID session) (joinMsg session) (Some session)).
  set (w0 := newSession session now w).
  destruct hub_first.
  - rewrite (connect_hub_first session now w Hmu Hcap). fold msg w0.
    set (wa := announce msg (joined session w0)).
    rewrite rest_of_handler_run, (sendInitialState_down session wa repo Hrepo Hdown).
    cbn [stand]. eexists _, _. split; [reflexivity|].
    unfold wa, announce. world_simpl. split.
    { unfold room. world_simpl.
      rewrite (joined_documents session w0), lookup_insert_eq.
      cbn [default from_option id].
      apply elem_of_union_l, elem_of_singleton. reflexivity. }
    split.
    { unfold queue, joined, w0, newSession. world_simpl.
      by rewrite lookup_insert_eq. }
    split; [reflexivity|]. split; [|reflexivity].
    unfold joined, w0, newSession. world_simpl.
    by rewrite <- !app_assoc.
  - assert (Hrest : stand (run (sendInitialState session ;;; log (LogConnected session)) w0)
                    = Some (Returned,
                            add_log (LogConnected session)
                              (add_log LogGetUpdatesFailed w0))).
    { by rewrite rest_of_handler_run,
        (sendInitialState_down session w0 repo Hrepo Hdown). }
    rewrite (connect_handler_first session now w Returned _ Hrest Hmu Hcap).
    eexists _, _. split; [reflexivity|].
    unfold announce. world_simpl. split.
    { unfold room. world_simpl.
      rewrite joined_documents, lookup_insert_eq.
      cbn [default from_option id].
      apply elem_of_union_l, elem_of_singleton. reflexivity. }
    split.
    { unfold queue, joined, w0, newSession. world_simpl.
      by rewrite lookup_insert_eq. }
    split; [reflexivity|]. split.
    { unfold joined, w0, newSession. world_simpl.
      rewrite <- !app_assoc. reflexivity. }
    exact (Permutation_app_comm
             [LogGetUpdatesFailed; LogConnected session]
             [LogJoined session (size ({[session]} ∪ room w (DocumentID session)))]).
Qed.

(** X20: the connection handler sends the awareness data with a
    blocking send, before it has started the pumps that drain the
    queue.  For a document with 256 or more stored updates and an
    awareness map, a new connection is registered by the hub, gets the
    first 256 updates, and its handler then waits on that send. *)
Theorem connection_blocks_on_awareness (hub_first : bool) (w : World) (session : Session)
    (now : Z) (repo : YjsRepository) (updates : list YjsUpdate) (l : loc) :
  mu w = false ->
  (length (broadcast w) < BroadcastCapacity)%nat ->
  yjsRepo w = Some repo ->
  GetAllUpdates repo (DocumentID session) = inl updates ->
  (SendCapacity <= length updates)%nat ->
  GetAwareness (DocumentID session) w = Some l ->
  exists w',
    connect hub_first session now w
    = Some (Returned,
            WaitsFor (SendSession session (AwarenessData (deref w (Some l)))),
            w')
    /\ session ∈ room w' (DocumentID session)
    /\ queue w' session = take SendCapacity (payloads updates).
Proof.
  intros Hmu Hcap Hrepo Hupdates Hmany Haware.
  set (msg := mkBroadcast (DocumentID session) (joinMsg session) (Some session)).
  set (w0 := newSession session now w).
  assert (Hfull : ~ (length (buf (mkChan [] false)
                             ++ take (SendCapacity - length (buf (mkChan [] false)))
                                     (payloads updates))
                     < SendCapacity)%nat).
  { cbn [buf length app]. rewrite Nat.sub_0_r, length_take.
    unfold payloads. rewrite length_map. lia. }
  destruct hub_first.
  - rewrite (connect_hub_first session now w Hmu Hcap). fold msg w0.
    set (wa := announce msg (joined session w0)).
    rewrite rest_of_handler_run.
    rewrite (sendInitialState_run session wa repo updates (mkChan [] false));
      [|exact Hrepo|exact Hupdates
       |unfold wa, announce, joined, w0, newSession; world_simpl;
        apply lookup_insert_eq
       |reflexivity].
    cbv zeta.
    change (GetAwareness (DocumentID session) wa)
      with (GetAwareness (DocumentID session) w).
    rewrite Haware, decide_False by exact Hfull. cbn [stand].
    change (deref wa (Some l)) with (deref w (Some l)).
    eexists. split; [reflexivity|]. split.
    + unfold room, replayed, wa, announce. world_simpl.
      rewrite (joined_documents session w0), lookup_insert_eq.
      cbn [default from_option id].
      apply elem_of_union_l, elem_of_singleton. reflexivity.
    + unfold queue, replayed. world_simpl. rewrite lookup_insert_eq.
      cbn [buf length app]. by rewrite Nat.sub_0_r.
  - assert (Hrest : exists w1,
      stand (run (sendInitialState session ;;; log (LogConnected session)) w0)
      = Some (WaitsFor (SendSession session (AwarenessData (deref w (Some l)))), w1)
      /\ documents w1 = documents w /\ mu w1 = false
      /\ broadcast w1 = broadcast w
      /\ Send w1 !! session
         = Some (mkChan (take SendCapacity (payloads updates)) false)).
    { rewrite rest_of_handler_run.
      rewrite (sendInitialState_run session w0 repo updates (mkChan [] false));
        [|exact Hrepo|exact Hupdates
         |unfold w0, newSession; world_simpl; apply lookup_insert_eq
         |reflexivity].
      cbv zeta.
      change (GetAwareness (DocumentID session) w0)
        with (GetAwareness (DocumentID session) w).
      rewrite Haware, decide_False by exact Hfull. cbn [stand].
      change (deref w0 (Some l)) with (deref w (Some l)).
      eexists. split; [reflexivity|]. unfold replayed. world_simpl.
      split; [reflexivity|]. split; [exact Hmu|]. split; [reflexivity|].
      rewrite lookup_insert_eq. cbn [buf length app]. by rewrite Nat.sub_0_r. }
    destruct Hrest as (w1&Hrest&Hd1&Hm1&Hb1&Hs1).
    rewrite (connect_handler_first session now w _ w1 Hrest Hm1);
      [|by rewrite Hb1].
    eexists. split; [reflexivity|]. split.
    + unfold room, announce. world_simpl.
      rewrite joined_documents, lookup_insert_eq.
      cbn [default from_option id].
      apply elem_of_union_l, elem_of_singleton. reflexivity.
    + unfold queue, announce, joined. world_simpl. by rewrite Hs1.
Qed.

(** ** The read pump *)

Lemma pump_frame_refl w : pump_frame w w.
Proof. by repeat split. Qed.







(** X22: a failing database does not stop the relay: the frame is not
    stored, the failure is logged, and the frame is handed to
    [sm.broadcast] all the same. *)
Theorem frame_is_relayed_without_database (w : World) (s : Session)
    (message : string) (receivedAt storedAt : Z) (repo : YjsRepository) :
  yjsRepo w = Some repo -> reachable repo = false ->
  (length (broadcast w) < BroadcastCapacity)%nat ->
  exists w',
    run (onIncoming s (Frame message receivedAt storedAt)) w
    = Finished [LogStoreFailed] w'
    /\ yjsRepo w' = Some repo
    /\ broadcast w'
       = broadcast w ++ [mkBroadcast (DocumentID s) (Raw message) (Some s)].
Proof.
  intros Hrepo Hdown Hcap. eexists. cbn [onIncoming]. run_steps. world_simpl.
  rewrite Hrepo. unfold StoreUpdate. rewrite Hdown. run_steps.
  unfold Broadcast, send_broadcast. run_steps. world_simpl.
  rewrite decide_True by exact Hcap. run_steps.
  split; [reflexivity|]. world_simpl. by split.
Qed.

(** ** From one connection to the next *)


(** ** More examples *)

Lemma two_joined_documents :
  documents two_joined = {["doc1"%string := {[alice; bob]}]}.
Proof. apply (bool_decide_unpack _). vm_compute. exact I. Qed.

Lemma two_joined_members (d : string) (x : Session) :
  x ∈ room two_joined d -> d = "doc1"%string /\ (x = alice \/ x = bob).
Proof.
  unfold room. rewrite two_joined_documents.
  destruct (decide (d = "doc1"%string)) as [->|Hd].
  - rewrite lookup_singleton_eq. cbn [default from_option id].
    rewrite elem_of_union, !elem_of_singleton. done.
  - rewrite lookup_singleton_ne by done. cbn [default from_option id].
    intros Hbad. by apply not_elem_of_empty in Hbad.
Qed.

Lemma two_joined_spacious (x : Session) :
  x = alice \/ x = bob ->
  exists c, Send two_joined !! x = Some c /\ closed c = false
            /\ (length (buf c) + 1 < SendCapacity)%nat.
Proof.
  intros [->| ->]; eexists; (split; [vm_compute; reflexivity|]);
    (split; [reflexivity|]); vm_compute; lia.
Qed.

Lemma two_joined_open (d : string) (x : Session) :
  x ∈ room two_joined d -> is_open two_joined x.
Proof.
  intros [_ Hx]%two_joined_members.
  destruct (two_joined_spacious x Hx) as (c&Hc&Hcl&_).
  exists c. split; [exact Hc|exact Hcl].
Qed.

Lemma to_nowhere_recipients : recipients two_joined to_nowhere = ∅.
Proof. apply (bool_decide_unpack _). vm_compute. exact I. Qed.

(** X8, witness: a broadcast for a document nobody has joined. *)
Lemma broadcast_to_nobody_witness :
  run (handleBroadcast (RT := fixed_order) to_nowhere) two_joined
  = Finished tt two_joined.
Proof.
  exact (broadcast_to_nobody (RT := fixed_order) two_joined to_nowhere
           two_joined_mu to_nowhere_recipients).
Defined.

(** X10, witness: storing the presence of client 2 leaves that of
    client 1 as it was. *)
Lemma UpdateAwareness_sets_one_entry_witness :
  awareness_entry (UpdateAwareness "doc1" 2 presence before_joining) "doc1" 1
  = if decide ("doc1"%string = "doc1"%string /\ 1 = 2) then Some presence
    else awareness_entry before_joining "doc1" 1.
Proof.
  exact (UpdateAwareness_sets_one_entry before_joining "doc1" 2 presence "doc1" 1
           before_joining_wf).
Defined.

Lemma two_joined_fresh (d : string) (x : Session) :
  x ∈ room two_joined d -> ~ stale one_minute two_joined x.
Proof.
  intros [_ [->| ->]]%two_joined_members; vm_compute; discriminate.
Qed.

(** X13, witness: a sweep one minute after Alice and Bob joined. *)
Lemma sweep_without_stale_sessions_witness :
  run (cleanup (RT := fixed_order) one_minute) two_joined = Finished tt two_joined.
Proof.
  exact (sweep_without_stale_sessions (RT := fixed_order) one_minute two_joined
           two_joined_ok two_joined_mu two_joined_fresh).
Defined.

Lemma set_broadcast_frame f (w : World) :
  mu (set_broadcast f w) = mu w /\ broadcast (set_broadcast f w) = f (broadcast w).
Proof. done. Qed.

Lemma newSession_frame s t (w : World) :
  mu (newSession s t w) = mu w /\ broadcast (newSession s t w) = broadcast w
  /\ documents (newSession s t w) = documents w
  /\ yjsRepo (newSession s t w) = yjsRepo w.
Proof. done. Qed.

Lemma broadcast_full_mu : mu broadcast_full = false.
Proof.
  unfold broadcast_full.
  rewrite (proj1 (set_broadcast_frame _ _)), (proj1 (newSession_frame _ _ _)).
  exact two_joined_mu.
Qed.

Lemma broadcast_full_pending :
  ~ (length (broadcast broadcast_full) < BroadcastCapacity)%nat.
Proof.
  unfold broadcast_full. rewrite (proj2 (set_broadcast_frame _ _)).
  rewrite length_replicate. unfold BroadcastCapacity. lia.
Qed.

(** X15, witness: Carol registers while 256 messages are pending. *)
Lemma register_blocks_on_full_broadcast_witness :
  exists sys',
    steps (RT := fixed_order) (mkSystem broadcast_full AtSelect AtSelect)
          [HubReceivesRegister carol; HubResumes] sys'
    /\ carol ∈ room (world sys') (DocumentID carol)
    /\ mu (world sys') = true
    /\ exists m k, hub sys' = Waiting (SendBroadcast m) k.
Proof.
  destruct (handleRegister_outcome carol broadcast_full) as (W&Hout&_).
  eexists.
  assert (Hsteps : steps (RT := fixed_order)
            (mkSystem broadcast_full AtSelect AtSelect)
            [HubReceivesRegister carol; HubResumes]
            (mkSystem (W (set_mu true broadcast_full))
                      (Waiting (SendBroadcast
                                  (mkBroadcast (DocumentID carol) (joinMsg carol)
                                               (Some carol)))
                               (fun w2 => Ret tt (set_mu false w2)))
                      AtSelect)).
  { eapply steps_cons.
    - apply step_register. rewrite Hout. reflexivity.
    - eapply steps_cons; [|apply steps_nil].
      eapply step_hub_resumes.
      + cbn [grant]. rewrite broadcast_full_mu. reflexivity.
      + reflexivity. }
  split; [exact Hsteps|].
  apply (register_blocks_on_full_broadcast (RT := fixed_order) broadcast_full
           carol [] _ broadcast_full_mu broadcast_full_pending Hsteps).
  intros w' Hin. destruct (not_elem_of_nil _ Hin).
Defined.

Lemma coming_and_going_registered :
  registered coming_and_going = [alice; bob].
Proof. reflexivity. Qed.

Lemma before_joining_open (s : Session) :
  s ∈ registered coming_and_going -> is_open before_joining s.
Proof.
  rewrite coming_and_going_registered.
  intros [->|[->|Hs]%elem_of_cons]%elem_of_cons;
    [| |destruct (not_elem_of_nil _ Hs)];
    eexists; (split; [vm_compute; reflexivity|reflexivity]).
Qed.

Lemma coming_and_going_once : NoDup (registered coming_and_going).
Proof.
  rewrite coming_and_going_registered.
  apply NoDup_cons. split; [|apply NoDup_singleton].
  intros Hbad%list_elem_of_singleton. discriminate.
Qed.

(** X16, witness: Alice and Bob join, Alice is unregistered twice, and
    so is Carol, who never joined. *)
Lemma hub_never_panics_witness :
  run (Start (RT := fixed_order) coming_and_going) before_joining <> Panicked.
Proof.
  exact (hub_never_panics (RT := fixed_order) before_joining coming_and_going
           before_joining_documents coming_and_going_once before_joining_open).
Defined.

(** X17, witness: shutting down with Alice and Bob connected. *)
Lemma Shutdown_closes_every_session_witness :
  run (Shutdown (RT := fixed_order) true) two_joined = Panicked
  /\ exists w',
       run (Shutdown (RT := fixed_order) false) two_joined = Finished tt w'
       /\ documents w' = ∅ /\ mu w' = false
       /\ (forall d x, x ∈ room two_joined d ->
             exists c, Send two_joined !! x = Some c
                       /\ Send w' !! x = Some (mkChan (buf c) true))
       /\ (forall x, (forall d, x ∉ room two_joined d) ->
                     Send w' !! x = Send two_joined !! x)
       /\ broadcast w' = broadcast two_joined.
Proof.
  exact (Shutdown_closes_every_session (RT := fixed_order) two_joined
           two_joined_ok two_joined_mu two_joined_open).
Defined.

Lemma two_joined_doc1_spacious (x : Session) :
  x ∈ room two_joined "doc1" ->
  exists c, Send two_joined !! x = Some c /\ closed c = false
            /\ (length (buf c) + 1 < SendCapacity)%nat.
Proof. intros [_ Hx]%two_joined_members. exact (two_joined_spacious x Hx). Qed.

(** X18, witness: Alice sends P1 and then P2 to "doc1". *)
Lemma broadcasts_arrive_in_order_witness :
  exists w',
    and_then (and_then (and_then
                (run (Broadcast "doc1" (Raw "P1") (Some alice)) two_joined)
                (Broadcast "doc1" (Raw "P2") (Some alice)))
                (dispatch (RT := fixed_order) Deliver))
             (dispatch (RT := fixed_order) Deliver)
    = Finished tt w'
    /\ forall x, x ∈ room two_joined "doc1" ->
         queue w' x = queue two_joined x
                      ++ (if decide (Some alice = Some x) then [] else [Raw "P1"])
                      ++ (if decide (Some alice = Some x) then [] else [Raw "P2"]).
Proof.
  exact (broadcasts_arrive_in_order (RT := fixed_order) two_joined "doc1"
           (Raw "P1") (Raw "P2") (Some alice) (Some alice)
           two_joined_mu two_joined_broadcast two_joined_doc1_spacious).
Defined.

Lemma database_down_idle :
  mu database_down = false
  /\ (length (broadcast database_down) < BroadcastCapacity)%nat.
Proof. split; [vm_compute; reflexivity|vm_compute; lia]. Qed.

(** X19, witness: Carol connects while the database is down. *)
Lemma connection_without_database_witness :
  exists w' added,
    connect true carol 300 database_down = Some (Returned, Returned, w')
    /\ carol ∈ room w' (DocumentID carol)
    /\ queue w' carol = []
    /\ broadcast w'
       = broadcast database_down
         ++ [mkBroadcast (DocumentID carol) (joinMsg carol) (Some carol)]
    /\ logs w' = logs database_down ++ added
    /\ added ≡ₚ [LogJoined carol
                   (size ({[carol]} ∪ room database_down (DocumentID carol)));
                 LogGetUpdatesFailed; LogConnected carol].
Proof.
  destruct database_down_idle as (Hmu&Hcap).
  exact (connection_without_database true database_down carol 300
           (mkRepo [P1_update; P2_update] false) Hmu Hcap eq_refl eq_refl).
Defined.

Lemma bob_active_documents :
  documents bob_active = {["doc1"%string := {[alice; bob]}]}.
Proof. apply (bool_decide_unpack _). vm_compute. exact I. Qed.

Lemma bob_active_members (d : string) (x : Session) :
  x ∈ room bob_active d -> d = "doc1"%string /\ (x = alice \/ x = bob).
Proof.
  unfold room. rewrite bob_active_documents.
  destruct (decide (d = "doc1"%string)) as [->|Hd].
  - rewrite lookup_singleton_eq. cbn [default from_option id].
    rewrite elem_of_union, !elem_of_singleton. done.
  - rewrite lookup_singleton_ne by done. cbn [default from_option id].
    intros Hbad. by apply not_elem_of_empty in Hbad.
Qed.

Lemma set_LastActiveAt_frame f (w : World) :
  documents (set_LastActiveAt f w) = documents w
  /\ mu (set_LastActiveAt f w) = mu w
  /\ broadcast (set_LastActiveAt f w) = broadcast w
  /\ Send (set_LastActiveAt f w) = Send w.
Proof. done. Qed.

Lemma bob_active_frame :
  documents bob_active = documents two_joined
  /\ mu bob_active = mu two_joined
  /\ broadcast bob_active = broadcast two_joined
  /\ Send bob_active = Send two_joined.
Proof. exact (set_LastActiveAt_frame _ two_joined). Qed.

Lemma bob_active_ok : registry_ok bob_active.
Proof.
  apply (registry_ok_documents two_joined); [|exact two_joined_ok].
  apply bob_active_frame.
Qed.

Lemma bob_active_mu : mu bob_active = false.
Proof.
  destruct bob_active_frame as (_&Hmu&_). rewrite Hmu. exact two_joined_mu.
Qed.

Lemma bob_active_broadcast : broadcast bob_active = [].
Proof.
  destruct bob_active_frame as (_&_&Hb&_). rewrite Hb. exact two_joined_broadcast.
Qed.

Lemma bob_active_open (x : Session) :
  x ∈ room bob_active "doc1" -> has_room bob_active x.
Proof.
  destruct bob_active_frame as (_&_&_&Hsend).
  intros [_ [->| ->]]%bob_active_members.
  - eexists. rewrite Hsend.
    split; [vm_compute; reflexivity|]. split; [reflexivity|].
    vm_compute. lia.
  - destruct bob_has_room as (c&Hc&Hcl&Hlen). exists c. rewrite Hsend.
    split; [exact Hc|]. split; [exact Hcl|exact Hlen].
Qed.

Lemma bob_active_stale : stale six_minutes bob_active alice.
Proof. vm_compute. reflexivity. Qed.

Lemma bob_active_others (d : string) (x : Session) :
  x ∈ room bob_active d -> x <> alice -> ~ stale six_minutes bob_active x.
Proof.
  intros [_ [->| ->]]%bob_active_members Hne;
    [exfalso; apply Hne; reflexivity|].
  vm_compute. discriminate.
Qed.

Lemma alice_in_bob_active : alice ∈ room bob_active (DocumentID alice).
Proof. apply (bool_decide_unpack _). vm_compute. exact I. Qed.

(** X14, witness: six minutes after joining, Alice is evicted and Bob
    is told. *)
Lemma sweep_evicts_single_stale_session_witness :
  exists n m sys',
    steps (RT := fixed_order) (mkSystem bob_active AtSelect AtSelect)
          ([Tick six_minutes; SweeperResumes; HubReceivesFromSweeper alice]
           ++ replicate n HubResumes
           ++ [HubReceivesBroadcast] ++ replicate m HubResumes)
          sys'
    /\ hub sys' = AtSelect /\ sweeper sys' = AtSelect
    /\ mu (world sys') = false
    /\ (forall d, alice ∉ room (world sys') d)
    /\ forall x, x ∈ room bob_active (DocumentID alice) -> x <> alice ->
                 enqueued (leaveMsg alice) bob_active (world sys') x.
Proof.
  apply (sweep_evicts_single_stale_session (RT := fixed_order) bob_active
           six_minutes alice bob_active_ok bob_active_mu bob_active_broadcast
           alice_in_bob_active bob_active_stale bob_active_others).
  - destruct (bob_active_open alice alice_in_bob_active) as (c&Hc&Hcl&_).
    exists c. split; [exact Hc|exact Hcl].
  - intros x Hx _. exact (bob_active_open x Hx).
Defined.

(** X25, witness: Alice, last heard of at time 0, answers a ping five
    and a half minutes later; the sweep at six minutes keeps her. *)
Lemma pong_keeps_session_witness :
  exists w1,
    run (onIncoming alice (Pong (six_minutes - 30 * Second))) bob_active
    = Finished [] w1
    /\ LastActiveAt w1 !! alice = Some (six_minutes - 30 * Second)
    /\ run (cleanup (RT := fixed_order) six_minutes) w1 = Finished tt w1.
Proof.
  apply (pong_keeps_session (RT := fixed_order) six_minutes bob_active alice
           (six_minutes - 30 * Second) bob_active_ok bob_active_mu).
  - vm_compute. discriminate.
  - exact bob_active_others.
Defined.

Lemma big_with_awareness_facts :
  mu big_with_awareness = false
  /\ (length (broadcast big_with_awareness) < BroadcastCapacity)%nat
  /\ yjsRepo big_with_awareness = Some long_log
  /\ GetAwareness (DocumentID frank) big_with_awareness = Some 0%nat.
Proof.
  split; [vm_compute; reflexivity|]. split; [vm_compute; lia|].
  split; vm_compute; reflexivity.
Qed.

Lemma long_log_all :
  GetAllUpdates long_log (DocumentID frank) = inl (rows long_log).
Proof. vm_compute. reflexivity. Qed.

Lemma long_log_long : (SendCapacity <= length (rows long_log))%nat.
Proof. vm_compute. lia. Qed.

(** X20, witness: Frank connects to "big", which has 300 updates and
    the presence of a client; here the handler runs before the hub. *)
Lemma connection_blocks_on_awareness_witness :
  exists w',
    connect false frank 0 big_with_awareness
    = Some (Returned,
            WaitsFor (SendSession frank
                        (AwarenessData (deref big_with_awareness (Some 0%nat)))),
            w')
    /\ frank ∈ room w' (DocumentID frank)
    /\ queue w' frank = take SendCapacity (payloads (rows long_log)).
Proof.
  destruct big_with_awareness_facts as (Hmu&Hcap&Hrepo&Haware).
  exact (connection_blocks_on_awareness false big_with_awareness frank 0 long_log
           (rows long_log) 0%nat Hmu Hcap Hrepo long_log_all long_log_long Haware).
Defined.



Lemma database_down_facts :
  yjsRepo database_down = Some (mkRepo [P1_update; P2_update] false)
  /\ (length (broadcast database_down) < BroadcastCapacity)%nat.
Proof. split; [reflexivity|]. vm_compute. lia. Qed.

(** X22, witness: a frame from Alice while the database is down. *)
Lemma frame_is_relayed_without_database_witness :
  exists w',
    run (onIncoming alice (Frame "P3" 400 401)) database_down
    = Finished [LogStoreFailed] w'
    /\ yjsRepo w' = Some (mkRepo [P1_update; P2_update] false)
    /\ broadcast w'
       = broadcast database_down
         ++ [mkBroadcast (DocumentID alice) (Raw "P3") (Some alice)].
Proof.
  destruct database_down_facts as (Hrepo&Hcap).
  exact (frame_is_relayed_without_database database_down alice "P3" 400 401
           (mkRepo [P1_update; P2_update] false) Hrepo eq_refl Hcap).
Defined.

